(** * Point-of-sale client: scale drivers, cashier session, sale, configuration

    A shallow embedding of the Python client under [app-client-python/src]:
    - [equipment/base.py], [equipment/scales/{base,toledo,filizola,manager}.py]
    - [models/cashier_session.py], [models/sale.py] (pydantic models with
      [validate_assignment = True], see [models/base.py])
    - [core/config.py] ([ConfigManager._deep_merge])

    Modelling conventions.
    - Python [str] is [string]; a character is a code point below 256.
    - A [Decimal] is the rational [Q] it denotes. [Decimal(str)] and the
      comparisons are exact; every arithmetic result ([+], [-], [*], [/],
      [abs]) is rounded to the 28 significant digits of the default
      context, half to even ([PyDecimal.rounded]). Exponents stay far from
      the context's limits of 10^999999, and [Decimal('-0')] is [0].
    - A method that mutates [self] and may raise is a function
      [state -> outcome * state]: the state that comes back is the object as
      the exception leaves it. *)

From Stdlib Require Import Bool Ascii String List ZArith NArith QArith Qabs Qround Qpower.
From Stdlib Require Import Lia Lqa.
Import ListNotations.

Set Implicit Arguments.

(* ===================================================================== *)
(** ** Python text primitives *)

Module Py.

Local Open Scope N_scope.

Definition ord (c : ascii) : N := N_of_ascii c.
Definition chr (n : N) : ascii := ascii_of_N n.

Definition between (lo hi n : N) : bool := (lo <=? n) && (n <=? hi).

(** [str.isprintable] on one character: space and the visible ASCII range,
    and the visible Latin-1 range without NBSP (160) and soft hyphen (173). *)
Definition isprintable (c : ascii) : bool :=
  between 32 126 (ord c) || (between 161 255 (ord c) && negb (ord c =? 173)).

(** The digits [Decimal] accepts in this range. *)
Definition is_decimal_digit (c : ascii) : bool := between 48 57 (ord c).

(** [str.isdigit]: also true of the superscripts 178, 179 and 185. *)
Definition isdigit (c : ascii) : bool :=
  is_decimal_digit c || (ord c =? 178) || (ord c =? 179) || (ord c =? 185).

(** [str.isspace], the set [str.strip()] removes. *)
Definition isspace (c : ascii) : bool :=
  between 9 13 (ord c) || between 28 32 (ord c) || (ord c =? 133) || (ord c =? 160).

Definition lower_char (c : ascii) : ascii :=
  if between 65 90 (ord c) || (between 192 222 (ord c) && negb (ord c =? 215))
  then chr (ord c + 32) else c.

Local Close Scope N_scope.
Local Open Scope string_scope.

Fixpoint map (f : ascii -> ascii) (s : string) : string :=
  match s with
  | EmptyString => EmptyString
  | String c r => String (f c) (map f r)
  end.

(** [''.join(c for c in s if p(c))] *)
Fixpoint filter (p : ascii -> bool) (s : string) : string :=
  match s with
  | EmptyString => EmptyString
  | String c r => if p c then String c (filter p r) else filter p r
  end.

Fixpoint forallb (p : ascii -> bool) (s : string) : bool :=
  match s with
  | EmptyString => true
  | String c r => p c && forallb p r
  end.

Fixpoint rev_append (s acc : string) : string :=
  match s with
  | EmptyString => acc
  | String c r => rev_append r (String c acc)
  end.

Definition rev (s : string) : string := rev_append s EmptyString.

Fixpoint dropwhile (p : ascii -> bool) (s : string) : string :=
  match s with
  | EmptyString => EmptyString
  | String c r => if p c then dropwhile p r else s
  end.

Fixpoint mem (c : ascii) (chars : string) : bool :=
  match chars with
  | EmptyString => false
  | String d r => Ascii.eqb c d || mem c r
  end.

Definition lower (s : string) : string := map lower_char s.

(** [s.strip()] *)
Definition strip (s : string) : string :=
  rev (dropwhile isspace (rev (dropwhile isspace s))).

(** [s.lstrip(chars)] *)
Definition lstrip (chars s : string) : string :=
  dropwhile (fun c => mem c chars) s.

(** [p] is a prefix of [s]. *)
Fixpoint prefix (p s : string) : bool :=
  match p with
  | EmptyString => true
  | String a p' =>
      match s with
      | EmptyString => false
      | String b s' => Ascii.eqb a b && prefix p' s'
      end
  end.

(** [s.startswith(p)] *)
Definition startswith (s p : string) : bool := prefix p s.

(** [needle in hay] *)
Fixpoint contains (needle hay : string) : bool :=
  prefix needle hay ||
  match hay with
  | EmptyString => false
  | String _ r => contains needle r
  end.

(** [s.split(sep)] for a one-character separator: [cur] is the field being
    read, kept reversed. *)
Fixpoint split_from (sep : ascii) (cur : string) (s : string) : list string :=
  match s with
  | EmptyString => [rev cur]
  | String c r =>
      if Ascii.eqb c sep then rev cur :: split_from sep EmptyString r
      else split_from sep (String c cur) r
  end.

Definition split (sep : ascii) (s : string) : list string :=
  split_from sep EmptyString s.

(** [s.replace(old, '')] for a non-empty [old]: occurrences are removed left
    to right without overlap; [skip] counts the characters of a match still
    to be dropped. *)
Fixpoint remove_from (old : string) (skip : nat) (s : string) : string :=
  match s with
  | EmptyString => EmptyString
  | String c r =>
      match skip with
      | S k => remove_from old k r
      | O => if prefix old s
             then remove_from old (String.length old - 1) r
             else String c (remove_from old 0 r)
      end
  end.

Definition remove (old s : string) : string := remove_from old 0 s.

(** [sep.join(parts)] *)
Fixpoint join (sep : string) (parts : list string) : string :=
  match parts with
  | [] => EmptyString
  | [p] => p
  | p :: rest => p ++ sep ++ join sep rest
  end.

(** No character of [needle] occurs in [s]. *)
Definition foreign (needle s : string) : bool :=
  forallb (fun c => negb (mem c needle)) s.

(** Truthiness of a [str]. *)
Definition nonempty (s : string) : bool :=
  match s with EmptyString => false | _ => true end.

End Py.

(* ===================================================================== *)
(** ** [decimal.Decimal]

    The constructor on the strings the drivers hand it, which hold only
    digits, ['.'], ['+'] and ['-']: an optional sign, then digits with an
    optional fraction, or a fraction that starts with the point. Any other
    string raises [InvalidOperation], here [None]. The value is exact.

    The arithmetic of the default context: the exact result, rounded to 28
    significant digits with [ROUND_HALF_EVEN]. *)

Module PyDecimal.

Local Open Scope string_scope.

Definition digit_val (c : ascii) : N := (Py.ord c - 48)%N.

Fixpoint digits_val (acc : N) (s : string) : N :=
  match s with
  | EmptyString => acc
  | String c r => digits_val (10 * acc + digit_val c)%N r
  end.

(** The longest prefix of decimal digits, and what follows it. *)
Fixpoint span_digits (s : string) : string * string :=
  match s with
  | EmptyString => (EmptyString, EmptyString)
  | String c r =>
      if Py.is_decimal_digit c
      then let '(d, rest) := span_digits r in (String c d, rest)
      else (EmptyString, s)
  end.

Definition scale (fraction : string) : positive :=
  Pos.pow 10 (Pos.of_nat (String.length fraction)).

Definition make (negative : bool) (int_part fraction : string) : Q :=
  let coefficient := Z.of_N (digits_val 0 (int_part ++ fraction)) in
  let denominator := match fraction with EmptyString => 1%positive | _ => scale fraction end in
  Qmake (if negative then - coefficient else coefficient) denominator.

Definition unsigned (negative : bool) (s : string) : option Q :=
  let '(int_part, rest) := span_digits s in
  match rest with
  | EmptyString =>
      if Py.nonempty int_part then Some (make negative int_part EmptyString) else None
  | String c fraction =>
      if Ascii.eqb c "." && Py.forallb Py.is_decimal_digit fraction
         && (Py.nonempty int_part || Py.nonempty fraction)
      then Some (make negative int_part fraction)
      else None
  end.

Definition parse (s : string) : option Q :=
  match s with
  | String c r =>
      if Ascii.eqb c "-" then unsigned true r
      else if Ascii.eqb c "+" then unsigned false r
      else unsigned false s
  | EmptyString => None
  end.

Local Open Scope Q_scope.

(** [getcontext().prec] *)
Definition prec : Z := 28.

(** The number of decimal digits of a positive integer. *)
Fixpoint digits_fuel (fuel : nat) (n : Z) : Z :=
  match fuel with
  | O => 0
  | S fuel' => if (n <? 10)%Z then 1 else 1 + digits_fuel fuel' (n / 10)
  end.

Definition ndigits (n : Z) : Z := digits_fuel (S (Z.to_nat (Z.log2 n))) n.

Definition pow10 (e : Z) : Q := 10 ^ e.

(** [Decimal.adjusted()] of a value that is not zero: the exponent of its
    leading digit, the [e] with [10^e <= |q| < 10^(e+1)]. *)
Definition adjusted (q : Q) : Z :=
  let t := (ndigits (Z.abs (Qnum q)) - ndigits (Zpos (Qden q)))%Z in
  if Qle_bool (pow10 t) (Qabs q) then t else (t - 1)%Z.

(** [ROUND_HALF_EVEN] to an integer. *)
Definition half_even (x : Q) : Z :=
  let f := Qfloor x in
  match Qcompare (x - inject_Z f) (1 # 2) with
  | Lt => f
  | Gt => (f + 1)%Z
  | Eq => if Z.even f then f else (f + 1)%Z
  end.

(** The context's rounding of an exact result: the nearest value with
    [prec] significant digits. *)
Definition rounded (q : Q) : Q :=
  if Qeq_bool q 0 then 0
  else let e := (adjusted q - (prec - 1))%Z in
       inject_Z (half_even (q * pow10 (- e))) * pow10 e.

Definition add (a b : Q) : Q := rounded (a + b).
Definition sub (a b : Q) : Q := rounded (a - b).
Definition mul (a b : Q) : Q := rounded (a * b).

(** [a / b] for a divisor that is not zero. *)
Definition div (a b : Q) : Q := rounded (a / b).

(** [abs(a)], which rounds as every operation does. *)
Definition abs (a : Q) : Q := rounded (Qabs a).

(** The value has at most [prec] significant digits: the context leaves
    it as it is. *)
Definition unrounded (q : Q) : bool := Qeq_bool (rounded q) q.

End PyDecimal.

(* ===================================================================== *)
(** ** JSON values and Python dictionaries

    What [json.load] returns. A [dict] is an association list in insertion
    order; Python keeps its keys distinct ([wf_dict]). *)

#[warnings="-register-all"] Inductive json : Type :=
| JNull
| JBool (b : bool)
| JInt (n : Z)
| JFloat (x : Q)
| JStr (s : string)
| JArr (items : list json)
| JObj (fields : list (string * json)).

Definition dict := list (string * json).

Module Dict.

Fixpoint get (k : string) (d : dict) : option json :=
  match d with
  | [] => None
  | (k', v) :: rest => if String.eqb k k' then Some v else get k rest
  end.

(** [d[k] = v]: an existing key keeps its place, a new one goes last. *)
Fixpoint set (k : string) (v : json) (d : dict) : dict :=
  match d with
  | [] => [(k, v)]
  | (k', v') :: rest =>
      if String.eqb k k' then (k, v) :: rest else (k', v') :: set k v rest
  end.

Definition keys (d : dict) : list string := List.map fst d.

Fixpoint distinct (ks : list string) : bool :=
  match ks with
  | [] => true
  | k :: rest => negb (existsb (String.eqb k) rest) && distinct rest
  end.

(** [d.update(other)] *)
Definition update (d other : dict) : dict :=
  fold_left (fun acc kv => set (fst kv) (snd kv) acc) other d.

End Dict.

(** Keys are distinct in every dictionary of the value. *)
Fixpoint wf_json (j : json) : bool :=
  match j with
  | JArr items => List.forallb wf_json items
  | JObj fields =>
      Dict.distinct (List.map fst fields)
      && List.forallb (fun kv => wf_json (snd kv)) fields
  | _ => true
  end.

Definition wf_dict (d : dict) : bool := wf_json (JObj d).

(** Python truthiness of a JSON value. *)
Definition truthy (j : json) : bool :=
  match j with
  | JNull => false
  | JBool b => b
  | JInt n => negb (n =? 0)%Z
  | JFloat x => negb (Qeq_bool x 0)
  | JStr s => Py.nonempty s
  | JArr items => match items with [] => false | _ => true end
  | JObj fields => match fields with [] => false | _ => true end
  end.

(* ===================================================================== *)
(** ** [core/config.py]: [ConfigManager._deep_merge] *)

Module ConfigManager.

(** [_deep_merge(base, override)] returns the [base] it has updated in
    place. The recursion is on the override, passed as a JSON value. *)
Fixpoint merge_json (override : json) (base : dict) {struct override} : dict :=
  match override with
  | JObj fields =>
      (fix loop (items : list (string * json)) (base : dict) {struct items} : dict :=
         match items with
         | [] => base
         | (key, value) :: rest =>
             loop rest
               (match Dict.get key base, value with
                | Some (JObj sub), JObj _ => Dict.set key (JObj (merge_json value sub)) base
                | _, _ => Dict.set key value base
                end)
         end) fields base
  | _ => base
  end.

Definition _deep_merge (base override : dict) : dict := merge_json (JObj override) base.

(** The value under [key] after one turn of the loop. *)
Definition merged_value (old : option json) (value : json) : json :=
  match old, value with
  | Some (JObj sub), JObj fields => JObj (_deep_merge sub fields)
  | _, _ => value
  end.

(** The loop body as a function of the dictionary: [base] after the turn
    for [(key, value)]. *)
Definition merge_step (base : dict) (key : string) (value : json) : dict :=
  Dict.set key (merged_value (Dict.get key base) value) base.

(** A value that is not a dictionary. *)
Definition is_leaf (value : json) : bool :=
  match value with JObj _ => false | _ => true end.

(** [get]'s walk along a dotted path, already split into its keys. *)
Fixpoint lookup_path (path : list string) (current : json) : option json :=
  match path with
  | [] => Some current
  | key :: rest =>
      match current with
      | JObj fields =>
          match Dict.get key fields with
          | Some next => lookup_path rest next
          | None => None
          end
      | _ => None
      end
  end.

End ConfigManager.

(* ===================================================================== *)
(** ** Exceptions and the state-and-exception monad *)

Inductive exn : Type :=
| ValidationError (field : string)
| ValueError (message : string)
| EquipmentError (message : string)
| AttributeError (message : string)
| TypeError (message : string)
| SerialTimeoutException (message : string)
| OtherException (message : string).

(** [str(e)] for the exceptions whose text the drivers record. *)
Definition str_exn (e : exn) : string :=
  match e with
  | ValidationError field => field
  | ValueError m | EquipmentError m | AttributeError m | TypeError m
  | SerialTimeoutException m | OtherException m => m
  end.

Inductive outcome (A : Type) : Type :=
| Returned (value : A)
| Raised (e : exn).

Arguments Returned {A} value.
Arguments Raised {A} e.

Definition M (S A : Type) : Type := S -> outcome A * S.

Definition ret {S A} (a : A) : M S A := fun s => (Returned a, s).
Definition raise {S A} (e : exn) : M S A := fun s => (Raised e, s).
Definition bind {S A B} (m : M S A) (k : A -> M S B) : M S B :=
  fun s => match m s with
           | (Returned a, s') => k a s'
           | (Raised e, s') => (Raised e, s')
           end.
Definition get {S} : M S S := fun s => (Returned s, s).
Definition modify {S} (f : S -> S) : M S unit := fun s => (Returned tt, f s).

Declare Scope py_scope.
Delimit Scope py_scope with py.
Notation "x <- m ;; k" := (bind m (fun x => k))
  (at level 61, m at next level, right associativity) : py_scope.
Notation "m ;; k" := (bind m (fun _ => k))
  (at level 61, right associativity) : py_scope.

Definition returned {A S} (r : outcome A * S) : bool :=
  match fst r with Returned _ => true | Raised _ => false end.

Definition type_name (j : json) : string :=
  match j with
  | JNull => "NoneType" | JBool _ => "bool" | JInt _ => "int" | JFloat _ => "float"
  | JStr _ => "str" | JArr _ => "list" | JObj _ => "dict"
  end.

Definition no_attribute (j : json) (attribute : string) : exn :=
  AttributeError ("'" ++ type_name j ++ "' object has no attribute '" ++ attribute ++ "'").

(** [value.get(key, default)] on a value read from JSON. *)
Definition py_get (value : json) (key : string) (default : json) : exn + json :=
  match value with
  | JObj fields => inr (match Dict.get key fields with Some v => v | None => default end)
  | _ => inl (no_attribute value "get")
  end.

(* ===================================================================== *)
(** ** [core/config.py]: loading, [get] and [set]

    The other methods of [ConfigManager], as functions of [self._configs],
    the dictionary of the domains. A [dict] is a tree: it describes the
    stores in which no dictionary object is held at two places, which are
    the stores that loading builds and that [set] keeps when the value it
    is given is not a dictionary ([built] below). *)

Module ConfigStore.

Local Open Scope string_scope.

(** [Path(filename).stem] of a file name without directories: the name
    up to its last point, when that point is neither first nor last. *)
Definition stem (filename : string) : string :=
  let parts := Py.split "." filename in
  let before := Py.join "." (List.removelast parts) in
  if Py.nonempty before && Py.nonempty (List.last parts EmptyString)
  then before else filename.

(** What is found under a path of the configuration directory: nothing,
    a file that cannot be opened or is not JSON, or JSON data. *)
Inductive file : Type :=
| Missing
| Unreadable
| Content (data : json).

(** [_load_config(filename)] on [self._configs]. The base data is stored
    before the local file is opened; the merge runs to its end when both
    are dictionaries, and raises before its first assignment otherwise
    (no [items] on the override, no item assignment on the base, unless
    the override is empty), which the [except] clause logs. *)
Definition _load_config (fs : string -> file) (filename : string) (configs : dict) : dict :=
  match fs filename with
  | Missing | Unreadable => configs
  | Content config_data =>
      let config_name := stem filename in
      let configs := Dict.set config_name config_data configs in
      match fs ("local_" ++ filename), config_data with
      | Content (JObj local_config), JObj base =>
          Dict.set config_name (JObj (ConfigManager._deep_merge base local_config)) configs
      | _, _ => configs
      end
  end.

Definition config_files : list string :=
  ["api.json"; "database.json"; "equipment.json"; "ui.json"; "logging.json"].

Definition _load_all_configs (dir_exists : bool) (fs : string -> file) (configs : dict) : dict :=
  if dir_exists
  then fold_left (fun acc filename => _load_config fs filename acc) config_files configs
  else configs.

(** [ConfigManager(config_dir)]: the [_configs] it ends with. *)
Definition init (dir_exists : bool) (fs : string -> file) : dict :=
  _load_all_configs dir_exists fs [].

Definition reload (dir_exists : bool) (fs : string -> file) (configs : dict) : dict :=
  _load_all_configs dir_exists fs [].

(** [get(config_name, key_path, default)] *)
Definition get (configs : dict) (config_name key_path : string) (default : json) : json :=
  match Dict.get config_name configs with
  | None => default
  | Some config =>
      if Py.nonempty key_path
      then match ConfigManager.lookup_path (Py.split "." key_path) config with
           | Some value => value
           | None => default
           end
      else config
  end.

(** The two loops of [set] on the domain's dictionary: every key but the
    last leads to a dictionary, put in place of what is not one. *)
Fixpoint set_path (keys : list string) (value : json) (current : dict) : dict :=
  match keys with
  | [] => current
  | [key] => Dict.set key value current
  | key :: rest =>
      let sub := match Dict.get key current with
                 | Some (JObj fields) => fields
                 | _ => []
                 end in
      Dict.set key (JObj (set_path rest value sub)) current
  end.

(** [set(config_name, key_path, value)]. A domain that is not a
    dictionary (a JSON file may hold a list or a number) raises
    [TypeError] at the first membership test or item assignment; the
    text of the error is not modelled beyond the type it names. *)
Definition set (configs : dict) (config_name key_path : string) (value : json) : exn + dict :=
  let config := match Dict.get config_name configs with
                | Some config => config
                | None => JObj []
                end in
  match config with
  | JObj fields =>
      inr (Dict.set config_name
             (JObj (set_path (Py.split "." key_path) value fields)) configs)
  | _ => inl (TypeError (type_name config))
  end.



(** The domain [config_name] is absent or a dictionary. *)
Definition settable (configs : dict) (config_name : string) : bool :=
  match Dict.get config_name configs with
  | None | Some (JObj _) => true
  | Some _ => false
  end.

Definition has_config (configs : dict) (config_name : string) : bool :=
  match Dict.get config_name configs with Some _ => true | None => false end.

End ConfigStore.

(* ===================================================================== *)
(** ** [equipment/base.py]: [BaseEquipment] and [equipment/scales/base.py]: [BaseScale] *)

Inductive EquipmentStatus : Type := DISCONNECTED | CONNECTING | CONNECTED | ERROR | BUSY.

Definition status_eqb (a b : EquipmentStatus) : bool :=
  match a, b with
  | DISCONNECTED, DISCONNECTED | CONNECTING, CONNECTING | CONNECTED, CONNECTED
  | ERROR, ERROR | BUSY, BUSY => true
  | _, _ => false
  end.

Inductive Brand : Type := Toledo | Filizola.

(** A scale driver object. [serial_connection] is [None], or the port with
    its [is_open] flag. *)
Record Scale : Type := mkScale {
  brand : Brand;
  config : dict;
  status : EquipmentStatus;
  last_error : option string;
  _last_weight : option Q;
  _is_stable : bool;
  serial_connection : option bool
}.

Definition with_status (st : EquipmentStatus) (d : Scale) : Scale :=
  mkScale (brand d) (config d) st (last_error d) (_last_weight d) (_is_stable d) (serial_connection d).
Definition with_last_error (e : option string) (d : Scale) : Scale :=
  mkScale (brand d) (config d) (status d) e (_last_weight d) (_is_stable d) (serial_connection d).
Definition with_last_weight (w : option Q) (d : Scale) : Scale :=
  mkScale (brand d) (config d) (status d) (last_error d) w (_is_stable d) (serial_connection d).
Definition with_is_stable (b : bool) (d : Scale) : Scale :=
  mkScale (brand d) (config d) (status d) (last_error d) (_last_weight d) b (serial_connection d).
Definition with_serial (c : option bool) (d : Scale) : Scale :=
  mkScale (brand d) (config d) (status d) (last_error d) (_last_weight d) (_is_stable d) c.

Module BaseEquipment.

(** [BaseScale.__init__(config)] *)
Definition init (b : Brand) (cfg : dict) : Scale :=
  mkScale b cfg DISCONNECTED None None false None.

Definition get_status (d : Scale) : EquipmentStatus := status d.
Definition get_last_error (d : Scale) : option string := last_error d.

Definition set_error (error_message : string) (d : Scale) : Scale :=
  with_status ERROR (with_last_error (Some error_message) d).

Definition clear_error (d : Scale) : Scale :=
  let d := with_last_error None d in
  if status_eqb (status d) ERROR then with_status DISCONNECTED d else d.

End BaseEquipment.

(* ===================================================================== *)
(** ** The serial port, as the driver sees it

    What the device and the operating system do is not the driver's choice:
    every method takes the outcome of the serial calls it makes. *)

(** One read: [reset_input_buffer()], [write(...)], then
    [readline().decode()], each returning or raising. *)
Record exchange : Type := mkExchange {
  on_reset_input_buffer : option exn;
  on_write : option exn;
  on_readline : exn + string
}.

(** The device answers [line] and no call raises. *)
Definition reply (line : string) : exchange := mkExchange None None (inr line).

Definition lift {S A} (r : exn + A) : M S A :=
  match r with inl e => raise e | inr a => ret a end.

Definition call {S} (r : option exn) : M S unit :=
  match r with Some e => raise e | None => ret tt end.

(** [command.encode()] *)
Definition encode (command : json) : exn + string :=
  match command with
  | JStr s => inr s
  | _ => inl (no_attribute command "encode")
  end.

(** [self.config.get('commands', {}).get(name, default)] *)
Definition configured_command (name default : string) : M Scale json :=
  (d <- get ;;
   commands <- lift (py_get (JObj (config d)) "commands" (JObj [])) ;;
   lift (py_get commands name (JStr default)))%py.

(** The methods the two vendor classes share word for word, over what
    differs: the default read command and the response parser. *)
Section VendorDriver.

Variable default_read_command : string.
Variable parse_response : string -> Scale -> option Q * Scale.

Definition is_connected_ (d : Scale) : bool :=
  match serial_connection d with
  | Some is_open => is_open && status_eqb (status d) CONNECTED
  | None => false
  end.

(** The [try] block of [read_weight]. *)
Definition read_weight_try (x : exchange) : M Scale (option Q) :=
  (modify (with_status BUSY) ;;
   command <- configured_command "read_weight" default_read_command ;;
   call (on_reset_input_buffer x) ;;
   _ <- lift (encode command) ;;
   call (on_write x) ;;
   line <- lift (on_readline x) ;;
   let response := Py.strip line in
   fun d =>
     match (if Py.nonempty response then parse_response response d else (None, d)) with
     | (Some weight, d') =>
         (Returned (Some weight), with_status CONNECTED (with_last_weight (Some weight) d'))
     | (None, d') =>
         (Returned None, BaseEquipment.set_error "Resposta inválida da balança" d')
     end)%py.

Definition read_weight_ (x : exchange) (d : Scale) : option Q * Scale :=
  if negb (is_connected_ d)
  then (None, BaseEquipment.set_error "Balança não conectada" d)
  else
    let '(result, d') :=
      match read_weight_try x d with
      | (Returned weight, d') => (weight, d')
      | (Raised (SerialTimeoutException _), d') =>
          (None, BaseEquipment.set_error "Timeout na comunicação" d')
      | (Raised e, d') =>
          (None, BaseEquipment.set_error ("Erro na leitura: " ++ str_exn e) d')
      end in
    (* finally *)
    (result, if status_eqb (status d') BUSY then with_status CONNECTED d' else d').

Definition tare_threshold : Q := 10 # 1000.

(** [a < b] on [Decimal]s. *)
Definition Qltb (a b : Q) : bool := negb (Qle_bool b a).

(** The [try] block of [tare]; [w] is the outcome of writing the command
    and [x] the verification read that follows the settle delay. *)
Definition tare_try (w : option exn) (x : exchange) : M Scale bool :=
  (command <- configured_command "tare" "T" ;;
   _ <- lift (encode command) ;;
   call w ;;
   fun d =>
     match read_weight_ x d with
     | (Some current_weight, d') =>
         if Qltb (PyDecimal.abs current_weight) tare_threshold
         then (Returned true, d')
         else (Returned false, BaseEquipment.set_error "Falha na execução da tara" d')
     | (None, d') =>
         (Returned false, BaseEquipment.set_error "Falha na execução da tara" d')
     end)%py.

Definition tare_ (w : option exn) (x : exchange) (d : Scale) : bool * Scale :=
  if negb (is_connected_ d) then (false, d)
  else match tare_try w x d with
       | (Returned ok, d') => (ok, d')
       | (Raised e, d') => (false, BaseEquipment.set_error ("Erro na tara: " ++ str_exn e) d')
       end.

Definition zero_try (w : option exn) : M Scale bool :=
  (command <- configured_command "zero" "Z" ;;
   _ <- lift (encode command) ;;
   call w ;;
   ret true)%py.

Definition zero_ (w : option exn) (d : Scale) : bool * Scale :=
  if negb (is_connected_ d) then (false, d)
  else match zero_try w d with
       | (Returned ok, d') => (ok, d')
       | (Raised e, d') => (false, BaseEquipment.set_error ("Erro ao zerar: " ++ str_exn e) d')
       end.

(** What [serial.Serial(port=..., ...)] does: the port object with its
    [is_open] flag, a [serial.SerialException] (or a subclass of it), or
    another exception. *)
Inductive serial_open : Type :=
| Opened (is_open : bool)
| SerialException (message : string)
| OpenRaised (e : exn).

(** [self.config.get('connection', {}).get(name, default)] *)
Definition connection_parameter (name : string) (default : json) : M Scale json :=
  (d <- get ;;
   connection <- lift (py_get (JObj (config d)) "connection" (JObj [])) ;;
   lift (py_get connection name default))%py.

(** The [port], [baudrate] and [timeout] that [connect] hands to
    [serial.Serial]. *)
Definition serial_parameters : M Scale (json * json * json) :=
  (port <- connection_parameter "port" (JStr "COM1") ;;
   baudrate <- connection_parameter "baudrate" (JInt 9600) ;;
   timeout <- connection_parameter "timeout" (JInt 2) ;;
   ret (port, baudrate, timeout))%py.

(** The message of [connect]'s two [except] clauses. *)
Definition connect_error (e : exn) : string :=
  match e with
  | SerialTimeoutException m => "Erro na conexão serial: " ++ m
  | _ => "Erro inesperado na conexão: " ++ str_exn e
  end.

(** [disconnect()]; [closing] is what [close()] does when it is called. *)
Definition disconnect_ (closing : option exn) (d : Scale) : bool * Scale :=
  match serial_connection d, closing with
  | Some true, Some e =>
      (false, BaseEquipment.set_error ("Erro ao desconectar: " ++ str_exn e) d)
  | _, _ => (true, with_status DISCONNECTED (with_serial None d))
  end.

(** [test_connection()] *)
Definition test_connection_ (x : exchange) (d : Scale) : bool * Scale :=
  match read_weight_ x d with
  | (Some _, d') => (true, d')
  | (None, d') => (false, d')
  end.

(** [connect()]: [opening] is what the constructor of the port does, [x]
    the serial calls of the test read, [closing] what [close()] does if
    the test fails. *)
Definition connect_ (opening : serial_open) (x : exchange) (closing : option exn)
    (d : Scale) : bool * Scale :=
  match serial_parameters (with_status CONNECTING d) with
  | (Raised e, d1) => (false, BaseEquipment.set_error (connect_error e) d1)
  | (Returned _, d1) =>
      match opening with
      | SerialException m =>
          (false, BaseEquipment.set_error ("Erro na conexão serial: " ++ m) d1)
      | OpenRaised e => (false, BaseEquipment.set_error (connect_error e) d1)
      | Opened is_open =>
          match test_connection_ x (with_serial (Some is_open) d1) with
          | (true, d2) => (true, BaseEquipment.clear_error (with_status CONNECTED d2))
          | (false, d2) =>
              (false, BaseEquipment.set_error "Falha no teste de comunicação"
                        (snd (disconnect_ closing d2)))
          end
      end
  end.

End VendorDriver.

(* ===================================================================== *)
(** ** [equipment/scales/toledo.py] *)

Module ToledoScale.

Definition init (cfg : dict) : Scale := BaseEquipment.init Toledo cfg.

Definition clean_response (response : string) : string :=
  Py.filter Py.isprintable response.

(** The numeric part: the last comma-separated field without ["kg"], kept
    to digits, point and signs. *)
Definition weight_str (response : string) : string :=
  let weight_part := Py.remove "kg" (List.last (Py.split "," (clean_response response)) EmptyString) in
  Py.filter (fun c => Py.isdigit c || Py.mem c ".-+") weight_part.

Definition stable_marker (response : string) : bool :=
  Py.contains "ST" (clean_response response)
  || Py.contains "stable" (Py.lower (clean_response response)).

Definition _parse_toledo_response (response : string) (d : Scale) : option Q * Scale :=
  if Py.contains "kg" (clean_response response) then
    if Py.nonempty (weight_str response) then
      match PyDecimal.parse (weight_str response) with
      | Some weight => (Some weight, with_is_stable (stable_marker response) d)
      | None => (None, d)
      end
    else (None, d)
  else (None, d).

Definition is_connected := is_connected_.
Definition read_weight := read_weight_ "05" _parse_toledo_response.
Definition tare := tare_ "05" _parse_toledo_response.
Definition zero := zero_.
Definition disconnect := disconnect_.
Definition test_connection := test_connection_ "05" _parse_toledo_response.
Definition connect := connect_ "05" _parse_toledo_response.

End ToledoScale.

(* ===================================================================== *)
(** ** [equipment/scales/filizola.py] *)

Module FilizolaScale.

Definition init (cfg : dict) : Scale := BaseEquipment.init Filizola cfg.

Definition clean_response (response : string) : string :=
  Py.filter Py.isprintable response.

(** The numeric part: the response without its leading [S], [W], [+], [-],
    kept to digits and point. *)
Definition numbers (response : string) : string :=
  let weight_str := Py.lstrip "SW+-" (clean_response response) in
  Py.filter (fun c => Py.isdigit c || Ascii.eqb c ".") weight_str.

Definition stable_marker (response : string) : bool :=
  Py.startswith (clean_response response) "S"
  || Py.contains "stable" (Py.lower (clean_response response)).

Definition _parse_filizola_response (response : string) (d : Scale) : option Q * Scale :=
  if Py.nonempty (numbers response) then
    match PyDecimal.parse (numbers response) with
    | Some weight => (Some weight, with_is_stable (stable_marker response) d)
    | None => (None, d)
    end
  else (None, d).

Definition is_connected := is_connected_.
Definition read_weight := read_weight_ "W" _parse_filizola_response.
Definition tare := tare_ "W" _parse_filizola_response.
Definition zero := zero_.
Definition disconnect := disconnect_.
Definition test_connection := test_connection_ "W" _parse_filizola_response.
Definition connect := connect_ "W" _parse_filizola_response.

End FilizolaScale.

(* ===================================================================== *)
(** ** [equipment/scales/base.py]: [BaseScale]

    [self.read_weight()] and its siblings are abstract in the base class;
    the call goes to the class of the object. *)

Module BaseScale.

Local Open Scope Z_scope.

Definition is_connected (d : Scale) : bool :=
  match brand d with
  | Toledo => ToledoScale.is_connected d
  | Filizola => FilizolaScale.is_connected d
  end.

Definition read_weight (x : exchange) (d : Scale) : option Q * Scale :=
  match brand d with
  | Toledo => ToledoScale.read_weight x d
  | Filizola => FilizolaScale.read_weight x d
  end.

Definition tare (w : option exn) (x : exchange) (d : Scale) : bool * Scale :=
  match brand d with
  | Toledo => ToledoScale.tare w x d
  | Filizola => FilizolaScale.tare w x d
  end.

Definition zero (w : option exn) (d : Scale) : bool * Scale :=
  match brand d with
  | Toledo => ToledoScale.zero w d
  | Filizola => FilizolaScale.zero w d
  end.

(** The vendor's numeric part of a response. *)
Definition numeric_substring (b : Brand) (response : string) : string :=
  match b with
  | Toledo => ToledoScale.weight_str response
  | Filizola => FilizolaScale.numbers response
  end.

(** The vendor's parser. *)
Definition parse_response (b : Brand) (response : string) (d : Scale) : option Q * Scale :=
  match b with
  | Toledo => ToledoScale._parse_toledo_response response d
  | Filizola => FilizolaScale._parse_filizola_response response d
  end.

(** One of the serial calls of the read raises. *)
Definition transport_failed (x : exchange) : bool :=
  match on_reset_input_buffer x, on_write x, on_readline x with
  | None, None, inr _ => false
  | _, _, _ => true
  end.

Definition is_weight_stable (d : Scale) : bool := _is_stable d.
Definition get_last_weight (d : Scale) : option Q := _last_weight d.

(** One turn of the polling loop as the world sees it: what the serial
    port does during [read_weight], how long that call takes, and by how
    much [time.sleep(0.1)] oversleeps, in milliseconds. *)
Record poll : Type := mkPoll {
  serial : exchange;
  read_ms : N;
  oversleep_ms : N
}.

(** The argument of [time.sleep(0.1)]: the least time the call takes. *)
Definition poll_interval_ms : Z := 100.

(** The time [time.sleep(0.1)] takes in the turn. *)
Definition sleep_ms (p : poll) : Z := poll_interval_ms + Z.of_N (oversleep_ms p).

(** The turns after the first. *)
Definition later (polls : nat -> poll) : nat -> poll := fun i => polls (S i).

(** The [while] loop of [wait_for_stable_weight]. The clock [now] is in
    milliseconds; [polls 0] is the turn about to be made. The result is
    the value returned, the driver, and the clock at the return; [None]
    when [fuel] turns did not reach the end of the loop. *)
Fixpoint wait_loop (fuel : nat) (polls : nat -> poll)
    (start_time timeout_ms now : Z) (d : Scale) : option (option Q * Scale * Z) :=
  if now - start_time <? timeout_ms then
    match fuel with
    | O => None
    | S fuel' =>
        let '(weight, d') := read_weight (serial (polls O)) d in
        let now' := now + Z.of_N (read_ms (polls O)) in
        match weight with
        | Some w =>
            if is_weight_stable d' then Some (Some w, d', now')
            else wait_loop fuel' (later polls) start_time timeout_ms
                   (now' + sleep_ms (polls O)) d'
        | None =>
            wait_loop fuel' (later polls) start_time timeout_ms
              (now' + sleep_ms (polls O)) d'
        end
    end
  else Some (None, d, now).

(** [wait_for_stable_weight(timeout)], [timeout] in seconds, entered when
    the clock shows [start_time]. *)
Definition wait_for_stable_weight (fuel : nat) (polls : nat -> poll)
    (timeout : Z) (start_time : Z) (d : Scale) : option (option Q * Scale * Z) :=
  wait_loop fuel polls start_time (1000 * timeout) start_time d.

(** Turns that are enough for a timeout of [timeout] seconds. *)
Definition enough_fuel (timeout : Z) : nat := Z.to_nat (10 * timeout).

(** The driver before turn [i], when no earlier turn returned. *)
Fixpoint driver_at (polls : nat -> poll) (d : Scale) (i : nat) : Scale :=
  match i with
  | O => d
  | S j => driver_at (later polls) (snd (read_weight (serial (polls O)) d)) j
  end.

(** The clock before turn [i], when no earlier turn returned. *)
Fixpoint clock_at (polls : nat -> poll) (now : Z) (i : nat) : Z :=
  match i with
  | O => now
  | S j => clock_at (later polls)
             (now + Z.of_N (read_ms (polls O)) + sleep_ms (polls O)) j
  end.

(** What turn [i] reads. *)
Definition weight_at (polls : nat -> poll) (d : Scale) (i : nat) : option Q :=
  fst (read_weight (serial (polls i)) (driver_at polls d i)).

(** Turn [i] reads a weight and leaves the stability flag set. *)
Definition stable_at (polls : nat -> poll) (d : Scale) (i : nat) : bool :=
  match weight_at polls d i with
  | Some _ => is_weight_stable (driver_at polls d (S i))
  | None => false
  end.

Definition connect (opening : serial_open) (x : exchange) (closing : option exn)
    (d : Scale) : bool * Scale :=
  match brand d with
  | Toledo => ToledoScale.connect opening x closing d
  | Filizola => FilizolaScale.connect opening x closing d
  end.

Definition disconnect (closing : option exn) (d : Scale) : bool * Scale :=
  match brand d with
  | Toledo => ToledoScale.disconnect closing d
  | Filizola => FilizolaScale.disconnect closing d
  end.

(** [wait_for_stable_weight(timeout)] with the turns it needs. *)
Definition wait (polls : nat -> poll) (timeout start_time : Z) (d : Scale)
    : option Q * Scale :=
  match wait_for_stable_weight (enough_fuel timeout) polls timeout start_time d with
  | Some (weight, d', _) => (weight, d')
  | None => (None, d)
  end.

(** A call of a public method of the driver, with what the serial port
    and the clock do during the call. *)
Inductive api_call : Type :=
| Connect (opening : serial_open) (x : exchange) (closing : option exn)
| Disconnect (closing : option exn)
| ReadWeight (x : exchange)
| Tare (w : option exn) (x : exchange)
| Zero (w : option exn)
| WaitForStableWeight (polls : nat -> poll) (timeout start_time : Z)
| ClearError.

(** The driver after the call. *)
Definition after_call (c : api_call) (d : Scale) : Scale :=
  match c with
  | Connect opening x closing => snd (connect opening x closing d)
  | Disconnect closing => snd (disconnect closing d)
  | ReadWeight x => snd (read_weight x d)
  | Tare w x => snd (tare w x d)
  | Zero w => snd (zero w d)
  | WaitForStableWeight polls timeout start_time => snd (wait polls timeout start_time d)
  | ClearError => BaseEquipment.clear_error d
  end.

(** The call reports that it reached the scale: [connect], [tare] or
    [zero] returns true, [read_weight] or [wait_for_stable_weight] returns
    a weight. *)
Definition reached_scale (c : api_call) (d : Scale) : bool :=
  match c with
  | Connect opening x closing => fst (connect opening x closing d)
  | Disconnect _ | ClearError => false
  | ReadWeight x => match fst (read_weight x d) with Some _ => true | None => false end
  | Tare w x => fst (tare w x d)
  | Zero w => fst (zero w d)
  | WaitForStableWeight polls timeout start_time =>
      match fst (wait polls timeout start_time d) with Some _ => true | None => false end
  end.

Fixpoint run_calls (calls : list api_call) (d : Scale) : Scale :=
  match calls with
  | [] => d
  | c :: rest => run_calls rest (after_call c d)
  end.

(** Some call of the run reports that it reached the scale. *)
Fixpoint some_call_reached (calls : list api_call) (d : Scale) : bool :=
  match calls with
  | [] => false
  | c :: rest => reached_scale c d || some_call_reached rest (after_call c d)
  end.

End BaseScale.

(* ===================================================================== *)
(** ** [equipment/scales/manager.py]: [ScaleManager] *)

Module ScaleManager.

Record t : Type := mk {
  config : dict;
  scale : option Scale
}.

(** [SUPPORTED_BRANDS]: the class registered under a name. *)
Definition SUPPORTED_BRANDS (name : string) : option Brand :=
  if String.eqb name "toledo" then Some Toledo
  else if String.eqb name "filizola" then Some Filizola
  else None.

(** [s.lower()] on a value read from JSON. *)
Definition py_lower (value : json) : exn + string :=
  match value with
  | JStr s => inr (Py.lower s)
  | _ => inl (no_attribute value "lower")
  end.

(** One element of the sequence given to [dict.update]: a pair. *)
Definition update_item (acc : exn + dict) (item : json) : exn + dict :=
  match acc with
  | inl e => inl e
  | inr d =>
      match item with
      | JArr [JStr key; value] => inr (Dict.set key value d)
      | JStr (String a (String b EmptyString)) =>
          inr (Dict.set (String a EmptyString) (JStr (String b EmptyString)) d)
      | JArr _ | JStr _ | JObj _ =>
          inl (ValueError "dictionary update sequence element has the wrong length")
      | _ => inl (TypeError "cannot convert dictionary update sequence element to a sequence")
      end
  end.

(** [target.update(other)] on values read from JSON. Pairs whose key is
    not a string would give a dictionary no JSON file holds; they are
    reported as the [ValueError] of a malformed pair. *)
Definition py_update (target other : json) : exn + dict :=
  match target with
  | JObj d =>
      match other with
      | JObj fields => inr (Dict.update d fields)
      | JArr items => fold_left update_item items (inr d)
      | JStr s =>
          if Py.nonempty s
          then inl (ValueError "dictionary update sequence element has the wrong length")
          else inr d
      | _ => inl (TypeError ("'" ++ type_name other ++ "' object is not iterable"))
      end
  | _ => inl (no_attribute target "update")
  end.

Definition construct (b : Brand) (scale_config : dict) : Scale :=
  match b with
  | Toledo => ToledoScale.init scale_config
  | Filizola => FilizolaScale.init scale_config
  end.

(** [_initialize_scale], run by [__init__] on [t] with [scale = None]. The
    per-brand dictionary is updated in place, inside [self.config], when
    the configuration has one. *)
Definition _initialize_scale : M t unit :=
  (self <- get ;;
   if negb (truthy (match Dict.get "enabled" (config self) with
                    | Some v => v | None => JBool false end))
   then ret tt
   else
     brand <- lift (py_lower (match Dict.get "default_brand" (config self) with
                              | Some v => v | None => JStr "toledo" end)) ;;
     match SUPPORTED_BRANDS brand with
     | None => raise (EquipmentError ("Marca de balança não suportada: " ++ brand))
     | Some scale_class =>
         let supported := match Dict.get "supported_brands" (config self) with
                          | Some v => v | None => JObj [] end in
         scale_config <- lift (py_get supported brand (JObj [])) ;;
         updated <- lift (py_update scale_config
                            (match Dict.get "connection" (config self) with
                             | Some v => v | None => JObj [] end)) ;;
         let config' :=
           match supported with
           | JObj brands =>
               match Dict.get brand brands with
               | Some _ => Dict.set "supported_brands"
                             (JObj (Dict.set brand (JObj updated) brands)) (config self)
               | None => config self
               end
           | _ => config self
           end in
         modify (fun _ => mk config' (Some (construct scale_class updated)))
     end)%py.

(** [ScaleManager(config)]: the exception leaves no object behind. *)
Definition init (cfg : dict) : exn + t :=
  match _initialize_scale (mk cfg None) with
  | (Returned _, self) => inr self
  | (Raised e, _) => inl e
  end.

(** ['status'] of [get_status()] when no driver is held. *)
Definition disabled (m : t) : bool :=
  match scale m with None => true | Some _ => false end.

(** A method that hands the call to the driver and answers [absent]
    without one. *)
Definition delegate {A} (absent : A) (method : Scale -> A * Scale) (m : t) : A * t :=
  match scale m with
  | None => (absent, m)
  | Some d => let '(a, d') := method d in (a, mk (config m) (Some d'))
  end.

Definition connect (opening : serial_open) (x : exchange) (closing : option exn) : t -> bool * t :=
  delegate false (BaseScale.connect opening x closing).

Definition disconnect (closing : option exn) : t -> bool * t :=
  delegate true (BaseScale.disconnect closing).

Definition is_connected (m : t) : bool :=
  match scale m with
  | None => false
  | Some d => BaseScale.is_connected d
  end.

Definition read_weight (x : exchange) : t -> option Q * t :=
  delegate None (BaseScale.read_weight x).

Definition wait_for_stable_weight (polls : nat -> BaseScale.poll) (timeout start_time : Z)
    : t -> option Q * t :=
  delegate None (BaseScale.wait polls timeout start_time).

Definition tare (w : option exn) (x : exchange) : t -> bool * t :=
  delegate false (BaseScale.tare w x).

Definition zero (w : option exn) : t -> bool * t :=
  delegate false (BaseScale.zero w).

Definition is_weight_stable (m : t) : bool :=
  match scale m with
  | None => false
  | Some d => BaseScale.is_weight_stable d
  end.

Definition get_last_weight (m : t) : option Q :=
  match scale m with
  | None => None
  | Some d => BaseScale.get_last_weight d
  end.

(** The dictionary of [get_status()]. *)
Inductive status_report : Type :=
| Disabled
| Enabled (connected : bool) (status : EquipmentStatus) (last_weight : option Q)
    (weight_stable : bool) (last_error : option string) (brand : Brand).

Definition get_status (m : t) : status_report :=
  match scale m with
  | None => Disabled
  | Some d =>
      Enabled (BaseScale.is_connected d) (BaseEquipment.get_status d)
        (BaseScale.get_last_weight d) (BaseScale.is_weight_stable d)
        (BaseEquipment.get_last_error d) (brand d)
  end.

End ScaleManager.

(* ===================================================================== *)
(** ** The vendors' response formats

    The formats the drivers' comments give: Toledo
    ["ST,GS,+00000.000kg"], a header of comma-separated fields, then a
    signed number and the unit; Filizola ["000.000"], ["+000.000"],
    ["S000.000"], a number behind the prefix characters the driver strips
    ([S], [W], [+], [-]). *)

Module VendorGrammar.

Inductive sign : Type := NoSign | Plus | Minus.

Definition sign_text (s : sign) : string :=
  match s with NoSign => "" | Plus => "+" | Minus => "-" end.

Definition is_minus (s : sign) : bool :=
  match s with Minus => true | _ => false end.

(** A string of decimal digits. *)
Definition digits (s : string) : bool := Py.forallb Py.is_decimal_digit s.

(** The number [int_part.fraction], written out. *)
Definition number (int_part fraction : string) : string :=
  int_part ++ "." ++ fraction.

(** Its value, [int_part.fraction] read in base ten, negated on demand. *)
Definition value (negative : bool) (int_part fraction : string) : Q :=
  PyDecimal.make negative int_part fraction.

Definition toledo (header : string) (s : sign) (int_part fraction : string) : string :=
  header ++ "," ++ sign_text s ++ number int_part fraction ++ "kg".

Definition filizola_prefix (p : string) : bool :=
  Py.forallb (fun c => Py.mem c "SW+-") p.

Definition filizola (p int_part fraction : string) : string :=
  p ++ number int_part fraction.

(** The characters of a signed number. *)
Definition numeric_char (c : ascii) : bool :=
  Py.is_decimal_digit c || Py.mem c ".+-".

(** The characters of a Toledo response after its header. *)
Definition tail_char (c : ascii) : bool :=
  numeric_char c || Py.mem c ",kg".

End VendorGrammar.

(** The driver's configuration gives a string for the command [name], or
    nothing, in which case the default is sent. *)
Definition command_configured (name : string) (d : Scale) : bool :=
  match Dict.get "commands" (config d) with
  | None => true
  | Some (JObj fields) =>
      match Dict.get name fields with
      | None | Some (JStr _) => true
      | Some _ => false
      end
  | Some _ => false
  end.

(* ===================================================================== *)
(** ** pydantic fields under [validate_assignment = True]

    [models/base.py] sets [validate_assignment]: an assignment to a field
    runs the field's constraints and validators, and raises
    [ValidationError] without storing the value when one fails. *)

(** [a <= b] on [Decimal]s. *)
Definition Qleb (a b : Q) : bool := Qle_bool a b.

(** Assignment to a field declared [ge=0]. *)
Definition assign_ge0 {S} (field : string) (store : Q -> S -> S) (v : Q) : M S unit :=
  if Qleb 0 v then modify (store v) else raise (ValidationError field).

Definition assign_int_ge0 {S} (field : string) (store : Z -> S -> S) (v : Z) : M S unit :=
  if (0 <=? v)%Z then modify (store v) else raise (ValidationError field).

(* ===================================================================== *)
(** ** [models/cashier_session.py] *)

Inductive SessionStatus : Type := OPEN | CLOSED | SUSPENDED.

Definition session_status_eqb (a b : SessionStatus) : bool :=
  match a, b with
  | OPEN, OPEN | CLOSED, CLOSED | SUSPENDED, SUSPENDED => true
  | _, _ => false
  end.

Module CashierSession.

Record t : Type := mk {
  id : option Z;
  created_at : option Z;
  updated_at : option Z;
  session_number : option string;
  user_id : Z;
  user_name : option string;
  terminal_id : option string;
  opened_at : Z;
  closed_at : option Z;
  opening_cash : Q;
  total_sales : Q;
  total_cash_sales : Q;
  total_card_sales : Q;
  total_pix_sales : Q;
  total_other_sales : Q;
  sales_count : Z;
  cancelled_sales_count : Z;
  closing_cash : option Q;
  expected_cash : option Q;
  cash_difference : option Q;
  status : SessionStatus;
  opening_notes : option string;
  closing_notes : option string;
  synced : bool;
  sync_error : option string
}.

Definition with_total_sales (v : Q) (self : t) : t :=
  mk (id self) (created_at self) (updated_at self) (session_number self) (user_id self) (user_name self) (terminal_id self) (opened_at self) (closed_at self) (opening_cash self) v (total_cash_sales self) (total_card_sales self) (total_pix_sales self) (total_other_sales self) (sales_count self) (cancelled_sales_count self) (closing_cash self) (expected_cash self) (cash_difference self) (status self) (opening_notes self) (closing_notes self) (synced self) (sync_error self).
Definition with_total_cash_sales (v : Q) (self : t) : t :=
  mk (id self) (created_at self) (updated_at self) (session_number self) (user_id self) (user_name self) (terminal_id self) (opened_at self) (closed_at self) (opening_cash self) (total_sales self) v (total_card_sales self) (total_pix_sales self) (total_other_sales self) (sales_count self) (cancelled_sales_count self) (closing_cash self) (expected_cash self) (cash_difference self) (status self) (opening_notes self) (closing_notes self) (synced self) (sync_error self).
Definition with_total_card_sales (v : Q) (self : t) : t :=
  mk (id self) (created_at self) (updated_at self) (session_number self) (user_id self) (user_name self) (terminal_id self) (opened_at self) (closed_at self) (opening_cash self) (total_sales self) (total_cash_sales self) v (total_pix_sales self) (total_other_sales self) (sales_count self) (cancelled_sales_count self) (closing_cash self) (expected_cash self) (cash_difference self) (status self) (opening_notes self) (closing_notes self) (synced self) (sync_error self).
Definition with_total_pix_sales (v : Q) (self : t) : t :=
  mk (id self) (created_at self) (updated_at self) (session_number self) (user_id self) (user_name self) (terminal_id self) (opened_at self) (closed_at self) (opening_cash self) (total_sales self) (total_cash_sales self) (total_card_sales self) v (total_other_sales self) (sales_count self) (cancelled_sales_count self) (closing_cash self) (expected_cash self) (cash_difference self) (status self) (opening_notes self) (closing_notes self) (synced self) (sync_error self).
Definition with_total_other_sales (v : Q) (self : t) : t :=
  mk (id self) (created_at self) (updated_at self) (session_number self) (user_id self) (user_name self) (terminal_id self) (opened_at self) (closed_at self) (opening_cash self) (total_sales self) (total_cash_sales self) (total_card_sales self) (total_pix_sales self) v (sales_count self) (cancelled_sales_count self) (closing_cash self) (expected_cash self) (cash_difference self) (status self) (opening_notes self) (closing_notes self) (synced self) (sync_error self).
Definition with_sales_count (v : Z) (self : t) : t :=
  mk (id self) (created_at self) (updated_at self) (session_number self) (user_id self) (user_name self) (terminal_id self) (opened_at self) (closed_at self) (opening_cash self) (total_sales self) (total_cash_sales self) (total_card_sales self) (total_pix_sales self) (total_other_sales self) v (cancelled_sales_count self) (closing_cash self) (expected_cash self) (cash_difference self) (status self) (opening_notes self) (closing_notes self) (synced self) (sync_error self).
Definition with_cancelled_sales_count (v : Z) (self : t) : t :=
  mk (id self) (created_at self) (updated_at self) (session_number self) (user_id self) (user_name self) (terminal_id self) (opened_at self) (closed_at self) (opening_cash self) (total_sales self) (total_cash_sales self) (total_card_sales self) (total_pix_sales self) (total_other_sales self) (sales_count self) v (closing_cash self) (expected_cash self) (cash_difference self) (status self) (opening_notes self) (closing_notes self) (synced self) (sync_error self).
Definition with_closing_cash (v : option Q) (self : t) : t :=
  mk (id self) (created_at self) (updated_at self) (session_number self) (user_id self) (user_name self) (terminal_id self) (opened_at self) (closed_at self) (opening_cash self) (total_sales self) (total_cash_sales self) (total_card_sales self) (total_pix_sales self) (total_other_sales self) (sales_count self) (cancelled_sales_count self) v (expected_cash self) (cash_difference self) (status self) (opening_notes self) (closing_notes self) (synced self) (sync_error self).
Definition with_expected_cash (v : option Q) (self : t) : t :=
  mk (id self) (created_at self) (updated_at self) (session_number self) (user_id self) (user_name self) (terminal_id self) (opened_at self) (closed_at self) (opening_cash self) (total_sales self) (total_cash_sales self) (total_card_sales self) (total_pix_sales self) (total_other_sales self) (sales_count self) (cancelled_sales_count self) (closing_cash self) v (cash_difference self) (status self) (opening_notes self) (closing_notes self) (synced self) (sync_error self).
Definition with_cash_difference (v : option Q) (self : t) : t :=
  mk (id self) (created_at self) (updated_at self) (session_number self) (user_id self) (user_name self) (terminal_id self) (opened_at self) (closed_at self) (opening_cash self) (total_sales self) (total_cash_sales self) (total_card_sales self) (total_pix_sales self) (total_other_sales self) (sales_count self) (cancelled_sales_count self) (closing_cash self) (expected_cash self) v (status self) (opening_notes self) (closing_notes self) (synced self) (sync_error self).
Definition with_closed_at (v : option Z) (self : t) : t :=
  mk (id self) (created_at self) (updated_at self) (session_number self) (user_id self) (user_name self) (terminal_id self) (opened_at self) v (opening_cash self) (total_sales self) (total_cash_sales self) (total_card_sales self) (total_pix_sales self) (total_other_sales self) (sales_count self) (cancelled_sales_count self) (closing_cash self) (expected_cash self) (cash_difference self) (status self) (opening_notes self) (closing_notes self) (synced self) (sync_error self).
Definition with_closing_notes (v : option string) (self : t) : t :=
  mk (id self) (created_at self) (updated_at self) (session_number self) (user_id self) (user_name self) (terminal_id self) (opened_at self) (closed_at self) (opening_cash self) (total_sales self) (total_cash_sales self) (total_card_sales self) (total_pix_sales self) (total_other_sales self) (sales_count self) (cancelled_sales_count self) (closing_cash self) (expected_cash self) (cash_difference self) (status self) (opening_notes self) v (synced self) (sync_error self).
Definition with_status (v : SessionStatus) (self : t) : t :=
  mk (id self) (created_at self) (updated_at self) (session_number self) (user_id self) (user_name self) (terminal_id self) (opened_at self) (closed_at self) (opening_cash self) (total_sales self) (total_cash_sales self) (total_card_sales self) (total_pix_sales self) (total_other_sales self) (sales_count self) (cancelled_sales_count self) (closing_cash self) (expected_cash self) (cash_difference self) v (opening_notes self) (closing_notes self) (synced self) (sync_error self).

(** A session as [CashierSession(user_id=..., opening_cash=...)] creates
    it at time [now]: every other field at its default. *)
Definition opened (user : Z) (cash : Q) (now : Z) : t :=
  mk None None None None user None None now None cash
     0 0 0 0 0 0%Z 0%Z None None None OPEN None None false None.

(** The constructor, with the [ge=0] constraint on [opening_cash]. *)
Definition init (user : Z) (cash : Q) (now : Z) : exn + t :=
  if Qleb 0 cash then inr (opened user cash now) else inl (ValidationError "opening_cash").

Definition calculate_expected_cash (self : t) : Q :=
  PyDecimal.add (opening_cash self) (total_cash_sales self).

Definition calculate_difference (self : t) : option Q :=
  match closing_cash self with
  | Some declared => Some (PyDecimal.sub declared (calculate_expected_cash self))
  | None => None
  end.

(** The four-way choice on [payment_method.lower()]. *)
Inductive category : Type := Cash | Card | Pix | Other.

Definition category_of (payment_method : string) : category :=
  let m := Py.lower payment_method in
  if String.eqb m "cash" then Cash
  else if String.eqb m "credit_card" || String.eqb m "debit_card" then Card
  else if String.eqb m "pix" then Pix
  else Other.

Definition add_sale (amount : Q) (payment_method : string) : M t unit :=
  (self <- get ;;
   assign_ge0 "total_sales" with_total_sales
     (PyDecimal.add (total_sales self) amount) ;;
   assign_int_ge0 "sales_count" with_sales_count (sales_count self + 1)%Z ;;
   match category_of payment_method with
   | Cash => assign_ge0 "total_cash_sales" with_total_cash_sales
                (PyDecimal.add (total_cash_sales self) amount)
   | Card => assign_ge0 "total_card_sales" with_total_card_sales
                (PyDecimal.add (total_card_sales self) amount)
   | Pix => assign_ge0 "total_pix_sales" with_total_pix_sales
                (PyDecimal.add (total_pix_sales self) amount)
   | Other => assign_ge0 "total_other_sales" with_total_other_sales
                (PyDecimal.add (total_other_sales self) amount)
   end)%py.

Definition cancel_sale (amount : Q) (payment_method : string) : M t unit :=
  (self <- get ;;
   assign_ge0 "total_sales" with_total_sales
     (PyDecimal.sub (total_sales self) amount) ;;
   assign_int_ge0 "sales_count" with_sales_count (sales_count self - 1)%Z ;;
   assign_int_ge0 "cancelled_sales_count" with_cancelled_sales_count
     (cancelled_sales_count self + 1)%Z ;;
   match category_of payment_method with
   | Cash => assign_ge0 "total_cash_sales" with_total_cash_sales
                (PyDecimal.sub (total_cash_sales self) amount)
   | Card => assign_ge0 "total_card_sales" with_total_card_sales
                (PyDecimal.sub (total_card_sales self) amount)
   | Pix => assign_ge0 "total_pix_sales" with_total_pix_sales
                (PyDecimal.sub (total_pix_sales self) amount)
   | Other => assign_ge0 "total_other_sales" with_total_other_sales
                (PyDecimal.sub (total_other_sales self) amount)
   end)%py.

Definition can_close (self : t) : bool := session_status_eqb (status self) OPEN.

(** Assignment to [closed_at], with [validate_closed_at]. *)
Definition assign_closed_at (v : Z) : M t unit :=
  (self <- get ;;
   if (v <=? opened_at self)%Z then raise (ValidationError "closed_at")
   else modify (with_closed_at (Some v)))%py.

(** [close_session(closing_cash, notes)] when [datetime.now()] is [now]. *)
Definition close_session (declared : Q) (notes : option string) (now : Z) : M t unit :=
  (self <- get ;;
   if negb (can_close self)
   then raise (ValueError "Sessão não pode ser fechada no status atual")
   else
     assign_ge0 "closing_cash" (fun v => with_closing_cash (Some v)) declared ;;
     self <- get ;;
     assign_ge0 "expected_cash" (fun v => with_expected_cash (Some v))
       (calculate_expected_cash self) ;;
     self <- get ;;
     modify (with_cash_difference (calculate_difference self)) ;;
     assign_closed_at now ;;
     modify (with_closing_notes notes) ;;
     modify (with_status CLOSED))%py.

Definition suspend_session (notes : option string) (self : t) : t :=
  if session_status_eqb (status self) OPEN then
    let self := with_status SUSPENDED self in
    match notes with
    | Some text => if Py.nonempty text then with_closing_notes notes self else self
    | None => self
    end
  else self.

Definition resume_session (self : t) : t :=
  if session_status_eqb (status self) SUSPENDED then with_status OPEN self else self.

(** The sum of the four category totals. *)
Definition category_total (self : t) : Q :=
  total_cash_sales self + total_card_sales self + total_pix_sales self + total_other_sales self.

(** A call on the session, and a run of calls; the caller goes on after a
    call that raised, with the session as the call left it. *)
Inductive call : Type :=
| AddSale (amount : Q) (payment_method : string)
| CancelSale (amount : Q) (payment_method : string).

Definition perform (c : call) : M t unit :=
  match c with
  | AddSale amount method => add_sale amount method
  | CancelSale amount method => cancel_sale amount method
  end.

Fixpoint run (calls : list call) (self : t) : t :=
  match calls with
  | [] => self
  | c :: rest => run rest (snd (perform c self))
  end.

(** No call of the run raises. *)
Fixpoint all_returned (calls : list call) (self : t) : bool :=
  match calls with
  | [] => true
  | c :: rest => returned (perform c self) && all_returned rest (snd (perform c self))
  end.

(** The fields declared [ge=0] that the calls assign. *)
Definition totals_nonnegative (self : t) : Prop :=
  0 <= total_sales self /\ 0 <= total_cash_sales self /\ 0 <= total_card_sales self
  /\ 0 <= total_pix_sales self /\ 0 <= total_other_sales self
  /\ (0 <= sales_count self)%Z /\ (0 <= cancelled_sales_count self)%Z.

(** The total of a category. *)
Definition in_category (c : category) (self : t) : Q :=
  match c with
  | Cash => total_cash_sales self
  | Card => total_card_sales self
  | Pix => total_pix_sales self
  | Other => total_other_sales self
  end.

(** The two results that the call computes have at most 28 significant
    digits: the context rounds neither. *)
Definition exact_call (c : call) (self : t) : bool :=
  match c with
  | AddSale amount method =>
      PyDecimal.unrounded (total_sales self + amount)
      && PyDecimal.unrounded (in_category (category_of method) self + amount)
  | CancelSale amount method =>
      PyDecimal.unrounded (total_sales self - amount)
      && PyDecimal.unrounded (in_category (category_of method) self - amount)
  end.

(** No result of the run is rounded. *)
Fixpoint all_exact (calls : list call) (self : t) : bool :=
  match calls with
  | [] => true
  | c :: rest => exact_call c self && all_exact rest (snd (perform c self))
  end.

Definition is_add (c : call) : bool := match c with AddSale _ _ => true | _ => false end.
Definition is_cancel (c : call) : bool := match c with CancelSale _ _ => true | _ => false end.

Definition adds (calls : list call) : Z := Z.of_nat (List.length (List.filter is_add calls)).
Definition cancels (calls : list call) : Z := Z.of_nat (List.length (List.filter is_cancel calls)).

End CashierSession.

(* ===================================================================== *)
(** ** [models/sale.py] *)

Inductive PaymentMethod : Type := CASH | CREDIT_CARD | DEBIT_CARD | PIX | CHECK | STORE_CREDIT.

Inductive SaleStatus : Type := PENDING | COMPLETED | CANCELLED | REFUNDED.

(** [SaleItem]; its [discount_amount], [discount_percentage] and
    [tax_amount] carry the prefix [item_]. *)
Record SaleItem : Type := mkSaleItem {
  product_id : Z;
  product_name : string;
  product_sku : option string;
  quantity : Z;
  weight : option Q;
  unit_price : Q;
  total_price : Q;
  item_discount_amount : Q;
  item_discount_percentage : option Q;
  tax_rate : option Q;
  item_tax_amount : option Q
}.


Module Sale.

Record t : Type := mk {
  sale_number : option string;
  customer_id : option Z;
  customer_name : option string;
  customer_document : option string;
  items : list SaleItem;
  subtotal : Q;
  discount_amount : Q;
  discount_percentage : option Q;
  tax_amount : Q;
  total_amount : Q;
  payment_method : PaymentMethod;
  amount_paid : Q;
  change_amount : Q;
  status : SaleStatus;
  cashier_session_id : option Z;
  user_id : option Z;
  user_name : option string;
  fiscal_document_number : option string;
  fiscal_document_type : option string;
  notes : option string;
  synced : bool;
  sync_error : option string
}.

Definition with_items (v : list SaleItem) (self : t) : t :=
  mk (sale_number self) (customer_id self) (customer_name self) (customer_document self) v (subtotal self) (discount_amount self) (discount_percentage self) (tax_amount self) (total_amount self) (payment_method self) (amount_paid self) (change_amount self) (status self) (cashier_session_id self) (user_id self) (user_name self) (fiscal_document_number self) (fiscal_document_type self) (notes self) (synced self) (sync_error self).
Definition with_subtotal (v : Q) (self : t) : t :=
  mk (sale_number self) (customer_id self) (customer_name self) (customer_document self) (items self) v (discount_amount self) (discount_percentage self) (tax_amount self) (total_amount self) (payment_method self) (amount_paid self) (change_amount self) (status self) (cashier_session_id self) (user_id self) (user_name self) (fiscal_document_number self) (fiscal_document_type self) (notes self) (synced self) (sync_error self).
Definition with_discount_amount (v : Q) (self : t) : t :=
  mk (sale_number self) (customer_id self) (customer_name self) (customer_document self) (items self) (subtotal self) v (discount_percentage self) (tax_amount self) (total_amount self) (payment_method self) (amount_paid self) (change_amount self) (status self) (cashier_session_id self) (user_id self) (user_name self) (fiscal_document_number self) (fiscal_document_type self) (notes self) (synced self) (sync_error self).
Definition with_discount_percentage (v : option Q) (self : t) : t :=
  mk (sale_number self) (customer_id self) (customer_name self) (customer_document self) (items self) (subtotal self) (discount_amount self) v (tax_amount self) (total_amount self) (payment_method self) (amount_paid self) (change_amount self) (status self) (cashier_session_id self) (user_id self) (user_name self) (fiscal_document_number self) (fiscal_document_type self) (notes self) (synced self) (sync_error self).
Definition with_tax_amount (v : Q) (self : t) : t :=
  mk (sale_number self) (customer_id self) (customer_name self) (customer_document self) (items self) (subtotal self) (discount_amount self) (discount_percentage self) v (total_amount self) (payment_method self) (amount_paid self) (change_amount self) (status self) (cashier_session_id self) (user_id self) (user_name self) (fiscal_document_number self) (fiscal_document_type self) (notes self) (synced self) (sync_error self).
Definition with_total_amount (v : Q) (self : t) : t :=
  mk (sale_number self) (customer_id self) (customer_name self) (customer_document self) (items self) (subtotal self) (discount_amount self) (discount_percentage self) (tax_amount self) v (payment_method self) (amount_paid self) (change_amount self) (status self) (cashier_session_id self) (user_id self) (user_name self) (fiscal_document_number self) (fiscal_document_type self) (notes self) (synced self) (sync_error self).
Definition with_change_amount (v : Q) (self : t) : t :=
  mk (sale_number self) (customer_id self) (customer_name self) (customer_document self) (items self) (subtotal self) (discount_amount self) (discount_percentage self) (tax_amount self) (total_amount self) (payment_method self) (amount_paid self) v (status self) (cashier_session_id self) (user_id self) (user_name self) (fiscal_document_number self) (fiscal_document_type self) (notes self) (synced self) (sync_error self).
Definition with_status (v : SaleStatus) (self : t) : t :=
  mk (sale_number self) (customer_id self) (customer_name self) (customer_document self) (items self) (subtotal self) (discount_amount self) (discount_percentage self) (tax_amount self) (total_amount self) (payment_method self) (amount_paid self) (change_amount self) v (cashier_session_id self) (user_id self) (user_name self) (fiscal_document_number self) (fiscal_document_type self) (notes self) (synced self) (sync_error self).

(** [sum(f(item) for item in items)]: from [0], one addition an item. *)
Definition sum (f : SaleItem -> Q) (l : list SaleItem) : Q :=
  fold_left (fun acc item => PyDecimal.add acc (f item)) l 0.

(** [item.tax_amount or 0] *)
Definition tax_or_0 (item : SaleItem) : Q :=
  match item_tax_amount item with Some tax => tax | None => 0 end.

(** Truthiness of [self.discount_percentage]. *)
Definition general_discount (self : t) : option Q :=
  match discount_percentage self with
  | Some p => if Qeq_bool p 0 then None else Some p
  | None => None
  end.

(** Assignment to [items], with [validate_items]. *)
Definition assign_items (v : list SaleItem) : M t unit :=
  match v with
  | [] => raise (ValidationError "items")
  | _ => modify (with_items v)
  end.

Definition calculate_totals : M t unit :=
  (self <- get ;;
   assign_ge0 "subtotal" with_subtotal (sum total_price (items self)) ;;
   assign_ge0 "discount_amount" with_discount_amount (sum item_discount_amount (items self)) ;;
   assign_ge0 "tax_amount" with_tax_amount (sum tax_or_0 (items self)) ;;
   self <- get ;;
   match general_discount self with
   | Some percentage =>
       let additional_discount :=
         PyDecimal.div (PyDecimal.mul (subtotal self) percentage) 100 in
       assign_ge0 "discount_amount" with_discount_amount
         (PyDecimal.add (discount_amount self) additional_discount)
   | None => ret tt
   end ;;
   self <- get ;;
   assign_ge0 "total_amount" with_total_amount
     (PyDecimal.add (PyDecimal.sub (subtotal self) (discount_amount self))
        (tax_amount self)) ;;
   self <- get ;;
   if Qltb (total_amount self) (amount_paid self)
   then assign_ge0 "change_amount" with_change_amount
          (PyDecimal.sub (amount_paid self) (total_amount self))
   else assign_ge0 "change_amount" with_change_amount 0)%py.

(** [self.items.append(item)] changes the list in place: no validation. *)
Definition add_item (item : SaleItem) : M t unit :=
  (modify (fun self => with_items (items self ++ [item]) self) ;;
   calculate_totals)%py.

(** [l.pop(index)] for [0 <= index < len(l)] *)
Definition pop (index : nat) (l : list SaleItem) : list SaleItem :=
  firstn index l ++ skipn (S index) l.

Definition remove_item (index : Z) : M t unit :=
  (self <- get ;;
   if (0 <=? index)%Z && (index <? Z.of_nat (List.length (items self)))%Z
   then modify (with_items (pop (Z.to_nat index) (items self))) ;; calculate_totals
   else ret tt)%py.

Definition clear_items : M t unit :=
  (assign_items [] ;; calculate_totals)%py.


(** The equation between the four amounts, in the arithmetic of the
    program. *)
Definition totals_balance (self : t) : Prop :=
  total_amount self
  == PyDecimal.add (PyDecimal.sub (subtotal self) (discount_amount self)) (tax_amount self).

(** The three amounts as the items and the general discount give them. *)
Definition totals_from_items (self : t) : Prop :=
  subtotal self == sum total_price (items self)
  /\ tax_amount self == sum tax_or_0 (items self)
  /\ discount_amount self ==
       PyDecimal.add (sum item_discount_amount (items self))
         match discount_percentage self with
         | Some p => PyDecimal.div (PyDecimal.mul (sum total_price (items self)) p) 100
         | None => 0
         end.

(** A sale as [Sale(payment_method=...)] creates it. *)
Definition default (method : PaymentMethod) : t :=
  mk None None None None [] 0 0 None 0 0 method 0 0 PENDING
     None None None None None None false None.

Definition sale_status_eqb (a b : SaleStatus) : bool :=
  match a, b with
  | PENDING, PENDING | COMPLETED, COMPLETED | CANCELLED, CANCELLED | REFUNDED, REFUNDED => true
  | _, _ => false
  end.

Definition can_complete (self : t) : bool :=
  (0 <? List.length (items self))%nat
  && Qltb 0 (total_amount self)
  && Qleb (total_amount self) (amount_paid self)
  && sale_status_eqb (status self) PENDING.

Definition complete (self : t) : t :=
  if can_complete self then with_status COMPLETED self else self.

Definition cancel (self : t) : t := with_status CANCELLED self.

(** [item_count]: the quantities added up. *)
Definition item_count (self : t) : Z :=
  fold_left (fun acc item => (acc + quantity item)%Z) (items self) 0%Z.

(** [SaleItem.final_price] *)
Definition final_price (item : SaleItem) : Q :=
  let price := PyDecimal.sub (total_price item) (item_discount_amount item) in
  match item_tax_amount item with
  | Some tax => if Qeq_bool tax 0 then price else PyDecimal.add price tax
  | None => price
  end.

(** The five amounts declared [ge=0]. *)
Definition amounts_nonnegative (self : t) : Prop :=
  0 <= subtotal self /\ 0 <= discount_amount self /\ 0 <= tax_amount self
  /\ 0 <= total_amount self /\ 0 <= change_amount self.

End Sale.

(* ===================================================================== *)
(** * Properties *)

Unset Implicit Arguments.
Local Open Scope string_scope.

Arguments PyDecimal.rounded : simpl never.
Arguments PyDecimal.add : simpl never.
Arguments PyDecimal.sub : simpl never.
Arguments PyDecimal.mul : simpl never.
Arguments PyDecimal.div : simpl never.
Arguments PyDecimal.abs : simpl never.

(** ** The primitives on examples *)

Example decimal_12_345 : PyDecimal.parse "+00012.345" = Some (12345 # 1000).
Proof. reflexivity. Qed.

Example decimal_syntax :
  PyDecimal.parse "1.2.3" = None /\ PyDecimal.parse "+" = None
  /\ PyDecimal.parse "." = None /\ PyDecimal.parse "5." = Some (5 # 1)
  /\ PyDecimal.parse ".5" = Some (5 # 10) /\ PyDecimal.parse "-0.250" = Some (-250 # 1000).
Proof. repeat split; reflexivity. Qed.

Example python_text :
  Py.strip (String (Py.chr 9) " ab c  ") = "ab c"
  /\ Py.split "," "ST,GS,+1kg" = ["ST"; "GS"; "+1kg"]
  /\ Py.remove "kg" "akgbkkgg" = "abkg"
  /\ Py.lstrip "SW+-" "S+-1S" = "1S"
  /\ Py.contains "ST" "aST" = true /\ Py.contains "ST" "aSxT" = false
  /\ Py.lower "StAbLe" = "stable".
Proof. repeat split; reflexivity. Qed.

Example toledo_fields :
  ToledoScale.weight_str "ST,GS,+00012.345kg" = "+00012.345"
  /\ ToledoScale.stable_marker "ST,GS,+00012.345kg" = true
  /\ ToledoScale.stable_marker "US,GS,+00012.345kg" = false
  /\ FilizolaScale.numbers "S001.250" = "001.250"
  /\ FilizolaScale.stable_marker "S001.250" = true.
Proof. repeat split; reflexivity. Qed.

(** ** Rationals as booleans *)

Lemma Qleb_true (a b : Q) : Qleb a b = true <-> a <= b.
Proof. unfold Qleb. apply Qle_bool_iff. Qed.

Lemma Qltb_true (a b : Q) : Qltb a b = true <-> a < b.
Proof.
  unfold Qltb. rewrite negb_true_iff. split; intro H.
  - apply Qnot_le_lt. intro Hle. apply Qle_bool_iff in Hle. congruence.
  - destruct (Qle_bool b a) eqn:E; [|reflexivity].
    apply Qle_bool_iff in E. exfalso. exact (Qlt_not_le _ _ H E).
Qed.

(* --------------------------------------------------------------------- *)
(** ** Decimal arithmetic *)

Example decimal_context :
  PyDecimal.add (3333333333333333333333333333 # 1000000000000000000000000000) 10
    == 1333333333333333333333333333 # 100000000000000000000000000
  /\ PyDecimal.div 10 3 == 3333333333333333333333333333 # 1000000000000000000000000000
  /\ PyDecimal.rounded (25 # 10) == 25 # 10
  /\ PyDecimal.half_even (5 # 2) = 2%Z /\ PyDecimal.half_even (7 # 2) = 4%Z
  /\ PyDecimal.half_even (- (5 # 2)) = (- 2)%Z.
Proof. vm_compute. repeat split; reflexivity. Qed.

Section DecimalFacts.

Import PyDecimal.

Section DigitFacts.
Local Open Scope Z_scope.

Lemma digits_fuel_spec (fuel : nat) : forall n : Z,
  0 < n -> n < 2 ^ Z.of_nat fuel ->
  1 <= digits_fuel fuel n
  /\ 10 ^ (digits_fuel fuel n - 1) <= n < 10 ^ digits_fuel fuel n.
Proof.
  induction fuel as [|fuel IH]; intros n Hpos Hfuel.
  - simpl in Hfuel. lia.
  - cbn [digits_fuel]. destruct (n <? 10) eqn:E.
    + apply Z.ltb_lt in E. simpl. lia.
    + apply Z.ltb_ge in E.
      assert (Hq : 0 < n / 10) by (apply Z.div_str_pos; lia).
      assert (Hf : n / 10 < 2 ^ Z.of_nat fuel).
      { apply Z.div_lt_upper_bound; [lia|].
        rewrite Nat2Z.inj_succ, Z.pow_succ_r in Hfuel by lia.
        assert (0 < 2 ^ Z.of_nat fuel) by (apply Z.pow_pos_nonneg; lia). lia. }
      destruct (IH _ Hq Hf) as (H1 & Hlo & Hhi).
      set (r := digits_fuel fuel (n / 10)) in *.
      replace (1 + r - 1) with (Z.succ (r - 1)) by lia.
      replace (1 + r) with (Z.succ r) by lia.
      rewrite !Z.pow_succ_r by lia.
      pose proof (Z.mul_div_le n 10 ltac:(lia)).
      pose proof (Z.mod_pos_bound n 10 ltac:(lia)).
      pose proof (Z.div_mod n 10 ltac:(lia)).
      lia.
Qed.

Lemma ndigits_spec (n : Z) :
  0 < n -> 1 <= ndigits n /\ 10 ^ (ndigits n - 1) <= n < 10 ^ ndigits n.
Proof.
  intro Hpos. apply digits_fuel_spec; [exact Hpos|].
  rewrite Nat2Z.inj_succ, Z2Nat.id by apply Z.log2_nonneg.
  apply Z.log2_spec. exact Hpos.
Qed.

End DigitFacts.

Section PowerFacts.

Lemma pow10_pos (e : Z) : 0 < pow10 e.
Proof. apply Qpower_0_lt. reflexivity. Qed.

Lemma pow10_plus (a b : Z) : pow10 (a + b) == pow10 a * pow10 b.
Proof. apply Qpower_plus. discriminate. Qed.

Lemma pow10_Z (e : Z) : (0 <= e)%Z -> pow10 e == inject_Z (10 ^ e).
Proof. intro H. symmetry. exact (Zpower_Qpower 10 e H). Qed.

Lemma pow10_le (a b : Z) : (a <= b)%Z -> pow10 a <= pow10 b.
Proof. intro H. apply Qpower_le_compat_l; [exact H | discriminate]. Qed.

Lemma pow10_lt (a b : Z) : (a < b)%Z -> pow10 a < pow10 b.
Proof. intro H. apply Qpower_lt_compat_l; [exact H | reflexivity]. Qed.

Lemma pow10_lt_inv (a b : Z) : pow10 a < pow10 b -> (a < b)%Z.
Proof. intro H. apply (Qpower_lt_compat_l_inv 10); [exact H | reflexivity]. Qed.

Lemma pow10_cancel (e : Z) : pow10 (- e) * pow10 e == 1.
Proof. rewrite <- pow10_plus. replace (- e + e)%Z with 0%Z by lia. reflexivity. Qed.

End PowerFacts.

Section AdjustedFacts.

Lemma Qabs_fraction (q : Q) :
  Qabs q * inject_Z (Zpos (Qden q)) == inject_Z (Z.abs (Qnum q)).
Proof.
  destruct q as [n d]. unfold Qabs, Qeq, Qmult, inject_Z. simpl. lia.
Qed.

Lemma adjusted_spec (q : Q) :
  ~ q == 0 -> pow10 (adjusted q) <= Qabs q /\ Qabs q < pow10 (adjusted q + 1).
Proof.
  intro Hq.
  assert (Hn : (0 < Z.abs (Qnum q))%Z).
  { destruct q as [n d]. unfold Qeq in Hq. simpl in *. lia. }
  destruct (ndigits_spec _ Hn) as (Ha & Hnlo & Hnhi).
  destruct (ndigits_spec (Zpos (Qden q)) ltac:(lia)) as (Hb & Hdlo & Hdhi).
  pose proof (Qabs_fraction q) as Hfrac.
  unfold adjusted.
  set (a := ndigits (Z.abs (Qnum q))) in *.
  set (b := ndigits (Zpos (Qden q))) in *.
  set (N := inject_Z (Z.abs (Qnum q))) in *.
  set (D := inject_Z (Zpos (Qden q))) in *.
  set (x := Qabs q) in *.
  assert (HN : pow10 (a - 1) <= N /\ N < pow10 a).
  { rewrite !pow10_Z by lia. unfold N. rewrite <- Zle_Qle, <- Zlt_Qlt. lia. }
  assert (HD : pow10 (b - 1) <= D /\ D < pow10 b).
  { rewrite !pow10_Z by lia. unfold D. rewrite <- Zle_Qle, <- Zlt_Qlt. lia. }
  assert (Hup : pow10 a == pow10 (a - b + 1) * pow10 (b - 1)).
  { rewrite <- pow10_plus. now replace (a - b + 1 + (b - 1))%Z with a by lia. }
  assert (Hdown : pow10 (a - 1) == pow10 (a - b - 1) * pow10 b).
  { rewrite <- pow10_plus. now replace (a - b - 1 + b)%Z with (a - 1)%Z by lia. }
  pose proof (pow10_pos (a - b + 1)) as P1.
  pose proof (pow10_pos (a - b - 1)) as P2.
  pose proof (pow10_pos (b - 1)) as P3.
  assert (HDpos : 0 < D) by lra.
  assert (Hhigh : x < pow10 (a - b + 1)).
  { apply (Qmult_lt_r _ _ D HDpos). rewrite Hfrac.
    apply Qlt_le_trans with (pow10 a); [apply HN|].
    rewrite Hup. apply Qmult_le_l; [exact P1 | apply HD]. }
  assert (Hlow : pow10 (a - b - 1) <= x).
  { apply (Qmult_le_r _ _ D HDpos). rewrite Hfrac.
    apply Qle_trans with (pow10 (a - 1)); [|apply HN].
    rewrite Hdown. apply Qmult_le_l; [exact P2 | apply Qlt_le_weak; apply HD]. }
  destruct (Qle_bool (pow10 (a - b)) x) eqn:E.
  - apply Qle_bool_iff in E. split; [exact E | exact Hhigh].
  - split; [exact Hlow|].
    replace (a - b - 1 + 1)%Z with (a - b)%Z by lia.
    apply Qnot_le_lt. intro H. apply Qle_bool_iff in H. congruence.
Qed.

Lemma adjusted_unique (x : Q) (k k' : Z) :
  pow10 k <= x -> x < pow10 (k + 1) -> pow10 k' <= x -> x < pow10 (k' + 1) -> k = k'.
Proof.
  intros H1 H2 H3 H4.
  assert (Ha : (k < k' + 1)%Z) by (apply pow10_lt_inv; lra).
  assert (Hb : (k' < k + 1)%Z) by (apply pow10_lt_inv; lra).
  lia.
Qed.

Lemma adjusted_comp (a b : Q) : a == b -> ~ a == 0 -> adjusted a = adjusted b.
Proof.
  intros Hab Ha.
  assert (Hb : ~ b == 0) by (now rewrite <- Hab).
  destruct (adjusted_spec a Ha) as [H1 H2].
  destruct (adjusted_spec b Hb) as [H3 H4].
  assert (Habs : Qabs a == Qabs b) by (now apply Qabs_wd).
  rewrite <- Habs in H3, H4.
  exact (adjusted_unique _ _ _ H1 H2 H3 H4).
Qed.

End AdjustedFacts.

Section RoundingFacts.

Lemma half_even_comp (x y : Q) : x == y -> half_even x = half_even y.
Proof.
  intro H. unfold half_even.
  rewrite (Qfloor_comp _ _ H).
  assert (Hc : Qcompare (x - inject_Z (Qfloor y)) (1 # 2)
               = Qcompare (y - inject_Z (Qfloor y)) (1 # 2)).
  { apply Qcompare_comp; [now rewrite H | reflexivity]. }
  now rewrite Hc.
Qed.

Lemma half_even_Z (m : Z) : half_even (inject_Z m) = m.
Proof.
  unfold half_even. rewrite Qfloor_Z.
  assert (Hc : Qcompare (inject_Z m - inject_Z m) (1 # 2) = Lt).
  { assert (Hz : inject_Z m - inject_Z m == 0) by ring.
    rewrite (Qcompare_comp _ _ Hz (1 # 2) (1 # 2) (Qeq_refl _)). reflexivity. }
  now rewrite Hc.
Qed.

Lemma half_even_ge (x : Q) (m : Z) : inject_Z m <= x -> (m <= half_even x)%Z.
Proof.
  intro H. apply Qfloor_resp_le in H. rewrite Qfloor_Z in H.
  unfold half_even.
  destruct (Qcompare _ _); [destruct (Z.even _)| |]; lia.
Qed.

Lemma half_even_le (x : Q) (m : Z) : x <= inject_Z m -> (half_even x <= m)%Z.
Proof.
  intro H.
  destruct (Qlt_le_dec x (inject_Z m)) as [Hlt | Hge].
  - assert (Hf : (Qfloor x < m)%Z).
    { rewrite Zlt_Qlt. apply Qle_lt_trans with x; [apply Qfloor_le | exact Hlt]. }
    unfold half_even.
    destruct (Qcompare _ _); [destruct (Z.even _)| |]; lia.
  - assert (Heq : x == inject_Z m) by lra.
    rewrite (half_even_comp _ _ Heq), half_even_Z. lia.
Qed.

Lemma rounded_zero (q : Q) : q == 0 -> rounded q = 0.
Proof. intro H. unfold rounded. apply Qeq_bool_iff in H. now rewrite H. Qed.

(** The rounding depends on the value only. *)
Lemma rounded_comp (a b : Q) : a == b -> rounded a = rounded b.
Proof.
  intro H. unfold rounded.
  destruct (Qeq_bool a 0) eqn:Ea.
  - apply Qeq_bool_iff in Ea. assert (Eb : b == 0) by (now rewrite <- H).
    apply Qeq_bool_iff in Eb. now rewrite Eb.
  - assert (Ha : ~ a == 0) by (intro E; apply Qeq_bool_iff in E; congruence).
    assert (Eb : Qeq_bool b 0 = false).
    { destruct (Qeq_bool b 0) eqn:Eb; [|reflexivity].
      apply Qeq_bool_iff in Eb. exfalso. apply Ha. now rewrite H. }
    rewrite Eb, <- (adjusted_comp a b H Ha).
    assert (Hx : a * pow10 (- (adjusted a - (prec - 1)))
                 == b * pow10 (- (adjusted a - (prec - 1))))
      by (apply Qmult_comp; [exact H | reflexivity]).
    now rewrite (half_even_comp _ _ Hx).
Qed.

(** A value that is not negative stays so. *)
Lemma rounded_nonneg (q : Q) : 0 <= q -> 0 <= rounded q.
Proof.
  intro H. unfold rounded. destruct (Qeq_bool q 0); [apply Qle_refl|].
  set (e := (adjusted q - (prec - 1))%Z).
  apply Qmult_le_0_compat; [|apply Qlt_le_weak, pow10_pos].
  change 0 with (inject_Z 0). rewrite <- Zle_Qle. apply half_even_ge.
  change (inject_Z 0) with 0. apply Qmult_le_0_compat; [exact H|].
  apply Qlt_le_weak, pow10_pos.
Qed.

(** A value of fewer than 28 digits is not rounded. *)
Lemma rounded_exact (q : Q) (z e0 : Z) :
  q == inject_Z z * pow10 e0 -> (Z.abs z < 10 ^ 28)%Z -> rounded q == q.
Proof.
  intros Hq Hz. unfold rounded.
  destruct (Qeq_bool q 0) eqn:E0; [apply Qeq_bool_iff in E0; now rewrite E0|].
  assert (Hne : ~ q == 0) by (intro E; apply Qeq_bool_iff in E; congruence).
  destruct (adjusted_spec q Hne) as [Hlo Hhi].
  set (adj := adjusted q) in *.
  assert (Hbound : Qabs q < pow10 (28 + e0)).
  { rewrite Hq, Qabs_Qmult, pow10_plus.
    rewrite (Qabs_pos (pow10 e0)) by (apply Qlt_le_weak, pow10_pos).
    apply Qmult_lt_r; [apply pow10_pos|].
    rewrite pow10_Z by lia.
    assert (Habs : Qabs (inject_Z z) == inject_Z (Z.abs z)).
    { unfold Qabs, inject_Z. simpl. reflexivity. }
    rewrite Habs, <- Zlt_Qlt. exact Hz. }
  assert (He : (adj - (prec - 1) <= e0)%Z).
  { assert (adj < 28 + e0)%Z by (apply pow10_lt_inv; lra). unfold prec. lia. }
  set (e := (adj - (prec - 1))%Z) in *.
  assert (Hx : q * pow10 (- e) == inject_Z (z * 10 ^ (e0 - e))).
  { rewrite Hq, inject_Z_mult, <- pow10_Z by lia.
    replace (e0 - e)%Z with (e0 + - e)%Z by lia. rewrite pow10_plus. ring. }
  rewrite (half_even_comp _ _ Hx), half_even_Z.
  rewrite inject_Z_mult, <- pow10_Z by lia.
  rewrite Hq.
  rewrite <- Qmult_assoc, <- pow10_plus.
  now replace (e0 - e + e)%Z with e0 by lia.
Qed.

End RoundingFacts.

Section RoundedForm.

Lemma scaled_bounds (q : Q) :
  ~ q == 0 ->
  let x := q * pow10 (- (adjusted q - (prec - 1))) in
  inject_Z (10 ^ 27) <= Qabs x /\ Qabs x < inject_Z (10 ^ 28).
Proof.
  intros Hne x. destruct (adjusted_spec q Hne) as [Hlo Hhi].
  unfold x. set (adj := adjusted q) in *.
  rewrite Qabs_Qmult, (Qabs_pos (pow10 _)) by (apply Qlt_le_weak, pow10_pos).
  rewrite <- !pow10_Z by lia.
  assert (H27 : pow10 27 == pow10 adj * pow10 (- (adj - (prec - 1)))).
  { rewrite <- pow10_plus. unfold prec.
    now replace (adj + - (adj - (28 - 1)))%Z with 27%Z by lia. }
  assert (H28 : pow10 28 == pow10 (adj + 1) * pow10 (- (adj - (prec - 1)))).
  { rewrite <- pow10_plus. unfold prec.
    now replace (adj + 1 + - (adj - (28 - 1)))%Z with 28%Z by lia. }
  rewrite H27, H28. split.
  - apply Qmult_le_r; [apply pow10_pos | exact Hlo].
  - apply Qmult_lt_r; [apply pow10_pos | exact Hhi].
Qed.

(** Rounding again changes nothing. *)
Lemma rounded_idempotent (q : Q) : rounded (rounded q) == rounded q.
Proof.
  destruct (Qeq_bool q 0) eqn:E0.
  - apply Qeq_bool_iff in E0. rewrite (rounded_zero q E0). now rewrite (rounded_zero 0).
  - assert (Hne : ~ q == 0) by (intro E; apply Qeq_bool_iff in E; congruence).
    destruct (scaled_bounds q Hne) as [_ Hhi].
    assert (Hform : rounded q
                    = inject_Z (half_even (q * pow10 (- (adjusted q - (prec - 1)))))
                      * pow10 (adjusted q - (prec - 1))).
    { unfold rounded. now rewrite E0. }
    set (e := (adjusted q - (prec - 1))%Z) in *.
    set (x := q * pow10 (- e)) in *.
    set (c := half_even x) in *.
    assert (Hc : (- 10 ^ 28 <= c <= 10 ^ 28)%Z).
    { apply Qabs_Qlt_condition in Hhi as [Hl Hu]. split.
      - apply half_even_ge. rewrite inject_Z_opp. lra.
      - apply half_even_le. lra. }
    destruct (Z.eq_dec (Z.abs c) (10 ^ 28)) as [Htop | Hbelow].
    + apply (rounded_exact _ (c / 10) (e + 1)).
      * rewrite Hform, pow10_plus.
        assert (Hten : c = (c / 10 * 10)%Z).
        { assert (Hcases : c = (10 ^ 28)%Z \/ c = (- 10 ^ 28)%Z) by lia.
          destruct Hcases as [Hcase | Hcase]; rewrite Hcase; reflexivity. }
        rewrite Hten at 1. rewrite inject_Z_mult.
        change (pow10 1) with (inject_Z 10). ring.
      * assert (Hcases : c = (10 ^ 28)%Z \/ c = (- 10 ^ 28)%Z) by lia.
        destruct Hcases as [Hcase | Hcase]; rewrite Hcase; reflexivity.
    + apply (rounded_exact _ c e); [now rewrite Hform | lia].
Qed.

(** A positive value is rounded to its leading power of ten at least. *)
Lemma rounded_keeps_magnitude (q : Q) (k : Z) :
  pow10 k <= q -> pow10 k <= rounded q.
Proof.
  intro Hk. pose proof (pow10_pos k) as Hpos.
  assert (Hne : ~ q == 0) by lra.
  destruct (adjusted_spec q Hne) as [Hlo Hhi].
  rewrite (Qabs_pos q) in Hlo, Hhi by lra.
  destruct (scaled_bounds q Hne) as [Hx _].
  unfold rounded.
  assert (E0 : Qeq_bool q 0 = false).
  { destruct (Qeq_bool q 0) eqn:E; [|reflexivity]. apply Qeq_bool_iff in E. lra. }
  rewrite E0.
  set (e := (adjusted q - (prec - 1))%Z) in *.
  rewrite Qabs_pos in Hx
    by (apply Qmult_le_0_compat; [lra | apply Qlt_le_weak, pow10_pos]).
  apply half_even_ge in Hx.
  assert (Hk' : (k <= adjusted q)%Z).
  { assert (k < adjusted q + 1)%Z by (apply pow10_lt_inv; lra). lia. }
  apply Qle_trans with (pow10 (adjusted q)); [now apply pow10_le|].
  assert (Hadj : pow10 (adjusted q) == inject_Z (10 ^ 27) * pow10 e).
  { rewrite <- pow10_Z, <- pow10_plus by lia. unfold e, prec.
    now replace (27 + (adjusted q - (28 - 1)))%Z with (adjusted q) by lia. }
  rewrite Hadj. apply Qmult_le_r; [apply pow10_pos|].
  rewrite <- Zle_Qle. exact Hx.
Qed.

(** [abs(w) < Decimal('0.010')] holds of weights below 0.010 only. *)
Lemma abs_below_hundredth (w : Q) : abs w < 10 # 1000 -> Qabs w < 10 # 1000.
Proof.
  intro H. apply Qnot_le_lt. intro Hge.
  assert (Hp : pow10 (-2) == 10 # 1000) by reflexivity.
  rewrite <- Hp in Hge. apply rounded_keeps_magnitude in Hge.
  unfold abs in H. lra.
Qed.

End RoundedForm.

End DecimalFacts.

#[export] Instance rounded_proper : Proper (Qeq ==> Qeq) PyDecimal.rounded.
Proof. intros a b H. now rewrite (rounded_comp a b H). Qed.

#[export] Instance add_proper : Proper (Qeq ==> Qeq ==> Qeq) PyDecimal.add.
Proof. intros a a' Ha b b' Hb. unfold PyDecimal.add. now rewrite Ha, Hb. Qed.

#[export] Instance sub_proper : Proper (Qeq ==> Qeq ==> Qeq) PyDecimal.sub.
Proof. intros a a' Ha b b' Hb. unfold PyDecimal.sub. now rewrite Ha, Hb. Qed.

#[export] Instance mul_proper : Proper (Qeq ==> Qeq ==> Qeq) PyDecimal.mul.
Proof. intros a a' Ha b b' Hb. unfold PyDecimal.mul. now rewrite Ha, Hb. Qed.

#[export] Instance div_proper : Proper (Qeq ==> Qeq ==> Qeq) PyDecimal.div.
Proof. intros a a' Ha b b' Hb. unfold PyDecimal.div. now rewrite Ha, Hb. Qed.

(** Operations on nothing. *)
Lemma add_zero (z : Q) : z == 0 -> PyDecimal.add 0 z == 0.
Proof.
  intro H. unfold PyDecimal.add.
  assert (E : 0 + z == 0) by (rewrite H; ring).
  now rewrite (rounded_zero _ E).
Qed.

Lemma sub_zero (z : Q) : z == 0 -> PyDecimal.sub 0 z == 0.
Proof.
  intro H. unfold PyDecimal.sub.
  assert (E : 0 - z == 0) by (rewrite H; ring).
  now rewrite (rounded_zero _ E).
Qed.

(** ** The monad, step by step *)

Lemma bind_returned {S A B} (m : M S A) (k : A -> M S B) (s s' : S) (b : B) :
  bind m k s = (Returned b, s') ->
  exists a s1, m s = (Returned a, s1) /\ k a s1 = (Returned b, s').
Proof.
  unfold bind. destruct (m s) as [[a|e] s1]; intro H.
  - exists a, s1. split; [reflexivity | exact H].
  - discriminate H.
Qed.

Lemma assign_ge0_returned {S} (field : string) (store : Q -> S -> S) (v : Q) (s s' : S) :
  assign_ge0 field store v s = (Returned tt, s') -> s' = store v s /\ 0 <= v.
Proof.
  unfold assign_ge0. destruct (Qleb 0 v) eqn:E; intro H.
  - inversion H. split; [reflexivity | now apply Qleb_true].
  - discriminate H.
Qed.

Lemma assign_int_ge0_returned {S} (field : string) (store : Z -> S -> S) (v : Z) (s s' : S) :
  assign_int_ge0 field store v s = (Returned tt, s') -> s' = store v s /\ (0 <= v)%Z.
Proof.
  unfold assign_int_ge0. destruct (0 <=? v)%Z eqn:E; intro H.
  - inversion H. split; [reflexivity | now apply Z.leb_le].
  - discriminate H.
Qed.

(** Takes a run of binds that returned apart into its steps. *)
Ltac steps H :=
  repeat match type of H with
  | bind _ _ _ = (Returned _, _) =>
      let a := fresh "a" in let s := fresh "s" in
      let H1 := fresh "Hstep" in
      apply bind_returned in H; destruct H as (a & s & H1 & H);
      match type of a with unit => destruct a | _ => idtac end
  end.

(** Reads off what [get] returned. *)
Ltac gets :=
  repeat match goal with
  | H : get _ = (Returned ?a, ?s) |- _ =>
      unfold get in H; inversion H; subst a; try subst s; clear H
  end.

(* --------------------------------------------------------------------- *)
(** ** Cashier session *)

Section CashierSessionFacts.

Import CashierSession.

Lemma unrounded_true (q : Q) :
  PyDecimal.unrounded q = true <-> PyDecimal.rounded q == q.
Proof. unfold PyDecimal.unrounded. apply Qeq_bool_iff. Qed.

Lemma perform_returned (c : call) (self self' : t) :
  perform c self = (Returned tt, self') ->
  (exact_call c self = true ->
   total_sales self' - category_total self' == total_sales self - category_total self)
  /\ (sales_count self' = sales_count self + (if is_add c then 1 else 0)
                          - (if is_cancel c then 1 else 0))%Z.
Proof.
  destruct c as [amount method | amount method]; simpl;
    unfold add_sale, cancel_sale; intro H.
  - steps H. gets.
    apply assign_ge0_returned in Hstep0 as [-> _].
    apply assign_int_ge0_returned in Hstep1 as [-> _].
    destruct (category_of method); apply assign_ge0_returned in H as [-> _];
      unfold category_total; simpl; (split; [|lia]);
      intro Hexact; apply andb_true_iff in Hexact as [Ht Hc];
      apply unrounded_true in Ht; apply unrounded_true in Hc;
      unfold PyDecimal.add; rewrite Ht, Hc; ring.
  - steps H. gets.
    apply assign_ge0_returned in Hstep0 as [-> _].
    apply assign_int_ge0_returned in Hstep1 as [-> _].
    apply assign_int_ge0_returned in Hstep2 as [-> _].
    destruct (category_of method); apply assign_ge0_returned in H as [-> _];
      unfold category_total; simpl; (split; [|lia]);
      intro Hexact; apply andb_true_iff in Hexact as [Ht Hc];
      apply unrounded_true in Ht; apply unrounded_true in Hc;
      unfold PyDecimal.sub; rewrite Ht, Hc; ring.
Qed.

Lemma perform_value (c : call) (self : t) :
  returned (perform c self) = true -> perform c self = (Returned tt, snd (perform c self)).
Proof.
  unfold returned. destruct (perform c self) as [[[]|e] s]; simpl; intro H;
    [reflexivity | discriminate H].
Qed.

Lemma run_returned (calls : list call) : forall self : t,
  all_returned calls self = true ->
  (all_exact calls self = true ->
   total_sales (run calls self) - category_total (run calls self)
     == total_sales self - category_total self)
  /\ (sales_count (run calls self) = sales_count self + adds calls - cancels calls)%Z.
Proof.
  induction calls as [|c rest IH]; intros self H; simpl in *.
  - split; [reflexivity | unfold adds, cancels; simpl; lia].
  - apply andb_true_iff in H as [Hc Hrest].
    apply perform_value in Hc. apply perform_returned in Hc as [Hq Hn].
    destruct (IH _ Hrest) as [IHq IHn]. split.
    + intro Hexact. apply andb_true_iff in Hexact as [Hhere Hthere].
      rewrite (IHq Hthere). exact (Hq Hhere).
    + rewrite IHn, Hn. unfold adds, cancels. simpl.
      destruct c; simpl; lia.
Qed.

Lemma all_returned_firstn (n : nat) : forall (calls : list call) (self : t),
  all_returned calls self = true -> all_returned (firstn n calls) self = true.
Proof.
  induction n as [|n IH]; intros [|c rest] self H; simpl in *; try reflexivity.
  apply andb_true_iff in H as [Hc Hrest].
  rewrite Hc. simpl. now apply IH.
Qed.

Lemma all_exact_firstn (n : nat) : forall (calls : list call) (self : t),
  all_exact calls self = true -> all_exact (firstn n calls) self = true.
Proof.
  induction n as [|n IH]; intros [|c rest] self H; simpl in *; try reflexivity.
  apply andb_true_iff in H as [Hc Hrest].
  rewrite Hc. simpl. now apply IH.
Qed.

(** Amounts in whole cents below 10^26 are never rounded. *)
Lemma cents_unrounded (z : Z) :
  (Z.abs z < 10 ^ 28)%Z -> PyDecimal.unrounded (z # 100) = true.
Proof.
  intro H. apply unrounded_true. apply (rounded_exact _ z (-2)); [|exact H].
  unfold Qeq. simpl. lia.
Qed.

End CashierSessionFacts.

(** C3, as the code has it. For every run of [add_sale] and [cancel_sale]
    calls on a freshly opened session in which no call raises a validation
    error and no sum or difference is rounded (each result has at most 28
    significant digits, as every amount in whole cents below 10^26 has),
    after every call of the run [total_sales] equals the sum of the four
    category totals and [sales_count] equals the number of [add_sale]
    calls minus the number of [cancel_sale] calls made so far. *)
Theorem session_totals_when_calls_return :
  forall (user : Z) (cash : Q) (now : Z) (calls : list CashierSession.call) (n : nat),
    CashierSession.all_returned calls (CashierSession.opened user cash now) = true ->
    CashierSession.all_exact calls (CashierSession.opened user cash now) = true ->
    let made := firstn n calls in
    let self := CashierSession.run made (CashierSession.opened user cash now) in
    CashierSession.total_sales self == CashierSession.category_total self
    /\ CashierSession.sales_count self
       = (CashierSession.adds made - CashierSession.cancels made)%Z.
Proof.
  intros user cash now calls n H Hexact made self.
  apply (all_returned_firstn n) in H. apply (all_exact_firstn n) in Hexact.
  destruct (run_returned _ _ H) as [Hq Hn]. specialize (Hq Hexact).
  fold made in Hq, Hn. fold self in Hq, Hn.
  split.
  - unfold CashierSession.category_total, CashierSession.opened in *. simpl in Hq.
    lra.
  - rewrite Hn. reflexivity.
Qed.

Lemma session_totals_when_calls_return_witness :
  let calls := [CashierSession.AddSale 10 "cash"; CashierSession.AddSale (5 # 2) "PIX";
                CashierSession.CancelSale 10 "Cash"] in
  let self := CashierSession.run (firstn 3 calls) (CashierSession.opened 1 50 0) in
  CashierSession.total_sales self == CashierSession.category_total self
  /\ CashierSession.sales_count self = 1%Z.
Proof.
  intros calls self.
  apply (session_totals_when_calls_return 1 50 0 calls 3).
  - vm_compute. reflexivity.
  - vm_compute. reflexivity.
Defined.

(** C3, as stated, fails, in three ways. A sale paid in cash and
    cancelled as pix: the cancellation lowers [total_sales] and the
    counter, then raises on the negative pix total; the session keeps a
    total of 0 against 10 in cash. A cancellation on a fresh session
    raises on the counter, which stays at 0 after one cancel call. And
    four sales that all return, of 7.008333333333333333333333333 in cash,
    by card and by pix and of 19.32366666666666666666666667 otherwise:
    the third and the fourth addition to [total_sales] are rounded to 28
    digits, and the total 40.34866666666666666666666667 is not the sum of
    the four category totals. *)
Lemma session_totals_counterexample :
  (let self := CashierSession.run
                 [CashierSession.AddSale 10 "cash"; CashierSession.CancelSale 10 "pix"]
                 (CashierSession.opened 1 0 0) in
   ~ CashierSession.total_sales self == CashierSession.category_total self)
  /\ (let calls := [CashierSession.CancelSale 0 "cash"] in
      CashierSession.sales_count (CashierSession.run calls (CashierSession.opened 1 0 0))
      <> (CashierSession.adds calls - CashierSession.cancels calls)%Z)
  /\ (let third := 7008333333333333333333333333 # 1000000000000000000000000000 in
      let rest := 1932366666666666666666666667 # 100000000000000000000000000 in
      let calls := [CashierSession.AddSale third "cash";
                    CashierSession.AddSale third "credit_card";
                    CashierSession.AddSale third "pix";
                    CashierSession.AddSale rest "check"] in
      let self := CashierSession.run calls (CashierSession.opened 1 0 0) in
      CashierSession.all_returned calls (CashierSession.opened 1 0 0) = true
      /\ CashierSession.total_sales self
         == 4034866666666666666666666667 # 100000000000000000000000000
      /\ ~ CashierSession.total_sales self == CashierSession.category_total self).
Proof.
  split; [|split].
  - vm_compute. intro H. discriminate H.
  - vm_compute. intro H. discriminate H.
  - vm_compute. split; [reflexivity|]. split; [reflexivity|].
    intro H. discriminate H.
Qed.

(** C10. A session that is not Open (Suspended or Closed) refuses
    [close_session] with a [ValueError] and keeps every field as it was;
    a Suspended session passes the gate only once it is resumed. *)
Theorem close_session_refused_unless_open :
  forall (self : CashierSession.t) (declared : Q) (notes : option string) (now : Z),
    CashierSession.status self <> OPEN ->
    CashierSession.close_session declared notes now self
      = (Raised (ValueError "Sessão não pode ser fechada no status atual"), self)
    /\ (CashierSession.status self = SUSPENDED ->
        CashierSession.can_close self = false
        /\ CashierSession.can_close (CashierSession.resume_session self) = true).
Proof.
  intros self declared notes now Hstatus. split.
  - unfold CashierSession.close_session, CashierSession.can_close, bind, get, raise.
    destruct (CashierSession.status self); [contradiction | reflexivity | reflexivity].
  - intro Hs. unfold CashierSession.can_close, CashierSession.resume_session.
    rewrite Hs. split; reflexivity.
Qed.

Lemma close_session_refused_unless_open_witness :
  let self := CashierSession.suspend_session (Some "pausa") (CashierSession.opened 7 100 0) in
  CashierSession.close_session 120 None 60 self
    = (Raised (ValueError "Sessão não pode ser fechada no status atual"), self)
  /\ (CashierSession.status self = SUSPENDED ->
      CashierSession.can_close self = false
      /\ CashierSession.can_close (CashierSession.resume_session self) = true).
Proof.
  intro self.
  apply (close_session_refused_unless_open self 120 None 60).
  unfold self. simpl. discriminate.
Defined.

(* --------------------------------------------------------------------- *)
(** ** Sale *)

Section SaleFacts.

Import Sale.

(** A sum is a rounded value: the context leaves it as it is. *)
Lemma sum_rounded (f : SaleItem -> Q) (l : list SaleItem) :
  PyDecimal.rounded (sum f l) == sum f l.
Proof.
  unfold sum.
  assert (H : forall a, PyDecimal.rounded a == a ->
            PyDecimal.rounded (fold_left (fun acc item => PyDecimal.add acc (f item)) l a)
            == fold_left (fun acc item => PyDecimal.add acc (f item)) l a).
  { induction l as [|x l IH]; intros a Ha; simpl; [exact Ha|].
    apply IH. apply rounded_idempotent. }
  apply H. now rewrite (rounded_zero 0).
Qed.

Lemma add_nothing (q z : Q) : PyDecimal.rounded q == q -> z == 0 -> PyDecimal.add q z == q.
Proof.
  intros Hq Hz. unfold PyDecimal.add.
  assert (E : q + z == q) by (rewrite Hz; ring).
  now rewrite (rounded_comp _ _ E).
Qed.

Lemma no_discount (q p : Q) : q * p == 0 -> PyDecimal.div (PyDecimal.mul q p) 100 == 0.
Proof.
  intro E. unfold PyDecimal.div, PyDecimal.mul.
  rewrite (rounded_zero _ E).
  assert (E' : 0 / 100 == 0) by reflexivity.
  now rewrite (rounded_zero _ E').
Qed.

Lemma calculate_totals_returned (self self' : t) :
  calculate_totals self = (Returned tt, self') ->
  totals_balance self' /\ totals_from_items self'
  /\ items self' = items self /\ discount_percentage self' = discount_percentage self
  /\ 0 <= total_amount self'.
Proof.
  unfold calculate_totals. intro H. steps H. gets.
  apply assign_ge0_returned in Hstep0 as [-> _].
  apply assign_ge0_returned in Hstep1 as [-> _].
  apply assign_ge0_returned in Hstep2 as [-> _].
  apply assign_ge0_returned in Hstep6 as [-> Hnonneg].
  assert (Hchange : total_amount self'
                    = PyDecimal.add (PyDecimal.sub (subtotal s4) (discount_amount s4))
                        (tax_amount s4)
          /\ subtotal self' = subtotal s4 /\ discount_amount self' = discount_amount s4
          /\ tax_amount self' = tax_amount s4 /\ items self' = items s4
          /\ discount_percentage self' = discount_percentage s4).
  { destruct (Qltb _ _); apply assign_ge0_returned in H as [-> _];
      simpl; repeat split; reflexivity. }
  destruct Hchange as (Ht & Hs & Hd & Hx & Hi & Hp).
  unfold totals_balance, totals_from_items.
  rewrite Ht, Hs, Hd, Hx, Hi, Hp. clear Ht Hs Hd Hx Hi Hp H.
  unfold general_discount in Hstep4. simpl in Hstep4.
  destruct (discount_percentage self) as [p|] eqn:Ep.
  - destruct (Qeq_bool p 0) eqn:Ez.
    + inversion Hstep4; subst s4. simpl. rewrite Ep.
      apply Qeq_bool_iff in Ez.
      repeat split; try reflexivity; try exact Hnonneg.
      symmetry. apply add_nothing; [apply sum_rounded|].
      apply no_discount. rewrite Ez. ring.
    + apply assign_ge0_returned in Hstep4 as [-> _]. simpl. rewrite Ep.
      repeat split; try reflexivity. exact Hnonneg.
  - inversion Hstep4; subst s4. simpl. rewrite Ep.
    repeat split; try reflexivity; try exact Hnonneg.
    symmetry. apply add_nothing; [apply sum_rounded | reflexivity].
Qed.

(** [clear_items] cannot return: the empty list does not pass
    [validate_items], and the sale is left as it was. *)
Lemma clear_items_raises (self : t) :
  clear_items self = (Raised (ValidationError "items"), self).
Proof. reflexivity. Qed.

End SaleFacts.




(* --------------------------------------------------------------------- *)
(** ** Scale manager *)

(** C7, as the code has it. When the configuration is enabled and its
    [default_brand], in lower case, is not a supported vendor, building
    the [ScaleManager] raises [EquipmentError] naming the brand. *)
Theorem unsupported_brand_is_fatal_when_enabled :
  forall (cfg : dict) (enabled : json) (name : string),
    Dict.get "enabled" cfg = Some enabled ->
    truthy enabled = true ->
    Dict.get "default_brand" cfg = Some (JStr name) ->
    ScaleManager.SUPPORTED_BRANDS (Py.lower name) = None ->
    ScaleManager.init cfg
      = inl (EquipmentError ("Marca de balança não suportada: " ++ Py.lower name)).
Proof.
  intros cfg enabled name He Ht Hb Hs.
  unfold ScaleManager.init, ScaleManager._initialize_scale, bind, get. simpl.
  rewrite He, Ht, Hb. simpl. rewrite Hs. reflexivity.
Qed.

Lemma unsupported_brand_is_fatal_when_enabled_witness :
  ScaleManager.init [("enabled", JBool true); ("default_brand", JStr "Acme")]
    = inl (EquipmentError "Marca de balança não suportada: acme").
Proof.
  exact (unsupported_brand_is_fatal_when_enabled
           [("enabled", JBool true); ("default_brand", JStr "Acme")]
           (JBool true) "Acme" eq_refl eq_refl eq_refl eq_refl).
Defined.

(** C7, as stated, fails: with [enabled] false, or absent, an unsupported
    [default_brand] raises nothing and the manager is built without a
    driver, which [get_status] reports as disabled. *)
Lemma unsupported_brand_counterexample :
  let cfg := [("enabled", JBool false); ("default_brand", JStr "acme")] in
  ScaleManager.SUPPORTED_BRANDS "acme" = None
  /\ ScaleManager.init cfg = inr (ScaleManager.mk cfg None)
  /\ ScaleManager.init [("default_brand", JStr "acme")]
     = inr (ScaleManager.mk [("default_brand", JStr "acme")] None).
Proof. repeat split; reflexivity. Qed.

(* --------------------------------------------------------------------- *)
(** ** Configuration: deep merge *)

Lemma json_nested_ind (P : json -> Prop) :
  (forall j, match j with JArr _ | JObj _ => False | _ => True end -> P j) ->
  (forall items, Forall P items -> P (JArr items)) ->
  (forall fields, Forall (fun kv => P (snd kv)) fields -> P (JObj fields)) ->
  forall j, P j.
Proof.
  intros Hatom Harr Hobj. fix IH 1.
  intros [ | b | n | x | s | items | fields].
  1-5: apply Hatom; exact I.
  - apply Harr. induction items as [|j rest IHl]; constructor; [apply IH | exact IHl].
  - apply Hobj. induction fields as [|[k v] rest IHl]; constructor; [apply IH | exact IHl].
Qed.

Section DictFacts.

Lemma get_set_same (k : string) (v : json) (d : dict) :
  Dict.get k (Dict.set k v d) = Some v.
Proof.
  induction d as [|[k' v'] rest IH]; simpl.
  - now rewrite String.eqb_refl.
  - destruct (String.eqb k k') eqn:E; simpl.
    + now rewrite String.eqb_refl.
    + now rewrite E.
Qed.

Lemma get_set_other (k k' : string) (v : json) (d : dict) :
  k <> k' -> Dict.get k' (Dict.set k v d) = Dict.get k' d.
Proof.
  intro Hne. induction d as [|[k1 v1] rest IH]; simpl.
  - destruct (String.eqb k' k) eqn:E; [|reflexivity].
    apply String.eqb_eq in E. congruence.
  - destruct (String.eqb k k1) eqn:E; simpl.
    + apply String.eqb_eq in E. subst k1.
      destruct (String.eqb k' k) eqn:E'; [|reflexivity].
      apply String.eqb_eq in E'. congruence.
    + now rewrite IH.
Qed.

Lemma set_get_id (k : string) (v : json) (d : dict) :
  Dict.get k d = Some v -> Dict.set k v d = d.
Proof.
  induction d as [|[k' v'] rest IH]; simpl; intro H.
  - discriminate H.
  - destruct (String.eqb k k') eqn:E.
    + apply String.eqb_eq in E. now inversion H; subst.
    + now rewrite IH.
Qed.

Lemma get_none_not_in (k : string) (d : dict) :
  existsb (String.eqb k) (List.map fst d) = false -> Dict.get k d = None.
Proof.
  induction d as [|[k' v'] rest IH]; simpl; intro H; [reflexivity|].
  apply orb_false_iff in H as [E H]. rewrite E. now apply IH.
Qed.

Lemma get_in_distinct (k : string) (v : json) (d : dict) :
  Dict.distinct (List.map fst d) = true -> In (k, v) d -> Dict.get k d = Some v.
Proof.
  induction d as [|[k' v'] rest IH]; simpl; intros Hd Hin; [contradiction|].
  apply andb_true_iff in Hd as [Hfresh Hd]. apply negb_true_iff in Hfresh.
  destruct Hin as [Heq | Hin].
  - inversion Heq; subst. now rewrite String.eqb_refl.
  - destruct (String.eqb k k') eqn:E.
    + apply String.eqb_eq in E. subst k'.
      apply get_none_not_in in Hfresh. rewrite (IH Hd Hin) in Hfresh. discriminate Hfresh.
    + now apply IH.
Qed.

Lemma get_in (k : string) (v : json) (d : dict) :
  Dict.get k d = Some v -> In (k, v) d.
Proof.
  induction d as [|[k' v'] rest IH]; simpl; intro H; [discriminate H|].
  destruct (String.eqb k k') eqn:E.
  - apply String.eqb_eq in E. inversion H; subst. now left.
  - right. now apply IH.
Qed.

Lemma wf_dict_value (d : dict) (k : string) (v : json) :
  wf_dict d = true -> In (k, v) d -> wf_json v = true.
Proof.
  unfold wf_dict. simpl. intros H Hin.
  apply andb_true_iff in H as [_ H].
  rewrite List.forallb_forall in H. exact (H _ Hin).
Qed.

Lemma wf_dict_distinct (d : dict) :
  wf_dict d = true -> Dict.distinct (List.map fst d) = true.
Proof. unfold wf_dict. simpl. intro H. now apply andb_true_iff in H as [H _]. Qed.

End DictFacts.

Section DeepMergeFacts.

Import ConfigManager.

Lemma deep_merge_nil (base : dict) : _deep_merge base [] = base.
Proof. reflexivity. Qed.

Lemma deep_merge_cons (base : dict) (key : string) (value : json) (rest : dict) :
  _deep_merge base ((key, value) :: rest) = _deep_merge (merge_step base key value) rest.
Proof.
  unfold _deep_merge, merge_step, merged_value. simpl.
  destruct (Dict.get key base) as [[ | | | | | | sub]|]; try reflexivity.
  destruct value; reflexivity.
Qed.

Lemma deep_merge_get_other (key : string) (override : dict) : forall base : dict,
  existsb (String.eqb key) (List.map fst override) = false ->
  Dict.get key (_deep_merge base override) = Dict.get key base.
Proof.
  induction override as [|[k v] rest IH]; intros base H.
  - reflexivity.
  - simpl in H. apply orb_false_iff in H as [E H].
    rewrite deep_merge_cons, (IH _ H). unfold merge_step.
    apply get_set_other. intro Heq. subst k. rewrite String.eqb_refl in E. discriminate E.
Qed.

Lemma deep_merge_get (key : string) (value : json) (override : dict) : forall base : dict,
  Dict.distinct (List.map fst override) = true ->
  Dict.get key override = Some value ->
  Dict.get key (_deep_merge base override)
    = Some (merged_value (Dict.get key base) value).
Proof.
  induction override as [|[k v] rest IH]; intros base Hd Hget.
  - discriminate Hget.
  - simpl in Hd, Hget. apply andb_true_iff in Hd as [Hfresh Hd].
    apply negb_true_iff in Hfresh. rewrite deep_merge_cons.
    destruct (String.eqb key k) eqn:E.
    + apply String.eqb_eq in E. subst k. inversion Hget; subst v.
      rewrite (deep_merge_get_other _ _ _ Hfresh). apply get_set_same.
    + rewrite (IH _ Hd Hget). unfold merge_step.
      rewrite get_set_other; [reflexivity|].
      intro Heq. subst k. rewrite String.eqb_refl in E. discriminate E.
Qed.

(** A loop whose every turn leaves the dictionary as it is. *)
Lemma deep_merge_fixed (base override : dict) :
  (forall k v, In (k, v) override -> merge_step base k v = base) ->
  _deep_merge base override = base.
Proof.
  induction override as [|[k v] rest IH]; intro H.
  - reflexivity.
  - rewrite deep_merge_cons, (H k v (or_introl eq_refl)).
    apply IH. intros k' v' Hin. apply H. now right.
Qed.

Lemma deep_merge_self (d : dict) : wf_dict d = true -> _deep_merge d d = d.
Proof.
  change (match JObj d with JObj f => wf_dict f = true -> _deep_merge f f = f | _ => True end).
  generalize (JObj d). clear d.
  apply json_nested_ind.
  - intros [] H; try exact I; contradiction.
  - intros; exact I.
  - intros d IH Hwf. apply deep_merge_fixed. intros k v Hin.
    unfold merge_step.
    rewrite (get_in_distinct k v d (wf_dict_distinct d Hwf) Hin).
    apply set_get_id.
    rewrite (get_in_distinct k v d (wf_dict_distinct d Hwf) Hin). f_equal.
    rewrite Forall_forall in IH. specialize (IH _ Hin). simpl in IH.
    pose proof (wf_dict_value d k v Hwf Hin) as Hv.
    destruct v; try reflexivity. simpl. now rewrite (IH Hv).
Qed.

Lemma deep_merge_again (override : dict) : forall base : dict,
  wf_dict override = true ->
  _deep_merge (_deep_merge base override) override = _deep_merge base override.
Proof.
  change (match JObj override with
          | JObj f => forall base, wf_dict f = true ->
                        _deep_merge (_deep_merge base f) f = _deep_merge base f
          | _ => True end).
  generalize (JObj override). clear override.
  apply json_nested_ind.
  - intros [] H; try exact I; contradiction.
  - intros; exact I.
  - intros o IH base Hwf. apply deep_merge_fixed. intros k v Hin.
    pose proof (get_in_distinct k v o (wf_dict_distinct o Hwf) Hin) as Hget.
    pose proof (deep_merge_get k v o base (wf_dict_distinct o Hwf) Hget) as Hr.
    unfold merge_step. rewrite Hr. apply set_get_id. rewrite Hr. f_equal.
    rewrite Forall_forall in IH. specialize (IH _ Hin). simpl in IH.
    pose proof (wf_dict_value o k v Hwf Hin) as Hv.
    destruct v as [ | | | | | | f]; try (destruct (Dict.get k base) as [[]|]; reflexivity).
    destruct (Dict.get k base) as [[ | | | | | | sub]|]; simpl;
      try (now rewrite (deep_merge_self f Hv)).
    now rewrite (IH sub Hv).
Qed.

Lemma deep_merge_path (path : list string) : forall (base override : dict) (leaf : json),
  wf_dict override = true ->
  path <> [] -> is_leaf leaf = true ->
  lookup_path path (JObj override) = Some leaf ->
  lookup_path path (JObj (_deep_merge base override)) = Some leaf.
Proof.
  induction path as [|k rest IH]; intros base override leaf Hwf Hne Hleaf Hlook.
  - contradiction.
  - simpl in Hlook. simpl.
    destruct (Dict.get k override) as [next|] eqn:Hget; [|discriminate Hlook].
    rewrite (deep_merge_get k next override base (wf_dict_distinct _ Hwf) Hget).
    pose proof (wf_dict_value override k next Hwf (get_in _ _ _ Hget)) as Hnext.
    destruct next as [ | | | | | | f];
      try (destruct (Dict.get k base) as [[]|]; exact Hlook).
    destruct (Dict.get k base) as [[ | | | | | | sub]|]; try exact Hlook.
    simpl. destruct rest as [|k' rest'].
    + simpl in Hlook. inversion Hlook; subst leaf. discriminate Hleaf.
    + apply IH; try assumption. discriminate.
Qed.

End DeepMergeFacts.

Lemma get_none_fresh (k : string) (d : dict) :
  Dict.get k d = None -> existsb (String.eqb k) (List.map fst d) = false.
Proof.
  induction d as [|[k' v'] rest IH]; simpl; intro H; [reflexivity|].
  destruct (String.eqb k k'); [discriminate H | now apply IH].
Qed.

(** C6. Deep merge is override-wins and idempotent. The example of the
    claim: merging [{a:{b:1,c:2}}] with override [{a:{b:9}}] yields
    [{a:{b:9,c:2}}]. For every base and every override (a dictionary: its
    keys are distinct at every level): under a key of the override the
    result holds the override's value, merged recursively when both sides
    are dictionaries and replacing the base's value otherwise; a key the
    override lacks keeps the base's value; so every non-dictionary value
    found along a path of the override is found along the same path of the
    result; merging the override a second time changes nothing; and
    merging a dictionary with itself as override leaves it unchanged. *)
Theorem deep_merge_override_wins_idempotent :
  ConfigManager._deep_merge
    [("a", JObj [("b", JInt 1); ("c", JInt 2)])] [("a", JObj [("b", JInt 9)])]
    = [("a", JObj [("b", JInt 9); ("c", JInt 2)])]
  /\ forall base override : dict,
       wf_dict override = true ->
       let merged := ConfigManager._deep_merge base override in
       (forall key value,
          Dict.get key override = Some value ->
          Dict.get key merged
            = Some (match Dict.get key base, value with
                    | Some (JObj sub), JObj fields =>
                        JObj (ConfigManager._deep_merge sub fields)
                    | _, _ => value
                    end))
       /\ (forall key, Dict.get key override = None ->
             Dict.get key merged = Dict.get key base)
       /\ (forall path leaf,
             path <> [] -> ConfigManager.is_leaf leaf = true ->
             ConfigManager.lookup_path path (JObj override) = Some leaf ->
             ConfigManager.lookup_path path (JObj merged) = Some leaf)
       /\ ConfigManager._deep_merge merged override = merged
       /\ ConfigManager._deep_merge override override = override.
Proof.
  split; [reflexivity|].
  intros base override Hwf merged. repeat split.
  - intros key value Hget.
    exact (deep_merge_get key value override base (wf_dict_distinct _ Hwf) Hget).
  - intros key Hnone.
    exact (deep_merge_get_other key override base (get_none_fresh _ _ Hnone)).
  - intros path leaf Hne Hleaf Hlook.
    exact (deep_merge_path path base override leaf Hwf Hne Hleaf Hlook).
  - exact (deep_merge_again override base Hwf).
  - exact (deep_merge_self override Hwf).
Qed.

Lemma deep_merge_override_wins_idempotent_witness :
  let base := [("port", JStr "COM1");
               ("connection", JObj [("baudrate", JInt 9600); ("timeout", JInt 2)])] in
  let override := [("connection", JObj [("baudrate", JInt 4800)]); ("enabled", JBool true)] in
  let merged := ConfigManager._deep_merge base override in
  merged = [("port", JStr "COM1");
            ("connection", JObj [("baudrate", JInt 4800); ("timeout", JInt 2)]);
            ("enabled", JBool true)]
  /\ ConfigManager.lookup_path ["connection"; "baudrate"] (JObj merged) = Some (JInt 4800)
  /\ ConfigManager._deep_merge merged override = merged
  /\ ConfigManager._deep_merge override override = override.
Proof.
  intros base override merged.
  destruct (proj2 deep_merge_override_wins_idempotent base override eq_refl)
    as (_ & _ & Hpath & Hagain & Hself).
  split; [reflexivity|]. split; [|split].
  - apply Hpath; [discriminate | reflexivity | reflexivity].
  - exact Hagain.
  - exact Hself.
Defined.

(* --------------------------------------------------------------------- *)
(** ** Scale drivers: reading *)

(** Closes the case of a read that failed. *)
Ltac failed_read :=
  try left; simpl; repeat split; eexists; eexists; reflexivity.

Section ReadFacts.

Variable default_read_command : string.
Variable parse_response : string -> Scale -> option Q * Scale.

(** The parser touches nothing but the stability flag. *)
Hypothesis parse_keeps :
  forall response d w d',
    parse_response response d = (w, d') ->
    status d' = status d /\ serial_connection d' = serial_connection d
    /\ config d' = config d /\ last_error d' = last_error d
    /\ brand d' = brand d /\ _last_weight d' = _last_weight d
    /\ (w = None -> d' = d).

Let read := read_weight_ default_read_command parse_response.

(** A read by a connected driver either fails, with the status Error and
    a message recorded, or it parsed the line the device sent. *)
Lemma read_weight_connected (x : exchange) (d : Scale) :
  is_connected_ d = true ->
  (fst (read x d) = None
   /\ status (snd (read x d)) = ERROR
   /\ _last_weight (snd (read x d)) = _last_weight d
   /\ _is_stable (snd (read x d)) = _is_stable d
   /\ exists c rest, last_error (snd (read x d)) = Some (String c rest))
  \/ (exists line w d1,
        BaseScale.transport_failed x = false /\ on_readline x = inr line
        /\ Py.nonempty (Py.strip line) = true
        /\ parse_response (Py.strip line) (with_status BUSY d) = (Some w, d1)
        /\ read x d = (Some w, with_status CONNECTED (with_last_weight (Some w) d1))).
Proof.
  intro Hc. unfold read, read_weight_. rewrite Hc. simpl.
  unfold read_weight_try, configured_command, bind, get, modify, lift, call, raise, ret,
    py_get, encode, BaseScale.transport_failed.
  simpl.
  destruct (Dict.get "commands" (config d)) as [[ | | | | | | fields]|];
    try failed_read;
    [ destruct (Dict.get "read_weight" fields) as [[ | | | | command | | ]|] | ];
    destruct (on_reset_input_buffer x) as [[]|]; try failed_read;
    destruct (on_write x) as [[]|]; try failed_read;
    destruct (on_readline x) as [[]|line]; try failed_read;
    simpl;
    (destruct (Py.nonempty (Py.strip line)) eqn:En; [|failed_read]);
    match goal with
    | |- context [parse_response ?r ?s] =>
        destruct (parse_response r s) as [[w|] d1] eqn:Ep
    end.
  all: try (right; exists line, w, d1; simpl; repeat split; try assumption; reflexivity).
  all: left; destruct (parse_keeps _ _ _ _ Ep) as (_ & _ & _ & _ & _ & _ & Hid);
    rewrite (Hid eq_refl); failed_read.
Qed.

End ReadFacts.

Section ParserFacts.

Lemma toledo_parse_keeps (response : string) (d : Scale) (w : option Q) (d' : Scale) :
  ToledoScale._parse_toledo_response response d = (w, d') ->
  status d' = status d /\ serial_connection d' = serial_connection d
  /\ config d' = config d /\ last_error d' = last_error d
  /\ brand d' = brand d /\ _last_weight d' = _last_weight d
  /\ (w = None -> d' = d).
Proof.
  unfold ToledoScale._parse_toledo_response.
  destruct (Py.contains "kg" _); [destruct (Py.nonempty _); [destruct (PyDecimal.parse _)|]|];
    intro H; inversion H; subst; simpl; repeat split; try discriminate; reflexivity.
Qed.

Lemma filizola_parse_keeps (response : string) (d : Scale) (w : option Q) (d' : Scale) :
  FilizolaScale._parse_filizola_response response d = (w, d') ->
  status d' = status d /\ serial_connection d' = serial_connection d
  /\ config d' = config d /\ last_error d' = last_error d
  /\ brand d' = brand d /\ _last_weight d' = _last_weight d
  /\ (w = None -> d' = d).
Proof.
  unfold FilizolaScale._parse_filizola_response.
  destruct (Py.nonempty _); [destruct (PyDecimal.parse _)|];
    intro H; inversion H; subst; simpl; repeat split; try discriminate; reflexivity.
Qed.

(** The weight a parser returns does not depend on the driver. *)
Lemma parse_weight_any_driver (b : Brand) (response : string) (d d' : Scale) :
  fst (BaseScale.parse_response b response d) = fst (BaseScale.parse_response b response d').
Proof.
  destruct b; simpl.
  - unfold ToledoScale._parse_toledo_response.
    destruct (Py.contains "kg" _); [destruct (Py.nonempty _); [destruct (PyDecimal.parse _)|]|];
      reflexivity.
  - unfold FilizolaScale._parse_filizola_response.
    destruct (Py.nonempty _); [destruct (PyDecimal.parse _)|]; reflexivity.
Qed.

Lemma parse_empty_numeric (b : Brand) (response : string) (d : Scale) :
  BaseScale.numeric_substring b response = "" ->
  fst (BaseScale.parse_response b response d) = None.
Proof.
  destruct b; simpl; intro H.
  - unfold ToledoScale._parse_toledo_response. rewrite H. simpl.
    destruct (Py.contains "kg" _); reflexivity.
  - unfold FilizolaScale._parse_filizola_response. rewrite H. reflexivity.
Qed.

(** [read_weight_connected] for the driver's own class. *)
Lemma base_read_weight_connected (x : exchange) (d : Scale) :
  BaseScale.is_connected d = true ->
  (fst (BaseScale.read_weight x d) = None
   /\ status (snd (BaseScale.read_weight x d)) = ERROR
   /\ _last_weight (snd (BaseScale.read_weight x d)) = _last_weight d
   /\ _is_stable (snd (BaseScale.read_weight x d)) = _is_stable d
   /\ exists c rest, last_error (snd (BaseScale.read_weight x d)) = Some (String c rest))
  \/ (exists line w d1,
        BaseScale.transport_failed x = false /\ on_readline x = inr line
        /\ Py.nonempty (Py.strip line) = true
        /\ BaseScale.parse_response (brand d) (Py.strip line) (with_status BUSY d)
           = (Some w, d1)
        /\ BaseScale.read_weight x d
           = (Some w, with_status CONNECTED (with_last_weight (Some w) d1))).
Proof.
  unfold BaseScale.is_connected, BaseScale.read_weight, BaseScale.parse_response.
  destruct (brand d); intro Hc.
  - exact (read_weight_connected "05" _ toledo_parse_keeps x d Hc).
  - exact (read_weight_connected "W" _ filizola_parse_keeps x d Hc).
Qed.

(** A driver that is not connected reads nothing and keeps its last weight. *)
Lemma base_read_weight_disconnected (x : exchange) (d : Scale) :
  BaseScale.is_connected d = false ->
  BaseScale.read_weight x d = (None, BaseEquipment.set_error "Balança não conectada" d).
Proof.
  unfold BaseScale.is_connected, BaseScale.read_weight,
    ToledoScale.is_connected, FilizolaScale.is_connected,
    ToledoScale.read_weight, FilizolaScale.read_weight, read_weight_.
  destruct (brand d); intro Hc; rewrite Hc; reflexivity.
Qed.

End ParserFacts.

(** C1, as the code has it. While the driver is connected, a malformed
    response (empty after [strip], or one the vendor's parser rejects)
    makes [read_weight] return null, and so does a failure of the
    transport; whenever [read_weight] returns null it has recorded a
    non-empty last error and the status is Error, in both cases alike (the
    [finally] clause only turns Busy into Connected); the status is
    Connected when a weight is returned. *)
Theorem failed_read_leaves_status_error :
  forall (d : Scale) (x : exchange),
    BaseScale.is_connected d = true ->
    let result := fst (BaseScale.read_weight x d) in
    let d' := snd (BaseScale.read_weight x d) in
    (forall line,
       BaseScale.transport_failed x = false -> on_readline x = inr line ->
       Py.strip line = ""
       \/ fst (BaseScale.parse_response (brand d) (Py.strip line) d) = None ->
       result = None)
    /\ (BaseScale.transport_failed x = true -> result = None)
    /\ (result = None ->
        status d' = ERROR /\ exists c rest, last_error d' = Some (String c rest))
    /\ (result <> None -> status d' = CONNECTED).
Proof.
  intros d x Hc result d'. subst result d'.
  destruct (base_read_weight_connected x d Hc)
    as [(Hnone & Hst & _ & _ & Hmsg) | (line & w & d1 & Hok & Hline & Hne & Hparse & Hread)].
  - split; [|split; [|split]]; auto. intro H. contradiction.
  - rewrite Hread. simpl. split; [|split; [|split]].
    + intros line' _ Hline' Hbad. rewrite Hline in Hline'. inversion Hline'; subst line'.
      destruct Hbad as [Hempty | Hrej].
      * rewrite Hempty in Hne. discriminate Hne.
      * rewrite (parse_weight_any_driver _ _ d (with_status BUSY d)), Hparse in Hrej.
        discriminate Hrej.
    + intro Hfail. rewrite Hfail in Hok. discriminate Hok.
    + intro H. discriminate H.
    + intros _. reflexivity.
Qed.

Lemma failed_read_leaves_status_error_witness :
  let d := mkScale Filizola [] CONNECTED None None false (Some true) in
  let x := reply "ERRO" in
  fst (BaseScale.read_weight x d) = None
  /\ status (snd (BaseScale.read_weight x d)) = ERROR
  /\ exists c rest, last_error (snd (BaseScale.read_weight x d)) = Some (String c rest).
Proof.
  intros d x.
  destruct (failed_read_leaves_status_error d x eq_refl) as (Hbad & _ & Herr & _).
  assert (Hnone : fst (BaseScale.read_weight x d) = None).
  { apply (Hbad "ERRO"); [reflexivity | reflexivity | right; reflexivity]. }
  split; [exact Hnone | exact (Herr Hnone)].
Defined.

(** C1, as stated, fails: a connected Toledo driver that receives an
    empty line, or a line without a weight, ends with the status Error,
    not Connected, and so does a Filizola driver. *)
Lemma malformed_response_counterexample :
  let toledo := mkScale Toledo [] CONNECTED None None false (Some true) in
  let filizola := mkScale Filizola [] CONNECTED None None false (Some true) in
  BaseScale.is_connected toledo = true
  /\ BaseScale.read_weight (reply "") toledo
     = (None, BaseEquipment.set_error "Resposta inválida da balança" toledo)
  /\ status (snd (BaseScale.read_weight (reply "") toledo)) <> CONNECTED
  /\ status (snd (BaseScale.read_weight (reply "ERR") toledo)) = ERROR
  /\ status (snd (BaseScale.read_weight (reply "ERRO") filizola)) = ERROR.
Proof. repeat split. discriminate. Qed.

(** C8. A response whose numeric part is empty is a failed read: whatever
    the driver and whatever else the serial port did, [read_weight]
    returns null, and the last weight is not replaced (by zero or by
    anything). *)
Theorem empty_numeric_is_failed_read :
  forall (d : Scale) (x : exchange) (line : string),
    on_readline x = inr line ->
    BaseScale.numeric_substring (brand d) (Py.strip line) = "" ->
    fst (BaseScale.read_weight x d) = None
    /\ _last_weight (snd (BaseScale.read_weight x d)) = _last_weight d.
Proof.
  intros d x line Hline Hnum.
  destruct (BaseScale.is_connected d) eqn:Hc.
  - destruct (base_read_weight_connected x d Hc)
      as [(Hnone & _ & Hw & _) | (line' & w & d1 & _ & Hline' & _ & Hparse & _)].
    + split; assumption.
    + rewrite Hline in Hline'. inversion Hline'; subst line'.
      pose proof (parse_empty_numeric (brand d) _ (with_status BUSY d) Hnum) as Hn.
      rewrite Hparse in Hn. discriminate Hn.
  - rewrite (base_read_weight_disconnected x d Hc). split; reflexivity.
Qed.

Lemma empty_numeric_is_failed_read_witness :
  let d := mkScale Toledo [] CONNECTED None (Some (5 # 1)) true (Some true) in
  fst (BaseScale.read_weight (reply "ST,GS,kg") d) = None
  /\ _last_weight (snd (BaseScale.read_weight (reply "ST,GS,kg") d)) = Some (5 # 1).
Proof.
  intro d.
  exact (empty_numeric_is_failed_read d (reply "ST,GS,kg") "ST,GS,kg" eq_refl eq_refl).
Defined.

(* --------------------------------------------------------------------- *)
(** ** Scale drivers: tare and zero *)

Section TareFacts.

Lemma lift_returned {S A} (r : exn + A) (s s' : S) (a : A) :
  lift r s = (Returned a, s') -> s' = s /\ r = inr a.
Proof. destruct r; unfold lift, raise, ret; intro H; inversion H; auto. Qed.

Lemma call_returned {S} (r : option exn) (s s' : S) (u : unit) :
  call r s = (Returned u, s') -> s' = s /\ r = None.
Proof. destruct r; unfold call, raise, ret; intro H; inversion H; auto. Qed.

Lemma configured_command_returned (name default : string) (d d' : Scale) (command : json) :
  configured_command name default d = (Returned command, d') -> d' = d.
Proof.
  unfold configured_command. intro H. steps H. gets.
  apply lift_returned in Hstep0 as [-> _]. now apply lift_returned in H as [-> _].
Qed.

Variable default_read_command : string.
Variable parse_response : string -> Scale -> option Q * Scale.

Lemma tare_true (w : option exn) (x : exchange) (d d' : Scale) :
  tare_ default_read_command parse_response w x d = (true, d') ->
  is_connected_ d = true /\ w = None
  /\ exists weight,
       read_weight_ default_read_command parse_response x d = (Some weight, d')
       /\ Qabs weight < tare_threshold.
Proof.
  unfold tare_. destruct (is_connected_ d); simpl; [|intro H; discriminate H].
  destruct (tare_try default_read_command parse_response w x d) as [[ok|e] d1] eqn:Htry;
    intro H; inversion H; subst ok d1; clear H.
  unfold tare_try in Htry. steps Htry.
  apply configured_command_returned in Hstep as ->.
  apply lift_returned in Hstep0 as [-> _].
  apply call_returned in Hstep1 as [-> ->].
  destruct (read_weight_ default_read_command parse_response x d) as [[weight|] d2].
  - destruct (Qltb (PyDecimal.abs weight) tare_threshold) eqn:Hlt; inversion Htry; subst d2.
    repeat split. exists weight. split; [reflexivity|].
    apply abs_below_hundredth. now apply Qltb_true.
  - inversion Htry.
Qed.

Lemma zero_true (w : option exn) (d d' : Scale) :
  zero_ w d = (true, d') -> d' = d /\ is_connected_ d = true /\ w = None.
Proof.
  unfold zero_. destruct (is_connected_ d); simpl; [|intro H; discriminate H].
  destruct (zero_try w d) as [[ok|e] d1] eqn:Htry; intro H; inversion H; subst ok d1; clear H.
  unfold zero_try in Htry. steps Htry.
  apply configured_command_returned in Hstep as ->.
  apply lift_returned in Hstep0 as [-> _].
  apply call_returned in Hstep1 as [-> ->].
  unfold ret in Htry. inversion Htry. auto.
Qed.

(** Two connected drivers with the same configuration read the same
    weight from the same exchange. *)
Lemma read_weight_same_answer (x : exchange) (d d2 : Scale) :
  is_connected_ d = true -> is_connected_ d2 = true -> config d2 = config d ->
  (forall r s s2, fst (parse_response r s2) = fst (parse_response r s)) ->
  fst (read_weight_ default_read_command parse_response x d2)
  = fst (read_weight_ default_read_command parse_response x d).
Proof.
  intros Hc Hc2 Hcfg Hparse. unfold read_weight_. rewrite Hc, Hc2. simpl.
  unfold read_weight_try, configured_command, bind, get, modify, lift, call, raise, ret,
    py_get, encode.
  simpl. rewrite Hcfg.
  destruct (Dict.get "commands" (config d)) as [[ | | | | | | fields]|];
    try reflexivity;
    [ destruct (Dict.get "read_weight" fields) as [[ | | | | command | | ]|] | ];
    destruct (on_reset_input_buffer x) as [[]|]; try reflexivity;
    destruct (on_write x) as [[]|]; try reflexivity;
    destruct (on_readline x) as [[]|line]; try reflexivity;
    simpl;
    (destruct (Py.nonempty (Py.strip line)); [|reflexivity]);
    match goal with
    | |- context [parse_response ?r (with_status BUSY d2)] =>
        pose proof (Hparse r (with_status BUSY d) (with_status BUSY d2)) as Hw;
        destruct (parse_response r (with_status BUSY d2)) as [[w2|] s2];
        destruct (parse_response r (with_status BUSY d)) as [[w1|] s1];
        simpl in Hw; try discriminate Hw; try reflexivity;
        inversion Hw; reflexivity
    end.
Qed.

End TareFacts.

Lemma base_tare_true (w : option exn) (x : exchange) (d d' : Scale) :
  BaseScale.tare w x d = (true, d') ->
  BaseScale.is_connected d = true
  /\ exists weight,
       BaseScale.read_weight x d = (Some weight, d') /\ Qabs weight < 10 # 1000.
Proof.
  unfold BaseScale.tare, BaseScale.is_connected, BaseScale.read_weight.
  destruct (brand d); intro H; apply tare_true in H as (Hc & _ & weight & Hr & Hlt);
    (split; [exact Hc | exists weight; split; [exact Hr | exact Hlt]]).
Qed.

Lemma base_read_weight_again (x : exchange) (d d' : Scale) (weight : Q) :
  BaseScale.is_connected d = true ->
  BaseScale.read_weight x d = (Some weight, d') ->
  _last_weight d' = Some weight /\ status d' = CONNECTED
  /\ fst (BaseScale.read_weight x d') = Some weight.
Proof.
  intros Hc Hread.
  destruct (base_read_weight_connected x d Hc)
    as [(Hnone & _) | (line & w & d1 & _ & _ & _ & Hparse & Hread')].
  - rewrite Hread in Hnone. discriminate Hnone.
  - rewrite Hread in Hread'. inversion Hread'; subst w d'. clear Hread'.
    split; [reflexivity | split; [reflexivity|]].
    assert (Hkeep : serial_connection d1 = serial_connection d /\ config d1 = config d
                    /\ brand d1 = brand d).
    { unfold BaseScale.parse_response in Hparse. destruct (brand d) eqn:Eb.
      - apply toledo_parse_keeps in Hparse as (_ & Hs & Hcfg & _ & Hb & _).
        simpl in Hs, Hcfg, Hb. rewrite Eb in Hb. auto.
      - apply filizola_parse_keeps in Hparse as (_ & Hs & Hcfg & _ & Hb & _).
        simpl in Hs, Hcfg, Hb. rewrite Eb in Hb. auto. }
    destruct Hkeep as (Hs & Hcfg & Hb).
    transitivity (fst (BaseScale.read_weight x d)); [|now rewrite Hread].
    unfold BaseScale.read_weight, BaseScale.is_connected in *. simpl. rewrite Hb.
    destruct (brand d).
    + apply read_weight_same_answer; try assumption.
      * unfold ToledoScale.is_connected, is_connected_ in *. simpl. rewrite Hs.
        destruct (serial_connection d) as [[]|]; try discriminate Hc; reflexivity.
      * intros r s s2. exact (parse_weight_any_driver Toledo r s2 s).
    + apply read_weight_same_answer; try assumption.
      * unfold FilizolaScale.is_connected, is_connected_ in *. simpl. rewrite Hs.
        destruct (serial_connection d) as [[]|]; try discriminate Hc; reflexivity.
      * intros r s s2. exact (parse_weight_any_driver Filizola r s2 s).
Qed.

(** C5, as the code has it. When [tare] returns true, the read it made
    after the command, its verification reading, returned a weight less
    than 0.010 from zero, and that weight is the driver's last weight; a
    [read_weight] that follows returns this weight again when it finds
    the same answer on the line, and only then. So [tare] returns false
    whenever the verification reading is 0.010 or more from zero. [zero]
    returns true without reading: the driver object is exactly as before,
    whatever the scale shows. *)
Theorem tare_true_only_when_verified :
  forall (d : Scale) (w : option exn) (x : exchange),
    (forall d', BaseScale.tare w x d = (true, d') ->
       exists weight,
         BaseScale.read_weight x d = (Some weight, d')
         /\ Qabs weight < 10 # 1000
         /\ _last_weight d' = Some weight
         /\ fst (BaseScale.read_weight x d') = Some weight)
    /\ (forall weight, fst (BaseScale.read_weight x d) = Some weight ->
          10 # 1000 <= Qabs weight -> fst (BaseScale.tare w x d) = false)
    /\ (forall d', BaseScale.zero w d = (true, d') -> d' = d)
    /\ (BaseScale.is_connected d = true -> Dict.get "commands" (config d) = None ->
        BaseScale.zero None d = (true, d)).
Proof.
  intros d w x. split; [|split; [|split]].
  - intros d' H. apply base_tare_true in H as (Hc & weight & Hread & Hlt).
    destruct (base_read_weight_again x d d' weight Hc Hread) as (Hlast & _ & Hagain).
    exists weight. auto.
  - intros weight Hread Hfar.
    destruct (BaseScale.tare w x d) as [[] d'] eqn:Ht; [|reflexivity].
    apply base_tare_true in Ht as (_ & weight' & Hread' & Hlt).
    rewrite Hread' in Hread. simpl in Hread. inversion Hread; subst weight'.
    exfalso. exact (Qlt_not_le _ _ Hlt Hfar).
  - intros d'. unfold BaseScale.zero, ToledoScale.zero, FilizolaScale.zero.
    destruct (brand d); intro H; now apply zero_true in H as (-> & _).
  - intros Hc Hcfg.
    unfold BaseScale.zero, BaseScale.is_connected, ToledoScale.zero, FilizolaScale.zero,
      ToledoScale.is_connected, FilizolaScale.is_connected, zero_, zero_try,
      configured_command, bind, get, lift, call, py_get, encode, ret in *.
    simpl. rewrite Hcfg. simpl.
    destruct (brand d); rewrite Hc; reflexivity.
Qed.

Lemma tare_true_only_when_verified_witness :
  let d := mkScale Toledo [] CONNECTED None None false (Some true) in
  let x := reply "ST,GS,+00000.004kg" in
  exists weight,
    BaseScale.read_weight x d = (Some weight, snd (BaseScale.tare None x d))
    /\ Qabs weight < 10 # 1000
    /\ _last_weight (snd (BaseScale.tare None x d)) = Some weight
    /\ fst (BaseScale.read_weight x (snd (BaseScale.tare None x d))) = Some weight.
Proof.
  intros d x.
  apply (proj1 (tare_true_only_when_verified d None x)).
  vm_compute. reflexivity.
Defined.

(** C5, as stated, fails: the read that follows [tare] is a new exchange
    with the scale. [tare] returns true on a verification reading of
    0.004, a load is put on the pan, and the [read_weight] made at once
    afterwards returns 5.000. *)
Lemma tare_then_read_counterexample :
  let d := mkScale Toledo [] CONNECTED None None false (Some true) in
  let tared := BaseScale.tare None (reply "ST,GS,+00000.004kg") d in
  fst tared = true
  /\ fst (BaseScale.read_weight (reply "ST,GS,+00005.000kg") (snd tared))
     = Some (5000 # 1000)
  /\ ~ Qabs (5000 # 1000) <= 10 # 1000.
Proof.
  intros d tared. split; [|split].
  - vm_compute. reflexivity.
  - vm_compute. reflexivity.
  - vm_compute. intro H. apply H. reflexivity.
Qed.

(* --------------------------------------------------------------------- *)
(** ** Text *)

Section TextFacts.

Lemma append_assoc (a b c : string) : (a ++ b) ++ c = a ++ b ++ c.
Proof. induction a as [|x a IH]; simpl; [reflexivity | now rewrite IH]. Qed.

Lemma filter_app (p : ascii -> bool) (a b : string) :
  Py.filter p (a ++ b) = Py.filter p a ++ Py.filter p b.
Proof.
  induction a as [|c a IH]; simpl; [reflexivity|].
  destruct (p c); simpl; now rewrite IH.
Qed.

Lemma filter_all (p : ascii -> bool) (s : string) :
  Py.forallb p s = true -> Py.filter p s = s.
Proof.
  induction s as [|c s IH]; simpl; intro H; [reflexivity|].
  apply andb_true_iff in H as [Hc Hs]. now rewrite Hc, IH.
Qed.

Lemma forallb_app (p : ascii -> bool) (a b : string) :
  Py.forallb p (a ++ b) = Py.forallb p a && Py.forallb p b.
Proof.
  induction a as [|c a IH]; simpl; [reflexivity|].
  now rewrite IH, andb_assoc.
Qed.

Lemma forallb_impl (p q : ascii -> bool) (s : string) :
  (forall c, p c = true -> q c = true) -> Py.forallb p s = true -> Py.forallb q s = true.
Proof.
  intro Hpq. induction s as [|c s IH]; simpl; intro H; [reflexivity|].
  apply andb_true_iff in H as [Hc Hs]. now rewrite (Hpq c Hc), IH.
Qed.

Lemma lower_app (a b : string) : Py.lower (a ++ b) = Py.lower a ++ Py.lower b.
Proof.
  unfold Py.lower. induction a as [|c a IH]; simpl; [reflexivity | now rewrite IH].
Qed.

Lemma lower_fixed (s : string) :
  Py.forallb (fun c => Ascii.eqb (Py.lower_char c) c) s = true -> Py.lower s = s.
Proof.
  unfold Py.lower. induction s as [|c s IH]; simpl; intro H; [reflexivity|].
  apply andb_true_iff in H as [Hc Hs]. apply Ascii.eqb_eq in Hc. now rewrite Hc, IH.
Qed.

Lemma prefix_self_app (n b : string) : Py.prefix n (n ++ b) = true.
Proof.
  induction n as [|c n IH]; simpl; [reflexivity|].
  now rewrite Ascii.eqb_refl, IH.
Qed.

Lemma prefix_app_l (rest : string) : forall n h : string,
  Py.prefix n h = true -> Py.prefix n (h ++ rest) = true.
Proof.
  induction n as [|a n IH]; intros [|c h]; simpl; intro H;
    try reflexivity; try discriminate H.
  apply andb_true_iff in H as [Ha Hn]. now rewrite Ha, (IH h Hn).
Qed.

Lemma contains_cons (n : string) (c : ascii) (s : string) :
  Py.contains n (String c s) = Py.prefix n (String c s) || Py.contains n s.
Proof. reflexivity. Qed.

Lemma contains_prefix (n s : string) :
  Py.prefix n s = true -> Py.contains n s = true.
Proof. intro H. destruct s; simpl Py.contains; rewrite H; reflexivity. Qed.

Lemma contains_app_l (n h rest : string) :
  Py.contains n h = true -> Py.contains n (h ++ rest) = true.
Proof.
  induction h as [|c h IH]; intro H.
  - simpl in H. rewrite orb_false_r in H.
    apply contains_prefix. now apply prefix_app_l.
  - change (String c h ++ rest) with (String c (h ++ rest)).
    rewrite contains_cons in *. apply orb_true_iff in H as [H | H].
    + apply (prefix_app_l rest) in H.
      change (String c h ++ rest) with (String c (h ++ rest)) in H.
      rewrite H. reflexivity.
    + rewrite (IH H). apply orb_true_r.
Qed.

Lemma contains_app_r (n h rest : string) : Py.contains n (h ++ n ++ rest) = true.
Proof.
  induction h as [|c h IH].
  - change (EmptyString ++ n ++ rest) with (n ++ rest).
    apply contains_prefix. apply prefix_self_app.
  - change (String c h ++ n ++ rest) with (String c (h ++ n ++ rest)).
    rewrite contains_cons, IH. apply orb_true_r.
Qed.

Lemma foreign_tail (a : ascii) (n rest : string) :
  Py.foreign (String a n) rest = true -> Py.foreign n rest = true.
Proof.
  unfold Py.foreign. apply forallb_impl. intros c. simpl.
  rewrite negb_orb. intro H. now apply andb_true_iff in H as [_ H].
Qed.

Lemma prefix_foreign_nil (a : ascii) (n rest : string) :
  Py.foreign (String a n) rest = true -> Py.prefix (String a n) rest = false.
Proof.
  destruct rest as [|r rest']; intro Hf; simpl; [reflexivity|].
  unfold Py.foreign in Hf. simpl in Hf.
  destruct (Ascii.eqb a r) eqn:E; [|reflexivity].
  apply Ascii.eqb_eq in E. subst r. rewrite Ascii.eqb_refl in Hf. discriminate Hf.
Qed.

Lemma prefix_foreign (rest : string) : forall n h : string,
  Py.foreign n rest = true -> Py.prefix n (h ++ rest) = Py.prefix n h.
Proof.
  induction n as [|a n IH]; intros h Hf; [reflexivity|].
  destruct h as [|c h].
  - change (EmptyString ++ rest) with rest. now rewrite prefix_foreign_nil.
  - change (String c h ++ rest) with (String c (h ++ rest)). simpl.
    now rewrite (IH h (foreign_tail _ _ _ Hf)).
Qed.

Lemma contains_foreign_nil (a : ascii) (n : string) : forall rest : string,
  Py.foreign (String a n) rest = true -> Py.contains (String a n) rest = false.
Proof.
  induction rest as [|c r IH]; intro H; [reflexivity|].
  rewrite contains_cons, (prefix_foreign_nil _ _ _ H).
  unfold Py.foreign in H. simpl in H. apply andb_true_iff in H as [_ Hr].
  now rewrite (IH Hr).
Qed.

Lemma contains_foreign (n h rest : string) :
  n <> "" -> Py.foreign n rest = true -> Py.contains n (h ++ rest) = Py.contains n h.
Proof.
  intros Hn Hf. destruct n as [|a n]; [contradiction|]. clear Hn.
  induction h as [|c h IH].
  - change (EmptyString ++ rest) with rest. now rewrite contains_foreign_nil.
  - change (String c h ++ rest) with (String c (h ++ rest)).
    rewrite !contains_cons, IH.
    change (String c (h ++ rest)) with (String c h ++ rest).
    now rewrite (prefix_foreign rest (String a n) (String c h) Hf).
Qed.

Lemma split_from_plain (sep : ascii) (t : string) : forall cur : string,
  Py.forallb (fun c => negb (Ascii.eqb c sep)) t = true ->
  Py.split_from sep cur t = [Py.rev_append cur t].
Proof.
  induction t as [|c t IH]; intros cur H; simpl; [reflexivity|].
  simpl in H. apply andb_true_iff in H as [Hc Ht].
  apply negb_true_iff in Hc. rewrite Hc. now rewrite IH.
Qed.

Lemma split_from_nonempty (sep : ascii) (s : string) : forall cur,
  Py.split_from sep cur s <> [].
Proof.
  induction s as [|c s IH]; intro cur; simpl; [discriminate|].
  destruct (Ascii.eqb c sep); [discriminate | apply IH].
Qed.

Lemma split_last_field (sep : ascii) (t : string) : forall h cur : string,
  Py.forallb (fun c => negb (Ascii.eqb c sep)) t = true ->
  List.last (Py.split_from sep cur (h ++ String sep t)) "" = t.
Proof.
  intros h cur Ht. revert cur.
  induction h as [|c h IH]; intro cur; simpl.
  - rewrite Ascii.eqb_refl, (split_from_plain sep t "" Ht). reflexivity.
  - destruct (Ascii.eqb c sep).
    + specialize (IH ""). pose proof (split_from_nonempty sep (h ++ String sep t) "") as Hne.
      destruct (Py.split_from sep "" (h ++ String sep t)); [contradiction | exact IH].
    + apply IH.
Qed.

Lemma prefix_cons (a b : ascii) (p s : string) :
  Py.prefix (String a p) (String b s) = Ascii.eqb a b && Py.prefix p s.
Proof. reflexivity. Qed.

Lemma remove_from_cons (old : string) (c : ascii) (r : string) :
  Py.remove_from old 0 (String c r)
  = if Py.prefix old (String c r)
    then Py.remove_from old (String.length old - 1) r
    else String c (Py.remove_from old 0 r).
Proof. reflexivity. Qed.

Lemma remove_kg (lit : string) :
  Py.forallb (fun c => negb (Ascii.eqb c "k")) lit = true ->
  Py.remove "kg" (lit ++ "kg") = lit.
Proof.
  unfold Py.remove. induction lit as [|c lit IH]; intro H; [reflexivity|].
  simpl in H. apply andb_true_iff in H as [Hc Hl]. apply negb_true_iff in Hc.
  change (String c lit ++ "kg") with (String c (lit ++ "kg")).
  rewrite remove_from_cons, prefix_cons, Ascii.eqb_sym, Hc. cbn [andb].
  now rewrite (IH Hl).
Qed.

Lemma dropwhile_app (p : ascii -> bool) (a : string) (c : ascii) (b : string) :
  Py.forallb p a = true -> p c = false ->
  Py.dropwhile p (a ++ String c b) = String c b.
Proof.
  intros Ha Hc. induction a as [|x a IH]; simpl.
  - now rewrite Hc.
  - simpl in Ha. apply andb_true_iff in Ha as [Hx Ha]. rewrite Hx. now apply IH.
Qed.

End TextFacts.

(* --------------------------------------------------------------------- *)
(** ** Characters and numbers of the vendors' formats *)

Section GrammarFacts.

Import VendorGrammar.

(** Case analysis over the 256 characters. *)
Ltac every_char c :=
  let H := fresh "H" in
  destruct c as [[] [] [] [] [] [] [] []]; vm_compute; intro H;
  try discriminate H; repeat split.

Lemma numeric_char_facts (c : ascii) :
  numeric_char c = true ->
  negb (Ascii.eqb c ",") = true /\ negb (Ascii.eqb c "k") = true
  /\ (Py.isdigit c || Py.mem c ".-+") = true /\ tail_char c = true.
Proof. every_char c. Qed.

Lemma tail_char_facts (c : ascii) :
  tail_char c = true ->
  Ascii.eqb (Py.lower_char c) c = true
  /\ negb (Py.mem c "ST") = true /\ negb (Py.mem c "stable") = true.
Proof. every_char c. Qed.

Lemma digit_facts (c : ascii) :
  Py.is_decimal_digit c = true ->
  numeric_char c = true /\ Py.mem c "SW+-" = false
  /\ (Py.isdigit c || Ascii.eqb c ".") = true
  /\ Ascii.eqb c "-" = false /\ Ascii.eqb c "+" = false
  /\ negb (Ascii.eqb (Py.lower_char c) "t") = true.
Proof. every_char c. Qed.

Lemma prefix_char_facts (c : ascii) :
  Py.mem c "SW+-" = true -> negb (Ascii.eqb (Py.lower_char c) "t") = true.
Proof. every_char c. Qed.

Lemma digits_numeric (s : string) :
  digits s = true -> Py.forallb numeric_char s = true.
Proof. apply forallb_impl. intros c H. now apply digit_facts in H as [H _]. Qed.

Lemma number_numeric (s : sign) (ip fp : string) :
  digits ip = true -> digits fp = true ->
  Py.forallb numeric_char (sign_text s ++ number ip fp) = true.
Proof.
  intros Hi Hf. unfold number.
  rewrite !forallb_app, (digits_numeric ip Hi). simpl.
  rewrite (digits_numeric fp Hf). destruct s; reflexivity.
Qed.

Lemma span_digits_app (ip : string) (c : ascii) (r : string) :
  digits ip = true -> Py.is_decimal_digit c = false ->
  PyDecimal.span_digits (ip ++ String c r) = (ip, String c r).
Proof.
  intros Hi Hc. induction ip as [|a ip IH]; simpl.
  - now rewrite Hc.
  - simpl in Hi. apply andb_true_iff in Hi as [Ha Hi]. now rewrite Ha, (IH Hi).
Qed.

Lemma unsigned_number (negative : bool) (ip fp : string) :
  digits ip = true -> digits fp = true -> ip <> "" ->
  PyDecimal.unsigned negative (number ip fp) = Some (value negative ip fp).
Proof.
  intros Hi Hf Hne. unfold PyDecimal.unsigned, number.
  change ("." ++ fp) with (String "." fp).
  rewrite (span_digits_app ip "." fp Hi eq_refl).
  unfold digits in Hf. rewrite Hf. destruct ip; [contradiction | reflexivity].
Qed.

Lemma parse_number (s : sign) (ip fp : string) :
  digits ip = true -> digits fp = true -> ip <> "" ->
  PyDecimal.parse (sign_text s ++ number ip fp) = Some (value (is_minus s) ip fp).
Proof.
  intros Hi Hf Hne. destruct s.
  - change (sign_text NoSign ++ number ip fp) with (number ip fp).
    change (is_minus NoSign) with false.
    rewrite <- (unsigned_number false ip fp Hi Hf Hne).
    destruct ip as [|a ip]; [contradiction|].
    simpl in Hi. apply andb_true_iff in Hi as [Ha _].
    apply digit_facts in Ha as (_ & _ & _ & Hm & Hp & _).
    unfold number.
    change (String a ip ++ "." ++ fp) with (String a (ip ++ "." ++ fp)).
    unfold PyDecimal.parse. now rewrite Hm, Hp.
  - exact (unsigned_number false ip fp Hi Hf Hne).
  - exact (unsigned_number true ip fp Hi Hf Hne).
Qed.

Lemma number_nonempty (s : sign) (ip fp : string) :
  Py.nonempty (sign_text s ++ number ip fp) = true.
Proof. destruct s, ip; reflexivity. Qed.

(** The Toledo parser on a response of the Toledo format. *)
Lemma toledo_parse (response header : string) (s : sign) (ip fp : string) (d : Scale) :
  digits ip = true -> digits fp = true -> ip <> "" ->
  ToledoScale.clean_response response = toledo header s ip fp ->
  ToledoScale._parse_toledo_response response d
  = (Some (value (is_minus s) ip fp),
     with_is_stable (Py.contains "ST" header || Py.contains "stable" (Py.lower header)) d).
Proof.
  intros Hi Hf Hne Hclean.
  pose proof (number_numeric s ip fp Hi Hf) as Hnum.
  set (lit := sign_text s ++ number ip fp) in *.
  assert (Hshape : toledo header s ip fp = header ++ String "," (lit ++ "kg")).
  { unfold toledo, lit. now rewrite append_assoc. }
  assert (Hws : ToledoScale.weight_str response = lit).
  { unfold ToledoScale.weight_str. rewrite Hclean, Hshape. unfold Py.split.
    rewrite split_last_field.
    - rewrite remove_kg.
      + apply filter_all. revert Hnum. apply forallb_impl.
        intros c H. now apply numeric_char_facts in H as (_ & _ & H & _).
      + revert Hnum. apply forallb_impl.
        intros c H. now apply numeric_char_facts in H as (_ & H & _).
    - rewrite forallb_app. simpl. rewrite andb_true_r. revert Hnum. apply forallb_impl.
      intros c H. now apply numeric_char_facts in H as (H & _). }
  assert (Htail : Py.forallb tail_char (String "," (lit ++ "kg")) = true).
  { simpl. rewrite forallb_app. simpl. rewrite andb_true_r. revert Hnum.
    apply forallb_impl. intros c H. now apply numeric_char_facts in H as (_ & _ & _ & H). }
  assert (Hstable : ToledoScale.stable_marker response
                    = Py.contains "ST" header || Py.contains "stable" (Py.lower header)).
  { unfold ToledoScale.stable_marker. rewrite Hclean, Hshape, lower_app.
    rewrite (lower_fixed (String "," (lit ++ "kg"))).
    - rewrite !contains_foreign; try reflexivity; try discriminate;
        unfold Py.foreign; revert Htail; apply forallb_impl; intros c H;
        now apply tail_char_facts in H as (_ & H1 & H2).
    - revert Htail. apply forallb_impl. intros c H.
      now apply tail_char_facts in H as (H & _). }
  unfold ToledoScale._parse_toledo_response.
  rewrite Hws, Hstable. unfold lit. rewrite number_nonempty, parse_number by assumption.
  rewrite Hclean. unfold toledo.
  replace (header ++ "," ++ sign_text s ++ number ip fp ++ "kg")
    with ((header ++ "," ++ sign_text s ++ number ip fp) ++ "kg" ++ "").
  - now rewrite contains_app_r.
  - now rewrite !append_assoc.
Qed.

Lemma contains_stable_needs_t (s : string) :
  Py.forallb (fun c => negb (Ascii.eqb c "t")) s = true -> Py.contains "stable" s = false.
Proof.
  induction s as [|c s IH]; intro H; [reflexivity|].
  simpl in H. apply andb_true_iff in H as [_ Hs].
  rewrite contains_cons, (IH Hs), orb_false_r.
  rewrite prefix_cons. destruct (Ascii.eqb "s" c); [|reflexivity].
  destruct s as [|c' s']; [reflexivity|].
  simpl in Hs. apply andb_true_iff in Hs as [Hc' _]. apply negb_true_iff in Hc'.
  rewrite prefix_cons, Ascii.eqb_sym, Hc'. reflexivity.
Qed.

(** The Filizola parser on a response of the Filizola format. *)
Lemma filizola_parse (response p ip fp : string) (d : Scale) :
  filizola_prefix p = true -> digits ip = true -> digits fp = true -> ip <> "" ->
  FilizolaScale.clean_response response = filizola p ip fp ->
  FilizolaScale._parse_filizola_response response d
  = (Some (value false ip fp), with_is_stable (Py.startswith p "S") d).
Proof.
  intros Hp Hi Hf Hne Hclean.
  assert (Hfirst : exists a ip', ip = String a ip' /\ Py.is_decimal_digit a = true).
  { destruct ip as [|a ip']; [contradiction|]. exists a, ip'. split; [reflexivity|].
    simpl in Hi. now apply andb_true_iff in Hi as [Ha _]. }
  destruct Hfirst as (a & ip' & Hip & Ha).
  assert (Hd : forall t, digits t = true ->
                 Py.forallb (fun c => Py.isdigit c || Ascii.eqb c ".") t = true).
  { intro t. apply forallb_impl. intros c H.
    now apply digit_facts in H as (_ & _ & H & _). }
  assert (Hnumtxt : Py.forallb (fun c => Py.isdigit c || Ascii.eqb c ".") (number ip fp) = true).
  { unfold number. rewrite !forallb_app, (Hd ip Hi), (Hd fp Hf). reflexivity. }
  assert (Hnumbers : FilizolaScale.numbers response = number ip fp).
  { unfold FilizolaScale.numbers, Py.lstrip. rewrite Hclean. unfold filizola.
    rewrite <- (filter_all _ _ Hnumtxt) at 2. f_equal.
    unfold number. rewrite Hip.
    change (String a ip' ++ "." ++ fp) with (String a (ip' ++ "." ++ fp)).
    apply dropwhile_app; [exact Hp|].
    now apply digit_facts in Ha as (_ & Hm & _). }
  assert (Hmap : forall (q : ascii -> bool) t,
            (forall c, q c = true -> negb (Ascii.eqb (Py.lower_char c) "t") = true) ->
            Py.forallb q t = true ->
            Py.forallb (fun c => negb (Ascii.eqb c "t")) (Py.lower t) = true).
  { intros q t Hq. unfold Py.lower.
    induction t as [|c t IHt]; simpl; intro H; [reflexivity|].
    apply andb_true_iff in H as [Hc Ht]. now rewrite (Hq c Hc), IHt. }
  assert (Hstable : FilizolaScale.stable_marker response = Py.startswith p "S").
  { unfold FilizolaScale.stable_marker. rewrite Hclean.
    rewrite contains_stable_needs_t.
    - rewrite orb_false_r. unfold filizola, Py.startswith, number.
      destruct p as [|c p']; [|reflexivity]. rewrite Hip.
      change (EmptyString ++ String a ip' ++ "." ++ fp) with (String a (ip' ++ "." ++ fp)).
      rewrite prefix_cons.
      destruct (Ascii.eqb "S" a) eqn:E; [|reflexivity].
      apply Ascii.eqb_eq in E. subst a. discriminate Ha.
    - unfold filizola, number. rewrite !lower_app, !forallb_app.
      rewrite (Hmap _ p prefix_char_facts Hp).
      rewrite (Hmap Py.is_decimal_digit ip
                 (fun c H => proj2 (proj2 (proj2 (proj2 (proj2 (digit_facts c H)))))) Hi).
      rewrite (Hmap Py.is_decimal_digit fp
                 (fun c H => proj2 (proj2 (proj2 (proj2 (proj2 (digit_facts c H)))))) Hf).
      reflexivity. }
  unfold FilizolaScale._parse_filizola_response.
  rewrite Hnumbers, Hstable.
  pose proof (parse_number NoSign ip fp Hi Hf Hne) as Hparse. simpl in Hparse.
  rewrite Hparse. pose proof (number_nonempty NoSign ip fp) as Hn. simpl in Hn.
  now rewrite Hn.
Qed.

End GrammarFacts.

Section ReplyFacts.

Variable default_read_command : string.
Variable parse_response : string -> Scale -> option Q * Scale.

(** A connected driver whose command is configured, on a line its parser
    accepts. *)
Lemma read_weight_reply (x : exchange) (d d1 : Scale) (line : string) (w : Q) :
  is_connected_ d = true -> command_configured "read_weight" d = true ->
  BaseScale.transport_failed x = false -> on_readline x = inr line ->
  Py.nonempty (Py.strip line) = true ->
  parse_response (Py.strip line) (with_status BUSY d) = (Some w, d1) ->
  read_weight_ default_read_command parse_response x d
  = (Some w, with_status CONNECTED (with_last_weight (Some w) d1)).
Proof.
  intros Hc Hcmd Hx Hline Hne Hparse.
  unfold read_weight_. rewrite Hc. simpl.
  unfold read_weight_try, configured_command, bind, get, modify, lift, call, raise, ret,
    py_get, encode, BaseScale.transport_failed, command_configured in *.
  simpl.
  destruct (on_reset_input_buffer x); [discriminate Hx|].
  destruct (on_write x); [discriminate Hx|].
  rewrite Hline.
  destruct (Dict.get "commands" (config d)) as [[ | | | | | | fields]|];
    try discriminate Hcmd;
    [ destruct (Dict.get "read_weight" fields) as [[ | | | | command | | ]|];
      try discriminate Hcmd | ];
    simpl; rewrite Hne, Hparse; reflexivity.
Qed.

End ReplyFacts.

Lemma base_read_weight_reply (x : exchange) (d d1 : Scale) (line : string) (w : Q) :
  BaseScale.is_connected d = true -> command_configured "read_weight" d = true ->
  BaseScale.transport_failed x = false -> on_readline x = inr line ->
  Py.nonempty (Py.strip line) = true ->
  BaseScale.parse_response (brand d) (Py.strip line) (with_status BUSY d) = (Some w, d1) ->
  BaseScale.read_weight x d
  = (Some w, with_status CONNECTED (with_last_weight (Some w) d1)).
Proof.
  unfold BaseScale.is_connected, BaseScale.read_weight, BaseScale.parse_response.
  destruct (brand d); intros; now apply read_weight_reply with (line := line).
Qed.

Lemma filter_nonempty (p : ascii -> bool) (s : string) :
  Py.nonempty (Py.filter p s) = true -> Py.nonempty s = true.
Proof. destruct s; [intro H; discriminate H | reflexivity]. Qed.

(** C2, as the code has it. A connected driver, its read command
    configured, the serial calls returning, and the line, stripped and
    without its unprintable characters, of the vendor's format, with a
    number of at least one digit before the point. Toledo
    ([header,<sign>digits.digits kg]): [read_weight] returns the value of
    the number with its sign, and the stability flag is set exactly when
    the header holds [ST] or, in any case, [stable]. Filizola (prefix
    characters among [S], [W], [+], [-], then [digits.digits]):
    [read_weight] returns the value of the digits, without a sign whatever
    the prefix, and the flag is set exactly when the response starts with
    [S]. In both cases the weight is recorded as the last weight and the
    status is Connected. The Toledo response ["ST,GS,+00012.345kg"] yields
    12.345 with the flag set. *)
Theorem vendor_response_parsed :
  forall (d : Scale) (x : exchange) (line : string),
    BaseScale.is_connected d = true ->
    command_configured "read_weight" d = true ->
    BaseScale.transport_failed x = false ->
    on_readline x = inr line ->
    let result := BaseScale.read_weight x d in
    (forall header s int_part fraction,
       brand d = Toledo ->
       VendorGrammar.digits int_part = true -> VendorGrammar.digits fraction = true ->
       int_part <> "" ->
       ToledoScale.clean_response (Py.strip line)
         = VendorGrammar.toledo header s int_part fraction ->
       fst result = Some (VendorGrammar.value (VendorGrammar.is_minus s) int_part fraction)
       /\ _is_stable (snd result)
          = (Py.contains "ST" header || Py.contains "stable" (Py.lower header))
       /\ _last_weight (snd result) = fst result
       /\ status (snd result) = CONNECTED)
    /\ (forall p int_part fraction,
          brand d = Filizola ->
          VendorGrammar.filizola_prefix p = true ->
          VendorGrammar.digits int_part = true -> VendorGrammar.digits fraction = true ->
          int_part <> "" ->
          FilizolaScale.clean_response (Py.strip line)
            = VendorGrammar.filizola p int_part fraction ->
          fst result = Some (VendorGrammar.value false int_part fraction)
          /\ _is_stable (snd result) = Py.startswith p "S"
          /\ _last_weight (snd result) = fst result
          /\ status (snd result) = CONNECTED)
    /\ (brand d = Toledo -> line = "ST,GS,+00012.345kg" ->
        fst result = Some (12345 # 1000) /\ _is_stable (snd result) = true).
Proof.
  intros d x line Hc Hcmd Hx Hline result.
  assert (Htoledo : forall header s int_part fraction,
    brand d = Toledo ->
    VendorGrammar.digits int_part = true -> VendorGrammar.digits fraction = true ->
    int_part <> "" ->
    ToledoScale.clean_response (Py.strip line)
      = VendorGrammar.toledo header s int_part fraction ->
    fst result = Some (VendorGrammar.value (VendorGrammar.is_minus s) int_part fraction)
    /\ _is_stable (snd result)
       = (Py.contains "ST" header || Py.contains "stable" (Py.lower header))
    /\ _last_weight (snd result) = fst result
    /\ status (snd result) = CONNECTED).
  { intros header s ip fp Hb Hi Hf Hne Hclean. subst result.
    assert (Hnonempty : Py.nonempty (Py.strip line) = true).
    { apply (filter_nonempty Py.isprintable). unfold ToledoScale.clean_response in Hclean.
      rewrite Hclean. unfold VendorGrammar.toledo. destruct header; reflexivity. }
    rewrite (base_read_weight_reply x d _ line _ Hc Hcmd Hx Hline Hnonempty
               ltac:(rewrite Hb; apply (toledo_parse _ header s ip fp); assumption)).
    simpl. repeat split. }
  split; [exact Htoledo | split].
  - intros p ip fp Hb Hp Hi Hf Hne Hclean. subst result.
    assert (Hnonempty : Py.nonempty (Py.strip line) = true).
    { apply (filter_nonempty Py.isprintable). unfold FilizolaScale.clean_response in Hclean.
      rewrite Hclean. unfold VendorGrammar.filizola, VendorGrammar.number.
      destruct p; [destruct ip; [contradiction | reflexivity] | reflexivity]. }
    rewrite (base_read_weight_reply x d _ line _ Hc Hcmd Hx Hline Hnonempty
               ltac:(rewrite Hb; apply (filizola_parse _ p ip fp); assumption)).
    simpl. repeat split.
  - intros Hb ->.
    destruct (Htoledo "ST,GS" VendorGrammar.Plus "00012" "345" Hb eq_refl eq_refl
                ltac:(discriminate) eq_refl) as (Hw & Hs & _).
    split; [exact Hw | exact Hs].
Qed.

Lemma vendor_response_parsed_witness :
  let toledo := mkScale Toledo [] CONNECTED None None false (Some true) in
  let filizola := mkScale Filizola [] CONNECTED None None true (Some true) in
  (fst (BaseScale.read_weight (reply "ST,GS,+00012.345kg") toledo) = Some (12345 # 1000)
   /\ _is_stable (snd (BaseScale.read_weight (reply "ST,GS,+00012.345kg") toledo)) = true)
  /\ (let result := BaseScale.read_weight (reply "US,NT,-00000.250kg") toledo in
      fst result = Some (-250 # 1000) /\ _is_stable (snd result) = false
      /\ _last_weight (snd result) = fst result /\ status (snd result) = CONNECTED)
  /\ (let result := BaseScale.read_weight (reply "W001.250") filizola in
      fst result = Some (1250 # 1000) /\ _is_stable (snd result) = false
      /\ _last_weight (snd result) = fst result /\ status (snd result) = CONNECTED).
Proof.
  intros toledo filizola. split; [|split].
  - exact (proj2 (proj2 (vendor_response_parsed toledo (reply "ST,GS,+00012.345kg")
                           "ST,GS,+00012.345kg" eq_refl eq_refl eq_refl eq_refl))
             eq_refl eq_refl).
  - exact (proj1 (vendor_response_parsed toledo (reply "US,NT,-00000.250kg")
                    "US,NT,-00000.250kg" eq_refl eq_refl eq_refl eq_refl)
             "US,NT" VendorGrammar.Minus "00000" "250"
             eq_refl eq_refl eq_refl ltac:(discriminate) eq_refl).
  - exact (proj1 (proj2 (vendor_response_parsed filizola (reply "W001.250")
                           "W001.250" eq_refl eq_refl eq_refl eq_refl))
             "W" "001" "250" eq_refl eq_refl eq_refl eq_refl ltac:(discriminate) eq_refl).
Defined.

(** C2, as stated, fails for a Filizola response with a minus sign: the
    number in ["-001.250"] is -1.250, and the driver, which strips the
    sign with the other prefix characters, returns 1.250. *)
Lemma filizola_sign_counterexample :
  let d := mkScale Filizola [] CONNECTED None None false (Some true) in
  PyDecimal.parse "-001.250" = Some (-1250 # 1000)
  /\ fst (BaseScale.read_weight (reply "-001.250") d) = Some (1250 # 1000)
  /\ ~ (1250 # 1000 == -1250 # 1000).
Proof.
  intro d. split; [reflexivity | split; [reflexivity|]].
  intro H. discriminate H.
Qed.

(* --------------------------------------------------------------------- *)
(** ** Waiting for a stable weight *)

Section WaitFacts.

Import BaseScale.
Local Open Scope Z_scope.

Lemma wait_loop_expired (fuel : nat) (polls : nat -> poll) (start tmo now : Z) (d : Scale) :
  (now - start <? tmo) = false ->
  wait_loop fuel polls start tmo now d = Some (None, d, now).
Proof. intro H. destruct fuel; simpl; rewrite H; reflexivity. Qed.

Lemma wait_loop_turn (fuel : nat) (polls : nat -> poll) (start tmo now : Z) (d : Scale) :
  (now - start <? tmo) = true ->
  wait_loop (S fuel) polls start tmo now d
  = if stable_at polls d O
    then Some (weight_at polls d O, driver_at polls d 1,
               now + Z.of_N (read_ms (polls O)))
    else wait_loop fuel (later polls) start tmo
           (now + Z.of_N (read_ms (polls O)) + sleep_ms (polls O)) (driver_at polls d 1).
Proof.
  intro H. simpl. rewrite H. unfold stable_at, weight_at. simpl.
  destruct (read_weight (serial (polls O)) d) as [[w|] d']; simpl; [|reflexivity].
  destruct (is_weight_stable d'); reflexivity.
Qed.

Lemma sleep_ms_lower (p : poll) : 100 <= sleep_ms p.
Proof. unfold sleep_ms, poll_interval_ms. lia. Qed.

Lemma clock_at_lower (i : nat) : forall (polls : nat -> poll) (now : Z),
  now + 100 * Z.of_nat i <= clock_at polls now i.
Proof.
  induction i as [|i IH]; intros polls now.
  - simpl. lia.
  - change (clock_at polls now (S i))
      with (clock_at (later polls)
              (now + Z.of_N (read_ms (polls O)) + sleep_ms (polls O)) i).
    specialize (IH (later polls) (now + Z.of_N (read_ms (polls O)) + sleep_ms (polls O))).
    pose proof (sleep_ms_lower (polls O)). lia.
Qed.

(** The loop ends: each turn moves the clock by a poll interval at least. *)
Lemma wait_loop_ends (fuel : nat) : forall (polls : nat -> poll) (start tmo now : Z) (d : Scale),
  tmo - (now - start) <= 100 * Z.of_nat fuel ->
  exists r, wait_loop fuel polls start tmo now d = Some r.
Proof.
  induction fuel as [|fuel IH]; intros polls start tmo now d Hfuel.
  - exists (None, d, now). apply wait_loop_expired. apply Z.ltb_ge. lia.
  - destruct (now - start <? tmo) eqn:E.
    + rewrite (wait_loop_turn _ _ _ _ _ _ E).
      destruct (stable_at polls d O); [eexists; reflexivity|].
      apply IH. pose proof (sleep_ms_lower (polls O)). lia.
    + eexists. apply wait_loop_expired. exact E.
Qed.

(** No turn is stable: the loop returns null, once the timeout has
    elapsed and within the longest turn (a read and a sleep) of it. *)
Lemma wait_loop_never_stable (fuel : nat) :
  forall (polls : nat -> poll) (start tmo now : Z) (d : Scale) (longest : Z),
    (forall i, stable_at polls d i = false) ->
    (forall i, Z.of_N (read_ms (polls i)) + sleep_ms (polls i) <= longest) ->
    tmo - (now - start) <= 100 * Z.of_nat fuel ->
    now - start < Z.max 0 tmo + longest ->
    exists d' t,
      wait_loop fuel polls start tmo now d = Some (None, d', t)
      /\ tmo <= t - start /\ t - start < Z.max 0 tmo + longest.
Proof.
  induction fuel as [|fuel IH]; intros polls start tmo now d longest Hun Hms Hfuel Hnow.
  - exists d, now. split; [apply wait_loop_expired; apply Z.ltb_ge; lia | lia].
  - destruct (now - start <? tmo) eqn:E.
    + rewrite (wait_loop_turn _ _ _ _ _ _ E), (Hun O).
      apply Z.ltb_lt in E. pose proof (Hms O) as H0.
      apply IH.
      * intro i. exact (Hun (S i)).
      * intro i. exact (Hms (S i)).
      * pose proof (sleep_ms_lower (polls O)). lia.
      * lia.
    + exists d, now. split; [now apply wait_loop_expired|].
      apply Z.ltb_ge in E. lia.
Qed.

(** The first stable turn, begun before the timeout, is the one returned. *)
Lemma wait_loop_first_stable (k : nat) :
  forall (fuel : nat) (polls : nat -> poll) (start tmo now : Z) (d : Scale),
    (forall i, (i < k)%nat -> stable_at polls d i = false) ->
    stable_at polls d k = true ->
    clock_at polls now k - start < tmo ->
    (k < fuel)%nat ->
    wait_loop fuel polls start tmo now d
    = Some (weight_at polls d k, driver_at polls d (S k),
            clock_at polls now k + Z.of_N (read_ms (polls k))).
Proof.
  induction k as [|k IH]; intros fuel polls start tmo now d Hbefore Hk Hclock Hfuel;
    (destruct fuel as [|fuel]; [lia|]).
  - simpl in Hclock. apply Z.ltb_lt in Hclock.
    rewrite (wait_loop_turn _ _ _ _ _ _ Hclock), Hk. reflexivity.
  - pose proof (clock_at_lower (S k) polls now) as Hlow.
    assert (E : (now - start <? tmo) = true) by (apply Z.ltb_lt; lia).
    rewrite (wait_loop_turn _ _ _ _ _ _ E), (Hbefore O ltac:(lia)).
    apply (IH fuel (later polls)).
    + intros i Hi. exact (Hbefore (S i) ltac:(lia)).
    + exact Hk.
    + exact Hclock.
    + lia.
Qed.

End WaitFacts.

(** C9, as the code has it. With the clock in milliseconds, moved by the
    time that passes and by nothing else, and [time.sleep(0.1)] taking
    100 of them at least:
    [wait_for_stable_weight(timeout)] ends within [10 * timeout] turns.
    When no turn reads a weight with the stability flag set, it returns
    null, not before the timeout has elapsed and less than the longest
    turn of the loop (one [read_weight] call and the sleep that follows
    it) after it. When turn [k] is the first to read a weight with the
    flag set and begins before the timeout, that weight is returned. *)
Theorem wait_for_stable_weight_ends :
  forall (polls : nat -> BaseScale.poll) (timeout start : Z) (d : Scale),
    let run := BaseScale.wait_for_stable_weight
                 (BaseScale.enough_fuel timeout) polls timeout start d in
    (exists r, run = Some r)
    /\ (forall longest : Z,
          (forall i, BaseScale.stable_at polls d i = false) ->
          (forall i, (Z.of_N (BaseScale.read_ms (polls i)) + BaseScale.sleep_ms (polls i)
                      <= longest)%Z) ->
          exists d' t,
            run = Some (None, d', t)
            /\ (1000 * timeout <= t - start)%Z
            /\ (t - start < Z.max 0 (1000 * timeout) + longest)%Z)
    /\ (forall (k : nat) (w : Q),
          (forall i, (i < k)%nat -> BaseScale.stable_at polls d i = false) ->
          BaseScale.stable_at polls d k = true ->
          BaseScale.weight_at polls d k = Some w ->
          (BaseScale.clock_at polls start k - start < 1000 * timeout)%Z ->
          exists d' t, run = Some (Some w, d', t)).
Proof.
  intros polls timeout start d run. subst run.
  unfold BaseScale.wait_for_stable_weight, BaseScale.enough_fuel.
  split; [|split].
  - apply wait_loop_ends. lia.
  - intros longest Hun Hms. pose proof (Hms O) as H0.
    pose proof (sleep_ms_lower (polls O)) as Hsleep.
    apply wait_loop_never_stable; try assumption; lia.
  - intros k w Hbefore Hk Hw Hclock.
    pose proof (clock_at_lower k polls start) as Hlow.
    assert (Hfuel : (k < Z.to_nat (10 * timeout))%nat) by lia.
    rewrite (wait_loop_first_stable k _ polls start (1000 * timeout)%Z start d
               Hbefore Hk Hclock Hfuel).
    rewrite Hw. eexists. eexists. reflexivity.
Qed.

(** A Toledo driver that has just read the unstable weight 1.000 reads
    it again and again without change. *)
Lemma unstable_driver_steady (ms late : N) (i : nat) :
  let d := mkScale Toledo [] CONNECTED None (Some (1000 # 1000)) false (Some true) in
  let polls := fun _ : nat => BaseScale.mkPoll (reply "US,GS,+00001.000kg") ms late in
  BaseScale.driver_at polls d i = d /\ BaseScale.stable_at polls d i = false.
Proof.
  intros d polls.
  assert (Hread : BaseScale.read_weight (reply "US,GS,+00001.000kg") d
                  = (Some (1000 # 1000), d)) by (vm_compute; reflexivity).
  assert (Hd : forall j, BaseScale.driver_at polls d j = d).
  { induction j as [|j IH]; [reflexivity|].
    change (BaseScale.driver_at polls d (S j))
      with (BaseScale.driver_at polls
              (snd (BaseScale.read_weight (reply "US,GS,+00001.000kg") d)) j).
    rewrite Hread. exact IH. }
  split; [apply Hd|].
  unfold BaseScale.stable_at, BaseScale.weight_at. rewrite !Hd.
  change (BaseScale.serial (polls i)) with (reply "US,GS,+00001.000kg").
  rewrite Hread. reflexivity.
Qed.

Lemma wait_for_stable_weight_ends_witness :
  let d := mkScale Toledo [] CONNECTED None (Some (1000 # 1000)) false (Some true) in
  let unstable := fun _ : nat => BaseScale.mkPoll (reply "US,GS,+00001.000kg") 20 3 in
  let settling := fun i : nat =>
    BaseScale.mkPoll (reply (if Nat.eqb i 0 then "US,GS,+00001.000kg"
                             else "ST,GS,+00001.250kg")) 20 3 in
  (exists d' t,
     BaseScale.wait_for_stable_weight (BaseScale.enough_fuel 1) unstable 1 0 d
       = Some (None, d', t)
     /\ (1000 * 1 <= t - 0)%Z /\ (t - 0 < Z.max 0 (1000 * 1) + 123)%Z)
  /\ (exists d' t,
        BaseScale.wait_for_stable_weight (BaseScale.enough_fuel 1) settling 1 0 d
          = Some (Some (1250 # 1000), d', t)).
Proof.
  intros d unstable settling. split.
  - apply (proj1 (proj2 (wait_for_stable_weight_ends unstable 1 0 d)) 123%Z).
    + intro i. exact (proj2 (unstable_driver_steady 20 3 i)).
    + intro i. vm_compute. discriminate.
  - apply (proj2 (proj2 (wait_for_stable_weight_ends settling 1 0 d)) 1%nat (1250 # 1000)).
    + intros i Hi. assert (i = 0)%nat as -> by lia. vm_compute. reflexivity.
    + vm_compute. reflexivity.
    + vm_compute. reflexivity.
    + vm_compute. reflexivity.
Defined.

(** C9, as stated, fails: a scale that takes a second and a half to
    answer each read, always with an unstable weight, and sleeps that
    take 100 ms exactly. With a timeout of one second the only turn ends
    at 1600 ms, half a second after the timeout plus the poll interval. *)
Lemma wait_bound_counterexample :
  let d := mkScale Toledo [] CONNECTED None (Some (1000 # 1000)) false (Some true) in
  let polls := fun _ : nat => BaseScale.mkPoll (reply "US,GS,+00001.000kg") 1500 0 in
  (forall i, BaseScale.stable_at polls d i = false)
  /\ BaseScale.wait_for_stable_weight (BaseScale.enough_fuel 1) polls 1 0 d
     = Some (None, d, 1600%Z)
  /\ ~ (1600 - 0 <= 1000 * 1 + 100)%Z.
Proof.
  intros d polls. split; [|split].
  - intro i. exact (proj2 (unstable_driver_steady 1500 0 i)).
  - vm_compute. reflexivity.
  - lia.
Qed.

(* ===================================================================== *)
(** * Further properties of the drivers *)

Section ConnectFacts.

Variable default_read_command : string.
Variable parse_response : string -> Scale -> option Q * Scale.

Lemma connection_parameter_state (name : string) (default : json) (d : Scale) :
  snd (connection_parameter name default d) = d.
Proof.
  unfold connection_parameter, bind, get, lift, py_get, raise, ret. simpl.
  destruct (Dict.get "connection" (config d)) as [[ | | | | | | fields]|]; reflexivity.
Qed.

Lemma serial_parameters_state (d : Scale) : snd (serial_parameters d) = d.
Proof.
  unfold serial_parameters, bind.
  pose proof (connection_parameter_state "port" (JStr "COM1") d) as H1.
  destruct (connection_parameter "port" (JStr "COM1") d) as [[p|e] d1];
    simpl in H1; subst d1; [|reflexivity].
  pose proof (connection_parameter_state "baudrate" (JInt 9600) d) as H2.
  destruct (connection_parameter "baudrate" (JInt 9600) d) as [[b|e] d1];
    simpl in H2; subst d1; [|reflexivity].
  pose proof (connection_parameter_state "timeout" (JInt 2) d) as H3.
  destruct (connection_parameter "timeout" (JInt 2) d) as [[t|e] d1];
    simpl in H3; subst d1; reflexivity.
Qed.

Lemma connect_error_nonempty (e : exn) :
  exists c rest, connect_error e = String c rest.
Proof. destruct e; simpl; eexists; eexists; reflexivity. Qed.

Lemma set_error_not_connected (message : string) (d : Scale) :
  is_connected_ (BaseEquipment.set_error message d) = false.
Proof.
  unfold is_connected_, BaseEquipment.set_error. simpl.
  destruct (serial_connection d) as [[]|]; reflexivity.
Qed.

Lemma read_weight_not_connected (x : exchange) (d : Scale) :
  is_connected_ d = false ->
  read_weight_ default_read_command parse_response x d
  = (None, BaseEquipment.set_error "Balança não conectada" d).
Proof. intro H. unfold read_weight_. rewrite H. reflexivity. Qed.

Lemma connect_fails (opening : serial_open) (x : exchange) (closing : option exn)
    (d : Scale) :
  let r := connect_ default_read_command parse_response opening x closing d in
  fst r = false /\ status (snd r) = ERROR /\ is_connected_ (snd r) = false
  /\ exists c rest, last_error (snd r) = Some (String c rest).
Proof.
  unfold connect_.
  pose proof (serial_parameters_state (with_status CONNECTING d)) as Hs.
  destruct (serial_parameters (with_status CONNECTING d)) as [[p|e] d1];
    simpl in Hs; subst d1.
  - destruct opening as [is_open | m | e].
    + unfold test_connection_. rewrite read_weight_not_connected.
      * simpl. rewrite set_error_not_connected.
        repeat split. eexists; eexists; reflexivity.
      * unfold is_connected_. simpl. apply andb_false_r.
    + simpl. rewrite set_error_not_connected.
      repeat split. eexists; eexists; reflexivity.
    + simpl. rewrite set_error_not_connected. repeat split.
      destruct (connect_error_nonempty e) as (c & rest & ->). eexists; eexists; reflexivity.
  - simpl. rewrite set_error_not_connected. repeat split.
    destruct (connect_error_nonempty e) as (c & rest & ->). eexists; eexists; reflexivity.
Qed.

End ConnectFacts.

Lemma base_is_connected (d : Scale) : BaseScale.is_connected d = is_connected_ d.
Proof. unfold BaseScale.is_connected. destruct (brand d); reflexivity. Qed.

Lemma base_connect_fails (opening : serial_open) (x : exchange) (closing : option exn)
    (d : Scale) :
  let r := BaseScale.connect opening x closing d in
  fst r = false /\ status (snd r) = ERROR
  /\ BaseScale.is_connected (snd r) = false
  /\ exists c rest, last_error (snd r) = Some (String c rest).
Proof.
  intro r. subst r. rewrite base_is_connected.
  unfold BaseScale.connect. destruct (brand d); apply connect_fails.
Qed.

(** X1. [connect] cannot succeed. Its test read runs while the status is
    still Connecting, and [read_weight] refuses to read unless the status
    is Connected: whatever the configuration, the port and the scale do,
    and whatever state the driver was in, [connect] returns false and
    leaves the driver not connected, with status Error and a message. *)
Theorem connect_never_succeeds :
  forall (opening : serial_open) (x : exchange) (closing : option exn) (d : Scale),
    let r := BaseScale.connect opening x closing d in
    fst r = false /\ status (snd r) = ERROR
    /\ BaseScale.is_connected (snd r) = false
    /\ exists c rest, last_error (snd r) = Some (String c rest).
Proof. intros opening x closing d. apply base_connect_fails. Qed.

Section NeverConnected.

Local Open Scope Z_scope.

Lemma read_weight_keeps_disconnected (x : exchange) (d : Scale) :
  BaseScale.is_connected d = false ->
  fst (BaseScale.read_weight x d) = None
  /\ BaseScale.is_connected (snd (BaseScale.read_weight x d)) = false.
Proof.
  intro H. rewrite (base_read_weight_disconnected x d H). simpl.
  split; [reflexivity|]. rewrite base_is_connected. apply set_error_not_connected.
Qed.

Lemma wait_loop_keeps_disconnected (fuel : nat) :
  forall (polls : nat -> BaseScale.poll) (start tmo now : Z) (d : Scale),
    BaseScale.is_connected d = false ->
    match BaseScale.wait_loop fuel polls start tmo now d with
    | Some (weight, d', _) => weight = None /\ BaseScale.is_connected d' = false
    | None => True
    end.
Proof.
  induction fuel as [|fuel IH]; intros polls start tmo now d H; simpl;
    destruct (now - start <? tmo); auto.
  destruct (read_weight_keeps_disconnected (BaseScale.serial (polls O)) d H) as [Hw Hd].
  destruct (BaseScale.read_weight (BaseScale.serial (polls O)) d) as [w d'].
  simpl in Hw, Hd. subst w. apply IH. exact Hd.
Qed.

Lemma call_keeps_disconnected (c : BaseScale.api_call) (d : Scale) :
  BaseScale.is_connected d = false ->
  BaseScale.reached_scale c d = false
  /\ BaseScale.is_connected (BaseScale.after_call c d) = false.
Proof.
  intro H. destruct c as [opening x closing | closing | x | w x | w | polls timeout start | ];
    simpl.
  - destruct (base_connect_fails opening x closing d) as (Hr & _ & Hc & _). auto.
  - split; [reflexivity|]. rewrite base_is_connected.
    unfold BaseScale.disconnect, ToledoScale.disconnect, FilizolaScale.disconnect, disconnect_.
    destruct (brand d), (serial_connection d) as [[]|], closing; simpl;
      try reflexivity; apply set_error_not_connected.
  - destruct (read_weight_keeps_disconnected x d H) as [-> Hd]. auto.
  - rewrite base_is_connected in H.
    unfold BaseScale.tare, ToledoScale.tare, FilizolaScale.tare, tare_.
    destruct (brand d); rewrite H; simpl; rewrite base_is_connected; auto.
  - rewrite base_is_connected in H.
    unfold BaseScale.zero, ToledoScale.zero, FilizolaScale.zero, zero_.
    destruct (brand d); rewrite H; simpl; rewrite base_is_connected; auto.
  - unfold BaseScale.wait, BaseScale.wait_for_stable_weight.
    pose proof (wait_loop_keeps_disconnected (BaseScale.enough_fuel timeout) polls
                  start (1000 * timeout) start d H) as Hw.
    destruct (BaseScale.wait_loop _ polls start (1000 * timeout) start d)
      as [[[w d'] t]|]; simpl.
    + destruct Hw as [-> Hd]. auto.
    + auto.
  - split; [reflexivity|]. rewrite base_is_connected in *.
    unfold BaseEquipment.clear_error, is_connected_ in *.
    destruct d as [b cfg st le lw stable [[]|]]; destruct st; simpl in *;
      try reflexivity; try discriminate H.
Qed.

End NeverConnected.

(** X2. A driver as its constructor makes it never reaches the scale: after
    any sequence of calls of [connect], [disconnect], [read_weight],
    [tare], [zero], [wait_for_stable_weight] and [clear_error], whatever
    the port and the scale do, no [connect], [tare] or [zero] has returned
    true, no read has returned a weight, and the driver is not connected.
    (Connected is only assigned in [connect] after a test read, and in
    [read_weight], which both require the status to be Connected already.) *)
Theorem fresh_driver_never_reaches_scale :
  forall (b : Brand) (cfg : dict) (calls : list BaseScale.api_call),
    let d := BaseEquipment.init b cfg in
    BaseScale.some_call_reached calls d = false
    /\ BaseScale.is_connected (BaseScale.run_calls calls d) = false.
Proof.
  intros b cfg calls d.
  assert (H : BaseScale.is_connected d = false) by (destruct b; reflexivity).
  revert H. generalize d. clear d.
  induction calls as [|c rest IH]; intros d H; simpl.
  - auto.
  - destruct (call_keeps_disconnected c d H) as [Hr Hd].
    rewrite Hr. simpl. apply IH. exact Hd.
Qed.

(** X3. [disconnect] on a driver whose port is closed or absent, or whose
    [close()] returns: it answers true and the driver is Disconnected
    without a port, the last error and the last weight kept; a second
    [disconnect] answers true again and changes nothing, whatever
    [close()] would do. *)
Theorem disconnect_idempotent :
  forall (closing again : option exn) (d : Scale),
    serial_connection d <> Some true \/ closing = None ->
    let d' := snd (BaseScale.disconnect closing d) in
    fst (BaseScale.disconnect closing d) = true
    /\ status d' = DISCONNECTED /\ serial_connection d' = None
    /\ last_error d' = last_error d /\ _last_weight d' = _last_weight d
    /\ BaseScale.disconnect again d' = (true, d').
Proof.
  intros closing again d H.
  unfold BaseScale.disconnect, ToledoScale.disconnect, FilizolaScale.disconnect, disconnect_.
  destruct (brand d) eqn:Eb, (serial_connection d) as [[]|] eqn:Es, closing as [e|];
    simpl; rewrite ?Eb; simpl;
    try (repeat split; reflexivity);
    destruct H as [H | H]; try discriminate H; contradiction.
Qed.

Lemma disconnect_idempotent_witness :
  let d := mkScale Toledo [] CONNECTED (Some "antes") (Some (5 # 1)) true (Some true) in
  let d' := snd (BaseScale.disconnect None d) in
  fst (BaseScale.disconnect None d) = true
  /\ status d' = DISCONNECTED /\ serial_connection d' = None
  /\ last_error d' = Some "antes" /\ _last_weight d' = Some (5 # 1)
  /\ BaseScale.disconnect (Some (OtherException "porta")) d' = (true, d').
Proof.
  intros d d'.
  apply (disconnect_idempotent None (Some (OtherException "porta")) d).
  right. reflexivity.
Defined.

Section TareFailure.

Variable default_read_command : string.
Variable parse_response : string -> Scale -> option Q * Scale.

Lemma tare_false_connected (w : option exn) (x : exchange) (d d' : Scale) :
  is_connected_ d = true ->
  tare_ default_read_command parse_response w x d = (false, d') ->
  status d' = ERROR /\ exists c rest, last_error d' = Some (String c rest).
Proof.
  intros Hc. unfold tare_. rewrite Hc. simpl.
  destruct (tare_try default_read_command parse_response w x d) as [[ok|e] d1] eqn:Htry;
    intro H; inversion H; subst; clear H.
  - unfold tare_try in Htry. steps Htry.
    destruct (read_weight_ default_read_command parse_response x s1) as [[weight|] d2].
    + destruct (Qltb (PyDecimal.abs weight) tare_threshold); inversion Htry; subst.
      split; [reflexivity | eexists; eexists; reflexivity].
    + inversion Htry; subst. split; [reflexivity | eexists; eexists; reflexivity].
  - split; [reflexivity | eexists; eexists; reflexivity].
Qed.

Lemma zero_false_connected (w : option exn) (d d' : Scale) :
  is_connected_ d = true -> zero_ w d = (false, d') ->
  status d' = ERROR /\ exists c rest, last_error d' = Some (String c rest).
Proof.
  intros Hc. unfold zero_. rewrite Hc. simpl.
  destruct (zero_try w d) as [[ok|e] d1] eqn:Htry; intro H; inversion H; subst; clear H.
  - unfold zero_try in Htry. steps Htry. unfold ret in Htry. inversion Htry.
  - split; [reflexivity | eexists; eexists; reflexivity].
Qed.

End TareFailure.

(** X4. A [tare] or a [zero] that fails on a connected driver takes the
    driver out of service: whether the command could not be written, the
    verification read failed, or the weight read was 0.010 or more from
    zero, the status is Error with a message, so the driver is no longer
    connected and every later read fails. *)
Theorem failed_tare_or_zero_disconnects :
  forall (d d' : Scale) (w : option exn) (x : exchange),
    BaseScale.is_connected d = true ->
    (BaseScale.tare w x d = (false, d') \/ BaseScale.zero w d = (false, d')) ->
    status d' = ERROR
    /\ (exists c rest, last_error d' = Some (String c rest))
    /\ BaseScale.is_connected d' = false
    /\ forall x', fst (BaseScale.read_weight x' d') = None.
Proof.
  intros d d' w x Hc H. rewrite base_is_connected in Hc.
  assert (Herr : status d' = ERROR /\ exists c rest, last_error d' = Some (String c rest)).
  { unfold BaseScale.tare, BaseScale.zero, ToledoScale.tare, FilizolaScale.tare,
      ToledoScale.zero, FilizolaScale.zero in H.
    destruct (brand d), H as [H | H];
      first [ exact (tare_false_connected _ _ w x d d' Hc H)
            | exact (zero_false_connected w d d' Hc H) ]. }
  destruct Herr as [Hst Hmsg].
  assert (Hd : BaseScale.is_connected d' = false).
  { rewrite base_is_connected. unfold is_connected_. rewrite Hst.
    destruct (serial_connection d') as [[]|]; reflexivity. }
  repeat split; try assumption.
  intro x'. now rewrite (base_read_weight_disconnected x' d' Hd).
Qed.

Lemma failed_tare_or_zero_disconnects_witness :
  let d := mkScale Filizola [] CONNECTED None None false (Some true) in
  let d' := snd (BaseScale.tare None (reply "S000.250") d) in
  status d' = ERROR
  /\ (exists c rest, last_error d' = Some (String c rest))
  /\ BaseScale.is_connected d' = false
  /\ forall x', fst (BaseScale.read_weight x' d') = None.
Proof.
  intros d d'.
  apply (failed_tare_or_zero_disconnects d d' None (reply "S000.250")).
  - reflexivity.
  - left. vm_compute. reflexivity.
Defined.

Lemma failed_read_state (d : Scale) (x : exchange) :
  fst (BaseScale.read_weight x d) = None ->
  _last_weight (snd (BaseScale.read_weight x d)) = _last_weight d
  /\ _is_stable (snd (BaseScale.read_weight x d)) = _is_stable d
  /\ status (snd (BaseScale.read_weight x d)) = ERROR
  /\ BaseScale.is_connected (snd (BaseScale.read_weight x d)) = false.
Proof.
  intro Hnone.
  assert (Hgoal : _last_weight (snd (BaseScale.read_weight x d)) = _last_weight d
                  /\ _is_stable (snd (BaseScale.read_weight x d)) = _is_stable d
                  /\ status (snd (BaseScale.read_weight x d)) = ERROR).
  { destruct (BaseScale.is_connected d) eqn:Hc.
    - destruct (base_read_weight_connected x d Hc)
        as [(_ & Hst & Hw & Hs & _) | (line & w & d1 & _ & _ & _ & _ & Hread)].
      + auto.
      + rewrite Hread in Hnone. discriminate Hnone.
    - rewrite (base_read_weight_disconnected x d Hc). simpl. auto. }
  destruct Hgoal as (Hw & Hs & Hst). repeat split; try assumption.
  rewrite base_is_connected. unfold is_connected_. rewrite Hst.
  destruct (serial_connection _) as [[]|]; reflexivity.
Qed.

(** X5. A read that fails, for whatever reason, keeps the last weight and the
    stability flag of the last read that succeeded, and leaves the status
    Error: [is_weight_stable] and [get_last_weight] then still answer for
    the earlier reading. *)
Theorem failed_read_keeps_last_reading :
  forall (d : Scale) (x : exchange),
    fst (BaseScale.read_weight x d) = None ->
    let d' := snd (BaseScale.read_weight x d) in
    BaseScale.get_last_weight d' = BaseScale.get_last_weight d
    /\ BaseScale.is_weight_stable d' = BaseScale.is_weight_stable d
    /\ status d' = ERROR
    /\ BaseScale.is_connected d' = false.
Proof. intros d x Hnone. exact (failed_read_state d x Hnone). Qed.

Lemma failed_read_keeps_last_reading_witness :
  let d := mkScale Toledo [] CONNECTED None (Some (1250 # 1000)) true (Some true) in
  let d' := snd (BaseScale.read_weight (reply "") d) in
  BaseScale.get_last_weight d' = Some (1250 # 1000)
  /\ BaseScale.is_weight_stable d' = true
  /\ status d' = ERROR
  /\ BaseScale.is_connected d' = false.
Proof.
  intros d d'. exact (failed_read_keeps_last_reading d (reply "") eq_refl).
Defined.

Section StickyFailure.

Import BaseScale.
Local Open Scope Z_scope.

Lemma weight_at_disconnected (i : nat) : forall (polls : nat -> poll) (d : Scale),
  is_connected d = false -> weight_at polls d i = None.
Proof.
  induction i as [|i IH]; intros polls d H.
  - exact (proj1 (read_weight_keeps_disconnected (serial (polls O)) d H)).
  - change (weight_at polls d (S i))
      with (weight_at (later polls) (snd (read_weight (serial (polls O)) d)) i).
    apply IH. exact (proj2 (read_weight_keeps_disconnected (serial (polls O)) d H)).
Qed.

Lemma read_none_disconnects (x : exchange) (d : Scale) :
  fst (read_weight x d) = None -> is_connected (snd (read_weight x d)) = false.
Proof. intro H. exact (proj2 (proj2 (proj2 (failed_read_state d x H)))). Qed.

Lemma weight_at_sticky (k : nat) : forall (polls : nat -> poll) (d : Scale) (j : nat),
  weight_at polls d k = None -> (k <= j)%nat -> weight_at polls d j = None.
Proof.
  induction k as [|k IH]; intros polls d j Hk Hj.
  - destruct j as [|j]; [exact Hk|].
    change (weight_at polls d (S j))
      with (weight_at (later polls) (snd (read_weight (serial (polls O)) d)) j).
    apply weight_at_disconnected. apply read_none_disconnects. exact Hk.
  - destruct j as [|j]; [lia|].
    change (weight_at polls d (S j))
      with (weight_at (later polls) (snd (read_weight (serial (polls O)) d)) j).
    apply (IH (later polls)); [exact Hk | lia].
Qed.

Lemma wait_loop_none (fuel : nat) :
  forall (polls : nat -> poll) (start tmo now : Z) (d : Scale),
    (forall i, stable_at polls d i = false) ->
    match wait_loop fuel polls start tmo now d with
    | Some (weight, _, _) => weight = None
    | None => True
    end.
Proof.
  induction fuel as [|fuel IH]; intros polls start tmo now d Hun.
  - simpl. destruct (now - start <? tmo); auto.
  - destruct (now - start <? tmo) eqn:E.
    + rewrite (wait_loop_turn _ _ _ _ _ _ E), (Hun O).
      apply IH. intro i. exact (Hun (S i)).
    + now rewrite (wait_loop_expired _ _ _ _ _ _ E).
Qed.

End StickyFailure.

(** X6. One failed read ends a wait. When no turn before turn [k] was stable
    and turn [k] fails (a malformed line, a timeout), every later turn
    fails too, because the failed read left the status Error, and
    [wait_for_stable_weight] returns null, whatever the scale answers
    afterwards, a stable weight included. *)
Theorem failed_read_ends_wait :
  forall (polls : nat -> BaseScale.poll) (timeout start : Z) (d : Scale) (k : nat),
    (forall i, (i < k)%nat -> BaseScale.stable_at polls d i = false) ->
    BaseScale.weight_at polls d k = None ->
    (forall j, (k <= j)%nat -> BaseScale.weight_at polls d j = None)
    /\ fst (BaseScale.wait polls timeout start d) = None.
Proof.
  intros polls timeout start d k Hbefore Hk.
  assert (Hlater : forall j, (k <= j)%nat -> BaseScale.weight_at polls d j = None).
  { intros j Hj. exact (weight_at_sticky k polls d j Hk Hj). }
  split; [exact Hlater|].
  assert (Hun : forall i, BaseScale.stable_at polls d i = false).
  { intro i. destruct (Nat.lt_ge_cases i k) as [Hi | Hi]; [now apply Hbefore|].
    unfold BaseScale.stable_at. now rewrite (Hlater i Hi). }
  unfold BaseScale.wait, BaseScale.wait_for_stable_weight.
  pose proof (wait_loop_none (BaseScale.enough_fuel timeout) polls start
                (1000 * timeout)%Z start d Hun) as Hw.
  destruct (BaseScale.wait_loop _ polls start (1000 * timeout)%Z start d)
    as [[[w d'] t]|]; [exact Hw | reflexivity].
Qed.

Lemma failed_read_ends_wait_witness :
  let d := mkScale Toledo [] CONNECTED None None false (Some true) in
  let polls := fun i : nat =>
    BaseScale.mkPoll (reply (if Nat.eqb i 0 then "" else "ST,GS,+00001.250kg")) 5 0 in
  (forall j, (0 <= j)%nat -> BaseScale.weight_at polls d j = None)
  /\ fst (BaseScale.wait polls 2 0 d) = None.
Proof.
  intros d polls.
  apply (failed_read_ends_wait polls 2 0 d 0).
  - intros i Hi. lia.
  - vm_compute. reflexivity.
Defined.

Section FilizolaSign.

Lemma unsigned_nonnegative (s : string) (w : Q) :
  PyDecimal.unsigned false s = Some w -> 0 <= w.
Proof.
  unfold PyDecimal.unsigned.
  destruct (PyDecimal.span_digits s) as [ip rest].
  assert (Hmake : forall fp, 0 <= PyDecimal.make false ip fp).
  { intro fp. unfold PyDecimal.make, Qle. simpl. lia. }
  destruct rest as [|c fp].
  - destruct (Py.nonempty ip); intro H; inversion H. apply Hmake.
  - destruct (_ && _); intro H; inversion H. apply Hmake.
Qed.

Lemma forallb_filter (p : ascii -> bool) (s : string) :
  Py.forallb p (Py.filter p s) = true.
Proof.
  induction s as [|c s IH]; simpl; [reflexivity|].
  destruct (p c) eqn:E; simpl; [now rewrite E|exact IH].
Qed.

Lemma filizola_weight_nonnegative (response : string) (d d' : Scale) (w : Q) :
  FilizolaScale._parse_filizola_response response d = (Some w, d') -> 0 <= w.
Proof.
  unfold FilizolaScale._parse_filizola_response.
  destruct (Py.nonempty (FilizolaScale.numbers response)); [|intro H; discriminate H].
  destruct (PyDecimal.parse (FilizolaScale.numbers response)) as [v|] eqn:Ep;
    intro H; inversion H; subst v d'. clear H.
  unfold FilizolaScale.numbers in Ep.
  pose proof (forallb_filter (fun c => Py.isdigit c || Ascii.eqb c ".")
                (Py.lstrip "SW+-" (FilizolaScale.clean_response response))) as Hall.
  destruct (Py.filter _ _) as [|c rest]; [discriminate Ep|].
  simpl in Hall. apply andb_true_iff in Hall as [Hc _].
  unfold PyDecimal.parse in Ep.
  destruct (Ascii.eqb c "-") eqn:Em.
  - apply Ascii.eqb_eq in Em. subst c. discriminate Hc.
  - destruct (Ascii.eqb c "+") eqn:Epl.
    + apply Ascii.eqb_eq in Epl. subst c. discriminate Hc.
    + exact (unsigned_nonnegative _ _ Ep).
Qed.

End FilizolaSign.

(** X7. The Filizola driver never reads a negative weight: whatever the line
    holds, a weight it returns is zero or more, since the parser keeps
    digits and points only. (The Toledo driver does read negative
    weights.) *)
Theorem filizola_never_negative :
  forall (d d' : Scale) (x : exchange) (w : Q),
    FilizolaScale.read_weight x d = (Some w, d') -> 0 <= w.
Proof.
  intros d d' x w Hread.
  destruct (is_connected_ d) eqn:Hc.
  - destruct (read_weight_connected "W" _ filizola_parse_keeps x d Hc)
      as [(Hnone & _) | (line & w' & d1 & _ & _ & _ & Hparse & Hread')].
    + unfold FilizolaScale.read_weight in Hread. rewrite Hread in Hnone. discriminate Hnone.
    + unfold FilizolaScale.read_weight in Hread. rewrite Hread in Hread'.
      inversion Hread'; subst w'. exact (filizola_weight_nonnegative _ _ _ _ Hparse).
  - unfold FilizolaScale.read_weight in Hread.
    rewrite (read_weight_not_connected "W" _ x d Hc) in Hread. discriminate Hread.
Qed.

Lemma filizola_never_negative_witness :
  let d := mkScale Filizola [] CONNECTED None None false (Some true) in
  0 <= 1250 # 1000
  /\ fst (ToledoScale.read_weight (reply "ST,GS,-00001.250kg")
            (mkScale Toledo [] CONNECTED None None false (Some true)))
     = Some (-1250 # 1000).
Proof.
  intro d. split.
  - apply (filizola_never_negative d (snd (FilizolaScale.read_weight (reply "-001.250") d))
             (reply "-001.250") (1250 # 1000)).
    vm_compute. reflexivity.
  - vm_compute. reflexivity.
Defined.

(* ===================================================================== *)
(** * Further properties of the scale manager *)

Lemma update_cons (d : dict) (k : string) (v : json) (rest : dict) :
  Dict.update d ((k, v) :: rest) = Dict.update (Dict.set k v d) rest.
Proof. reflexivity. Qed.

Lemma get_update (key : string) (other : dict) : forall d : dict,
  Dict.distinct (List.map fst other) = true ->
  Dict.get key (Dict.update d other)
  = match Dict.get key other with
    | Some v => Some v
    | None => Dict.get key d
    end.
Proof.
  induction other as [|[k v] rest IH]; intros d Hd; [reflexivity|].
  simpl in Hd. apply andb_true_iff in Hd as [Hfresh Hd]. apply negb_true_iff in Hfresh.
  rewrite update_cons, (IH _ Hd). simpl.
  destruct (String.eqb key k) eqn:E.
  - apply String.eqb_eq in E. subst k.
    rewrite (get_none_not_in _ _ Hfresh). apply get_set_same.
  - destruct (Dict.get key rest); [reflexivity|].
    apply get_set_other. intro Heq. subst k. rewrite String.eqb_refl in E. discriminate E.
Qed.

Lemma connection_parameter_default (name : string) (default : json) (d : Scale) :
  Dict.get "connection" (config d) = None ->
  connection_parameter name default d = (Returned default, d).
Proof.
  intro H. unfold connection_parameter, bind, get, lift, py_get, ret. simpl.
  rewrite H. reflexivity.
Qed.

Lemma init_enabled (cfg brands params connection : dict) (enabled : json)
    (name : string) (b : Brand) :
  Dict.get "enabled" cfg = Some enabled -> truthy enabled = true ->
  Dict.get "default_brand" cfg = Some (JStr name) ->
  ScaleManager.SUPPORTED_BRANDS (Py.lower name) = Some b ->
  Dict.get "supported_brands" cfg = Some (JObj brands) ->
  Dict.get (Py.lower name) brands = Some (JObj params) ->
  Dict.get "connection" cfg = Some (JObj connection) ->
  exists cfg',
    ScaleManager.init cfg
    = inr (ScaleManager.mk cfg' (Some (BaseEquipment.init b (Dict.update params connection)))).
Proof.
  intros He Ht Hn Hb Hs Hp Hc.
  unfold ScaleManager.init, ScaleManager._initialize_scale, bind, get, lift, raise, ret,
    modify, ScaleManager.py_lower, py_get, ScaleManager.py_update.
  simpl. rewrite He, Ht, Hn. simpl. rewrite Hb, Hs. simpl. rewrite Hp, Hc. simpl.
  rewrite ?Hp. eexists. destruct b; reflexivity.
Qed.

(** X8. A manager built from a configuration that is not enabled holds no
    driver, and each of its methods answers at once with the neutral
    value and leaves the manager as it is: [connect], [tare] and [zero]
    false, [disconnect] true, the reads null, the status report
    disabled. *)
Theorem disabled_manager_is_inert :
  forall cfg : dict,
    truthy (match Dict.get "enabled" cfg with Some v => v | None => JBool false end)
      = false ->
    exists m,
      ScaleManager.init cfg = inr m
      /\ ScaleManager.scale m = None
      /\ ScaleManager.get_status m = ScaleManager.Disabled
      /\ ScaleManager.is_connected m = false
      /\ ScaleManager.is_weight_stable m = false
      /\ ScaleManager.get_last_weight m = None
      /\ (forall opening x closing, ScaleManager.connect opening x closing m = (false, m))
      /\ (forall closing, ScaleManager.disconnect closing m = (true, m))
      /\ (forall x, ScaleManager.read_weight x m = (None, m))
      /\ (forall w x, ScaleManager.tare w x m = (false, m))
      /\ (forall w, ScaleManager.zero w m = (false, m))
      /\ (forall polls timeout start,
            ScaleManager.wait_for_stable_weight polls timeout start m = (None, m)).
Proof.
  intros cfg H. exists (ScaleManager.mk cfg None).
  unfold ScaleManager.init, ScaleManager._initialize_scale, bind, get. simpl.
  rewrite H. simpl. repeat split.
Qed.

Lemma disabled_manager_is_inert_witness :
  exists m,
    ScaleManager.init [("default_brand", JStr "toledo"); ("enabled", JInt 0)] = inr m
    /\ ScaleManager.scale m = None
    /\ ScaleManager.get_status m = ScaleManager.Disabled.
Proof.
  destruct (disabled_manager_is_inert
              [("default_brand", JStr "toledo"); ("enabled", JInt 0)] eq_refl)
    as (m & Hinit & Hscale & Hstatus & _).
  exists m. auto.
Defined.

(** X9. A manager built from an enabled configuration that names a supported
    brand, in any letter case, holds a driver of that brand, Disconnected
    and without a port, whose configuration is the brand's parameters
    updated with the [connection] block: a key of the block has the
    block's value, any other key the brand's. *)
Theorem enabled_manager_builds_driver :
  forall (cfg brands params connection : dict) (enabled : json) (name : string) (b : Brand),
    Dict.get "enabled" cfg = Some enabled -> truthy enabled = true ->
    Dict.get "default_brand" cfg = Some (JStr name) ->
    ScaleManager.SUPPORTED_BRANDS (Py.lower name) = Some b ->
    Dict.get "supported_brands" cfg = Some (JObj brands) ->
    Dict.get (Py.lower name) brands = Some (JObj params) ->
    Dict.get "connection" cfg = Some (JObj connection) ->
    Dict.distinct (List.map fst connection) = true ->
    exists m d,
      ScaleManager.init cfg = inr m /\ ScaleManager.scale m = Some d
      /\ brand d = b /\ status d = DISCONNECTED /\ serial_connection d = None
      /\ last_error d = None
      /\ forall key,
           Dict.get key (config d)
           = match Dict.get key connection with
             | Some v => Some v
             | None => Dict.get key params
             end.
Proof.
  intros cfg brands params connection enabled name b He Ht Hn Hb Hs Hp Hc Hd.
  destruct (init_enabled cfg brands params connection enabled name b He Ht Hn Hb Hs Hp Hc)
    as (cfg' & Hinit).
  eexists. eexists. split; [exact Hinit|]. simpl. repeat split.
  intro key. apply get_update. exact Hd.
Qed.

Lemma enabled_manager_builds_driver_witness :
  let cfg := [("enabled", JBool true); ("default_brand", JStr "Filizola");
              ("supported_brands",
               JObj [("filizola", JObj [("timeout", JInt 2);
                                        ("commands", JObj [("tare", JStr "T")])])]);
              ("connection", JObj [("port", JStr "COM3"); ("timeout", JInt 5)])] in
  exists m d,
    ScaleManager.init cfg = inr m /\ ScaleManager.scale m = Some d
    /\ brand d = Filizola /\ status d = DISCONNECTED /\ serial_connection d = None
    /\ last_error d = None
    /\ Dict.get "timeout" (config d) = Some (JInt 5)
    /\ Dict.get "commands" (config d) = Some (JObj [("tare", JStr "T")]).
Proof.
  intro cfg.
  destruct (enabled_manager_builds_driver cfg
              [("filizola", JObj [("timeout", JInt 2);
                                  ("commands", JObj [("tare", JStr "T")])])]
              [("timeout", JInt 2); ("commands", JObj [("tare", JStr "T")])]
              [("port", JStr "COM3"); ("timeout", JInt 5)]
              (JBool true) "Filizola" Filizola
              eq_refl eq_refl eq_refl eq_refl eq_refl eq_refl eq_refl eq_refl)
    as (m & d & Hinit & Hscale & Hb & Hst & Hser & Herr & Hcfg).
  exists m, d. repeat split; try assumption.
  - rewrite Hcfg. reflexivity.
  - rewrite Hcfg. reflexivity.
Defined.

(** X10. The port, baud rate and timeout of the manager's [connection] block
    do not reach [serial.Serial]. The manager spreads the block's keys at
    the top of the driver's configuration, and the driver looks for them
    under a [connection] key of that configuration: unless the brand's
    parameters or the block hold such a key, [connect] opens [COM1] at
    9600 baud with a timeout of 2, whatever the block says. *)
Theorem manager_connection_block_ignored :
  forall (cfg brands params connection : dict) (enabled : json) (name : string) (b : Brand),
    Dict.get "enabled" cfg = Some enabled -> truthy enabled = true ->
    Dict.get "default_brand" cfg = Some (JStr name) ->
    ScaleManager.SUPPORTED_BRANDS (Py.lower name) = Some b ->
    Dict.get "supported_brands" cfg = Some (JObj brands) ->
    Dict.get (Py.lower name) brands = Some (JObj params) ->
    Dict.get "connection" cfg = Some (JObj connection) ->
    Dict.distinct (List.map fst connection) = true ->
    Dict.get "connection" params = None ->
    Dict.get "connection" connection = None ->
    exists m d,
      ScaleManager.init cfg = inr m /\ ScaleManager.scale m = Some d
      /\ serial_parameters d = (Returned (JStr "COM1", JInt 9600%Z, JInt 2%Z), d).
Proof.
  intros cfg brands params connection enabled name b He Ht Hn Hb Hs Hp Hc Hd Hnp Hnc.
  destruct (init_enabled cfg brands params connection enabled name b He Ht Hn Hb Hs Hp Hc)
    as (cfg' & Hinit).
  eexists. eexists. split; [exact Hinit|]. split; [reflexivity|].
  assert (Hnone : Dict.get "connection"
                    (config (BaseEquipment.init b (Dict.update params connection))) = None).
  { unfold BaseEquipment.init. cbn [config].
    now rewrite (get_update "connection" connection params Hd), Hnc, Hnp. }
  unfold serial_parameters, bind.
  now rewrite !(connection_parameter_default _ _ _ Hnone).
Qed.

Lemma manager_connection_block_ignored_witness :
  let cfg := [("enabled", JBool true); ("default_brand", JStr "toledo");
              ("supported_brands",
               JObj [("toledo", JObj [("commands", JObj [("read_weight", JStr "05")])])]);
              ("connection", JObj [("port", JStr "COM3"); ("baudrate", JInt 4800)])] in
  exists m d,
    ScaleManager.init cfg = inr m /\ ScaleManager.scale m = Some d
    /\ serial_parameters d = (Returned (JStr "COM1", JInt 9600%Z, JInt 2%Z), d).
Proof.
  intro cfg.
  exact (manager_connection_block_ignored cfg
           [("toledo", JObj [("commands", JObj [("read_weight", JStr "05")])])]
           [("commands", JObj [("read_weight", JStr "05")])]
           [("port", JStr "COM3"); ("baudrate", JInt 4800)]
           (JBool true) "toledo" Toledo
           eq_refl eq_refl eq_refl eq_refl eq_refl eq_refl eq_refl eq_refl eq_refl eq_refl).
Defined.

(* ===================================================================== *)
(** * Further properties of the configuration *)

Section ConfigStoreFacts.

Import ConfigStore.

Lemma split_nonempty (sep : ascii) (s : string) : Py.split sep s <> [].
Proof. apply split_from_nonempty. Qed.

Lemma lookup_cons (k : string) (q : list string) (d : dict) :
  ConfigManager.lookup_path (k :: q) (JObj d)
  = match Dict.get k d with
    | Some next => ConfigManager.lookup_path q next
    | None => None
    end.
Proof. reflexivity. Qed.

Lemma set_path_cons (k k2 : string) (rest : list string) (value : json) (current : dict) :
  set_path (k :: k2 :: rest) value current
  = Dict.set k (JObj (set_path (k2 :: rest) value
                        (match Dict.get k current with
                         | Some (JObj fields) => fields
                         | _ => []
                         end))) current.
Proof. reflexivity. Qed.

Lemma lookup_set_path (keys : list string) (value : json) : forall current : dict,
  keys <> [] ->
  ConfigManager.lookup_path keys (JObj (set_path keys value current)) = Some value.
Proof.
  induction keys as [|k rest IH]; intros current Hne; [contradiction|].
  destruct rest as [|k2 rest].
  - simpl. now rewrite get_set_same.
  - rewrite set_path_cons, lookup_cons, get_set_same. apply IH. discriminate.
Qed.




End ConfigStoreFacts.

(** X11. [set] then [get]. On a domain that is absent or a dictionary, [set]
    with a path that is not empty returns, and [get] with the same domain
    and path then returns the value set, never the default: the levels
    between are created, and what stood in their way is replaced. *)
Theorem config_set_then_get :
  forall (configs : dict) (config_name key_path : string) (value default : json),
    ConfigStore.settable configs config_name = true ->
    key_path <> "" ->
    exists configs',
      ConfigStore.set configs config_name key_path value = inr configs'
      /\ ConfigStore.get configs' config_name key_path default = value
      /\ ConfigStore.has_config configs' config_name = true.
Proof.
  intros configs name path value default Hs Hne.
  unfold ConfigStore.settable in Hs. unfold ConfigStore.set.
  assert (Hpath : Py.nonempty path = true) by (destruct path; [contradiction | reflexivity]).
  destruct (Dict.get name configs) as [[ | | | | | | fields]|]; try discriminate Hs;
    (eexists; split; [reflexivity|]);
    unfold ConfigStore.get, ConfigStore.has_config; rewrite get_set_same, Hpath;
    rewrite lookup_set_path by apply split_nonempty; split; reflexivity.
Qed.

Lemma config_set_then_get_witness :
  let configs := [("equipment", JObj [("scale", JStr "toledo")])] in
  exists configs',
    ConfigStore.set configs "equipment" "scale.connection.port" (JStr "COM3") = inr configs'
    /\ ConfigStore.get configs' "equipment" "scale.connection.port" JNull = JStr "COM3"
    /\ ConfigStore.has_config configs' "equipment" = true.
Proof.
  intro configs.
  apply (config_set_then_get configs "equipment" "scale.connection.port" (JStr "COM3") JNull).
  - reflexivity.
  - discriminate.
Defined.



(* ===================================================================== *)
(** * Further properties of the cashier session *)

Section SessionGuards.

Lemma assign_ge0_passes {S} (field : string) (store : Q -> S -> S) (v : Q) (s : S) :
  0 <= v -> assign_ge0 field store v s = (Returned tt, store v s).
Proof.
  intro H. unfold assign_ge0, modify. apply Qleb_true in H. now rewrite H.
Qed.

Lemma assign_int_ge0_passes {S} (field : string) (store : Z -> S -> S) (v : Z) (s : S) :
  (0 <= v)%Z -> assign_int_ge0 field store v s = (Returned tt, store v s).
Proof.
  intro H. unfold assign_int_ge0, modify. apply Z.leb_le in H. now rewrite H.
Qed.

Lemma assign_ge0_state {S} (field : string) (store : Q -> S -> S) (v : Q) (s : S) :
  snd (assign_ge0 field store v s) = s
  \/ (0 <= v /\ assign_ge0 field store v s = (Returned tt, store v s)).
Proof.
  unfold assign_ge0, modify, raise. destruct (Qleb 0 v) eqn:E.
  - right. split; [now apply Qleb_true | reflexivity].
  - left. reflexivity.
Qed.

End SessionGuards.

Section SessionInvariant.

Import CashierSession.

(** One guarded assignment keeps an invariant that holds of the stored
    state whenever the value passed the guard. *)
Lemma assign_ge0_keeps (P : t -> Prop) (field : string) (store : Q -> t -> t) (v : Q) (s : t) :
  P s -> (0 <= v -> P (store v s)) -> P (snd (assign_ge0 field store v s)).
Proof.
  intros Hs Hstore. destruct (assign_ge0_state field store v s) as [-> | [Hv ->]];
    [exact Hs | now apply Hstore].
Qed.

Lemma perform_keeps_nonnegative (c : call) (self : t) :
  totals_nonnegative self -> totals_nonnegative (snd (perform c self)).
Proof.
  intro H.
  assert (Hstep : forall (field : string) (store : Q -> t -> t) (v : Q) (s : t)
                         (k : unit -> M t unit),
            totals_nonnegative s ->
            (0 <= v -> totals_nonnegative (snd (k tt (store v s)))) ->
            totals_nonnegative (snd (bind (assign_ge0 field store v) k s))).
  { intros field store v s k Hs Hk. unfold bind, assign_ge0, modify, raise.
    destruct (Qleb 0 v) eqn:E; [apply Hk; now apply Qleb_true | exact Hs]. }
  assert (Hint : forall (field : string) (store : Z -> t -> t) (v : Z) (s : t)
                        (k : unit -> M t unit),
            totals_nonnegative s ->
            ((0 <= v)%Z -> totals_nonnegative (snd (k tt (store v s)))) ->
            totals_nonnegative (snd (bind (assign_int_ge0 field store v) k s))).
  { intros field store v s k Hs Hk. unfold bind, assign_int_ge0, modify, raise.
    destruct (0 <=? v)%Z eqn:E; [apply Hk; now apply Z.leb_le | exact Hs]. }
  destruct H as (H1 & H2 & H3 & H4 & H5 & H6 & H7).
  destruct c as [amount method | amount method]; simpl; unfold add_sale, cancel_sale.
  - unfold bind at 1. unfold get at 1.
    apply Hstep; [repeat split; assumption|]. intro Ha.
    apply Hint; [repeat split; simpl; assumption|]. intro Hb.
    destruct (category_of method); apply assign_ge0_keeps;
      try (intro Hc); repeat split; simpl; assumption.
  - unfold bind at 1. unfold get at 1.
    apply Hstep; [repeat split; assumption|]. intro Ha.
    apply Hint; [repeat split; simpl; assumption|]. intro Hb.
    apply Hint; [repeat split; simpl; assumption|]. intro Hc.
    destruct (category_of method); apply assign_ge0_keeps;
      try (intro Hd); repeat split; simpl; assumption.
Qed.

End SessionInvariant.

(** X13. The totals and the counters never go negative. Whatever calls of
    [add_sale] and [cancel_sale] are made, with whatever amounts, and
    whether they return or raise, a session whose totals and counters are
    not negative keeps them so: a refused assignment leaves the field as
    it was. *)
Theorem session_totals_never_negative :
  forall (calls : list CashierSession.call) (self : CashierSession.t),
    CashierSession.totals_nonnegative self ->
    CashierSession.totals_nonnegative (CashierSession.run calls self).
Proof.
  induction calls as [|c rest IH]; intros self H; simpl; [exact H|].
  apply IH. now apply perform_keeps_nonnegative.
Qed.

Lemma session_totals_never_negative_witness :
  CashierSession.totals_nonnegative
    (CashierSession.run
       [CashierSession.AddSale 10 "cash"; CashierSession.CancelSale 25 "pix";
        CashierSession.AddSale (-3) "check"; CashierSession.CancelSale 10 "cash"]
       (CashierSession.opened 1 50 0)).
Proof.
  apply session_totals_never_negative.
  repeat split; vm_compute; discriminate.
Defined.

Lemma sub_add_back (t a : Q) :
  PyDecimal.rounded t == t -> PyDecimal.rounded (t + a) == t + a ->
  PyDecimal.sub (PyDecimal.add t a) a == t.
Proof.
  intros Ht Hsum. unfold PyDecimal.sub, PyDecimal.add.
  assert (E : PyDecimal.rounded (t + a) - a == t) by (rewrite Hsum; ring).
  now rewrite (rounded_comp _ _ E).
Qed.

(** X14. A cancellation undoes the sale it cancels, when nothing is
    rounded. On a session whose totals are not negative, [add_sale] of
    an amount that is not negative returns, and [cancel_sale] of the same
    amount under a payment method of the same category then returns as
    well; when the total and the category total have at most 28
    significant digits, before the sale and with its amount added, the
    total, the four category totals and [sales_count] are back at their
    values, and [cancelled_sales_count] is one more. *)
Theorem cancel_undoes_add :
  forall (self : CashierSession.t) (amount : Q) (paid cancelled : string),
    CashierSession.totals_nonnegative self ->
    0 <= amount ->
    CashierSession.category_of paid = CashierSession.category_of cancelled ->
    PyDecimal.unrounded (CashierSession.total_sales self) = true ->
    PyDecimal.unrounded
      (CashierSession.in_category (CashierSession.category_of paid) self) = true ->
    PyDecimal.unrounded (CashierSession.total_sales self + amount) = true ->
    PyDecimal.unrounded
      (CashierSession.in_category (CashierSession.category_of paid) self + amount) = true ->
    exists sold back,
      CashierSession.add_sale amount paid self = (Returned tt, sold)
      /\ CashierSession.cancel_sale amount cancelled sold = (Returned tt, back)
      /\ CashierSession.total_sales back == CashierSession.total_sales self
      /\ CashierSession.total_cash_sales back == CashierSession.total_cash_sales self
      /\ CashierSession.total_card_sales back == CashierSession.total_card_sales self
      /\ CashierSession.total_pix_sales back == CashierSession.total_pix_sales self
      /\ CashierSession.total_other_sales back == CashierSession.total_other_sales self
      /\ CashierSession.sales_count back = CashierSession.sales_count self
      /\ CashierSession.cancelled_sales_count back
         = (CashierSession.cancelled_sales_count self + 1)%Z.
Proof.
  intros self amount paid cancelled (H1 & H2 & H3 & H4 & H5 & H6 & H7) Ha Hcat
         Ht Hc Hta Hca.
  apply unrounded_true in Ht. apply unrounded_true in Hc.
  apply unrounded_true in Hta. apply unrounded_true in Hca.
  pose proof (sub_add_back _ _ Ht Hta) as Hback.
  pose proof (sub_add_back _ _ Hc Hca) as Hcback.
  unfold CashierSession.add_sale, CashierSession.cancel_sale. rewrite <- Hcat.
  destruct (CashierSession.category_of paid); simpl in Hc, Hca, Hcback;
    (eexists; eexists; split;
     [ unfold bind, get;
       rewrite assign_ge0_passes by (apply rounded_nonneg; lra);
       rewrite assign_int_ge0_passes by (simpl; lia);
       rewrite assign_ge0_passes by (apply rounded_nonneg; simpl; lra); reflexivity
     | split;
       [ unfold bind, get;
         rewrite assign_ge0_passes by (simpl; rewrite Hback; assumption);
         rewrite assign_int_ge0_passes by (simpl; lia);
         rewrite assign_int_ge0_passes by (simpl; lia);
         rewrite assign_ge0_passes by (simpl; rewrite Hcback; assumption); reflexivity
       | simpl; repeat split; try reflexivity; try assumption; try lia ] ]).
Qed.

Lemma cancel_undoes_add_witness :
  exists sold back,
    CashierSession.add_sale (25 # 2) "Debit_Card" (CashierSession.opened 1 50 0)
      = (Returned tt, sold)
    /\ CashierSession.cancel_sale (25 # 2) "credit_card" sold = (Returned tt, back)
    /\ CashierSession.total_sales back == 0
    /\ CashierSession.total_card_sales back == 0
    /\ CashierSession.sales_count back = 0%Z
    /\ CashierSession.cancelled_sales_count back = 1%Z.
Proof.
  destruct (cancel_undoes_add (CashierSession.opened 1 50 0) (25 # 2)
              "Debit_Card" "credit_card")
    as (sold & back & Hsold & Hback & Ht & _ & Hc & _ & _ & Hn & Hx).
  - repeat split; vm_compute; discriminate.
  - vm_compute; discriminate.
  - reflexivity.
  - vm_compute; reflexivity.
  - vm_compute; reflexivity.
  - vm_compute; reflexivity.
  - vm_compute; reflexivity.
  - exists sold, back. repeat split; assumption.
Defined.

(** X15. [add_sale] and [cancel_sale] never look at the status: a closed or a
    suspended session records a sale, or refuses it, exactly as an open
    one does, and its status stays what it was. *)
Theorem sales_recorded_whatever_status :
  forall (c : CashierSession.call) (self : CashierSession.t) (st : SessionStatus),
    CashierSession.perform c (CashierSession.with_status st self)
    = (fst (CashierSession.perform c self),
       CashierSession.with_status st (snd (CashierSession.perform c self))).
Proof.
  intros c self st.
  destruct c as [amount method | amount method]; simpl;
    unfold CashierSession.add_sale, CashierSession.cancel_sale, bind, get,
      assign_ge0, assign_int_ge0, modify, raise; simpl;
    repeat match goal with
           | |- context [Qleb 0 ?v] => destruct (Qleb 0 v)
           | |- context [(0 <=? ?v)%Z] => destruct (0 <=? v)%Z
           | |- context [CashierSession.category_of ?m] =>
               destruct (CashierSession.category_of m)
           end; reflexivity.
Qed.

(** X16. [close_session] on an open session, with a declared cash and an
    expected cash that are not negative and a clock after the opening:
    it returns, the session is Closed with the declared cash, the
    expected cash (opening cash plus cash sales), their difference, the
    closing time and the notes; and Closed is final, since a second
    [close_session] raises and [suspend_session] and [resume_session]
    leave the session as it is. *)
Theorem close_session_closes_for_good :
  forall (self : CashierSession.t) (declared : Q) (notes : option string) (now : Z),
    CashierSession.status self = OPEN ->
    0 <= declared ->
    0 <= CashierSession.opening_cash self + CashierSession.total_cash_sales self ->
    (CashierSession.opened_at self < now)%Z ->
    exists closed,
      CashierSession.close_session declared notes now self = (Returned tt, closed)
      /\ CashierSession.status closed = CLOSED
      /\ CashierSession.closing_cash closed = Some declared
      /\ CashierSession.expected_cash closed
         = Some (CashierSession.calculate_expected_cash self)
      /\ CashierSession.cash_difference closed
         = Some (PyDecimal.sub declared (CashierSession.calculate_expected_cash self))
      /\ CashierSession.closed_at closed = Some now
      /\ CashierSession.closing_notes closed = notes
      /\ CashierSession.total_sales closed = CashierSession.total_sales self
      /\ (forall declared' notes' now',
            CashierSession.close_session declared' notes' now' closed
            = (Raised (ValueError "Sessão não pode ser fechada no status atual"), closed))
      /\ (forall notes', CashierSession.suspend_session notes' closed = closed)
      /\ CashierSession.resume_session closed = closed.
Proof.
  intros self declared notes now Hopen Hd He Hnow.
  eexists. split.
  - unfold CashierSession.close_session, CashierSession.can_close, bind, get.
    rewrite Hopen. simpl.
    rewrite assign_ge0_passes by exact Hd.
    rewrite assign_ge0_passes
      by (unfold CashierSession.calculate_expected_cash, PyDecimal.add; simpl;
          apply rounded_nonneg; exact He).
    unfold modify, CashierSession.assign_closed_at, bind, get. simpl.
    apply Z.leb_gt in Hnow. rewrite Hnow. reflexivity.
  - simpl. repeat split.
Qed.

Lemma close_session_closes_for_good_witness :
  let self := snd (CashierSession.add_sale 30 "cash" (CashierSession.opened 7 100 0)) in
  exists closed,
    CashierSession.close_session 128 (Some "ok") 480 self = (Returned tt, closed)
    /\ CashierSession.status closed = CLOSED
    /\ CashierSession.closing_cash closed = Some 128
    /\ CashierSession.resume_session closed = closed.
Proof.
  intro self.
  destruct (close_session_closes_for_good self 128 (Some "ok") 480)
    as (closed & Hclose & Hstatus & Hcash & _ & _ & _ & _ & _ & _ & _ & Hresume).
  - reflexivity.
  - vm_compute; discriminate.
  - vm_compute; discriminate.
  - reflexivity.
  - exists closed. repeat split; assumption.
Defined.

(** X17. [close_session] is not atomic. With a clock that is not after the
    opening time, the assignment to [closed_at] raises after the declared
    cash, the expected cash and the difference were stored: the session
    stays Open, with no closing time, and can still be closed. *)
Theorem close_session_not_atomic :
  forall (self : CashierSession.t) (declared : Q) (notes : option string) (now : Z),
    CashierSession.status self = OPEN ->
    0 <= declared ->
    0 <= CashierSession.opening_cash self + CashierSession.total_cash_sales self ->
    (now <= CashierSession.opened_at self)%Z ->
    exists left,
      CashierSession.close_session declared notes now self
      = (Raised (ValidationError "closed_at"), left)
      /\ CashierSession.status left = OPEN
      /\ CashierSession.can_close left = true
      /\ CashierSession.closed_at left = CashierSession.closed_at self
      /\ CashierSession.closing_notes left = CashierSession.closing_notes self
      /\ CashierSession.closing_cash left = Some declared
      /\ CashierSession.expected_cash left
         = Some (CashierSession.calculate_expected_cash self)
      /\ CashierSession.cash_difference left
         = Some (PyDecimal.sub declared (CashierSession.calculate_expected_cash self)).
Proof.
  intros self declared notes now Hopen Hd He Hnow.
  eexists. split.
  - unfold CashierSession.close_session, CashierSession.can_close, bind, get.
    rewrite Hopen. simpl.
    rewrite assign_ge0_passes by exact Hd.
    rewrite assign_ge0_passes
      by (unfold CashierSession.calculate_expected_cash, PyDecimal.add; simpl;
          apply rounded_nonneg; exact He).
    unfold modify, CashierSession.assign_closed_at, bind, get. simpl.
    apply Z.leb_le in Hnow. rewrite Hnow. reflexivity.
  - unfold CashierSession.can_close. simpl. rewrite Hopen. repeat split.
Qed.

Lemma close_session_not_atomic_witness :
  exists left,
    CashierSession.close_session 90 None 0 (CashierSession.opened 7 100 0)
    = (Raised (ValidationError "closed_at"), left)
    /\ CashierSession.status left = OPEN
    /\ CashierSession.closing_cash left = Some 90.
Proof.
  destruct (close_session_not_atomic (CashierSession.opened 7 100 0) 90 None 0)
    as (left & Hclose & Hstatus & _ & _ & _ & Hcash & _).
  - reflexivity.
  - vm_compute; discriminate.
  - vm_compute; discriminate.
  - vm_compute; discriminate.
  - exists left. repeat split; assumption.
Defined.

(** X18. Suspending an open session and resuming it gives the session back,
    but for the notes: [suspend_session] writes its notes, when they are
    not empty, into [closing_notes], and [resume_session] does not take
    them out. *)
Theorem suspend_resume_round_trip :
  forall (self : CashierSession.t) (notes : option string),
    CashierSession.status self = OPEN ->
    CashierSession.status (CashierSession.suspend_session notes self) = SUSPENDED
    /\ CashierSession.resume_session (CashierSession.suspend_session notes self)
       = match notes with
         | Some text =>
             if Py.nonempty text then CashierSession.with_closing_notes notes self else self
         | None => self
         end.
Proof.
  intros self notes Hopen. destruct self. simpl in Hopen. subst.
  unfold CashierSession.suspend_session, CashierSession.resume_session. simpl.
  destruct notes as [text|]; [destruct (Py.nonempty text)|]; split; reflexivity.
Qed.

Lemma suspend_resume_round_trip_witness :
  let self := CashierSession.opened 7 100 0 in
  CashierSession.status (CashierSession.suspend_session (Some "") self) = SUSPENDED
  /\ CashierSession.resume_session (CashierSession.suspend_session (Some "") self) = self.
Proof.
  intro self. exact (suspend_resume_round_trip self (Some "") eq_refl).
Defined.

(* ===================================================================== *)
(** * Further properties of the sale *)

Section SaleTotals.
Import Sale.

Lemma calculate_totals_keeps (self : t) :
  let self' := snd (calculate_totals self) in
  items self' = items self /\ status self' = status self
  /\ amount_paid self' = amount_paid self
  /\ discount_percentage self' = discount_percentage self.
Proof.
  unfold calculate_totals, bind, get, assign_ge0, modify, raise, ret, general_discount.
  simpl.
  destruct (Qleb 0 (sum total_price (items self))); [|repeat split].
  destruct (Qleb 0 (sum item_discount_amount (items self))); [|repeat split].
  destruct (Qleb 0 (sum tax_or_0 (items self))); [|repeat split].
  simpl.
  destruct (discount_percentage self) as [p|] eqn:Ep; [destruct (Qeq_bool p 0)|]; simpl;
    repeat match goal with
           | |- context [if ?b then _ else _] => destruct b; simpl
           end; repeat split; assumption.
Qed.

Lemma calculate_totals_change (self self' : t) :
  calculate_totals self = (Returned tt, self') ->
  amount_paid self' = amount_paid self
  /\ amounts_nonnegative self'
  /\ change_amount self'
     = (if Qltb (total_amount self') (amount_paid self)
        then PyDecimal.sub (amount_paid self) (total_amount self') else 0).
Proof.
  unfold calculate_totals. intro H. steps H. gets.
  apply assign_ge0_returned in Hstep0 as [-> Hn0].
  apply assign_ge0_returned in Hstep1 as [-> Hn1].
  apply assign_ge0_returned in Hstep2 as [-> Hn2].
  apply assign_ge0_returned in Hstep6 as [-> Hn6].
  simpl in H.
  assert (Hd : 0 <= discount_amount s4 /\ subtotal s4 = sum total_price (items self)
               /\ tax_amount s4 = sum tax_or_0 (items self)
               /\ amount_paid s4 = amount_paid self).
  { unfold general_discount in Hstep4. simpl in Hstep4.
    destruct (discount_percentage self) as [p|]; [destruct (Qeq_bool p 0)|].
    - inversion Hstep4; subst s4. simpl. auto.
    - apply assign_ge0_returned in Hstep4 as [-> Hn4]. simpl. auto.
    - inversion Hstep4; subst s4. simpl. auto. }
  destruct Hd as (Hd & Hs & Hx & Hp).
  rewrite Hs, Hx in Hn6. rewrite Hs, Hx, Hp in H.
  destruct (Qltb _ _) eqn:E;
    apply assign_ge0_returned in H as [-> Hn]; unfold amounts_nonnegative; simpl;
    rewrite ?Hs, ?Hx, ?Hp, ?E; repeat split; auto; apply Qle_refl.
Qed.

(** What [calculate_totals] leaves is its argument with the five amounts
    rewritten, whether it returns or raises. *)
Lemma calculate_totals_shape (self : t) :
  let self' := snd (calculate_totals self) in
  self' = with_change_amount (change_amount self')
            (with_total_amount (total_amount self')
               (with_tax_amount (tax_amount self')
                  (with_discount_amount (discount_amount self')
                     (with_subtotal (subtotal self') self)))).
Proof.
  destruct self.
  unfold calculate_totals, bind, get, assign_ge0, modify, raise, ret, general_discount.
  simpl.
  repeat match goal with
         | |- context [if ?b then _ else _] => destruct b; simpl
         | |- context [match ?o with Some _ => _ | None => _ end] => destruct o; simpl
         end; reflexivity.
Qed.

(** [calculate_totals] reads the items, the general discount and the
    amount paid, and none of the five amounts it writes. *)
Lemma calculate_totals_reads (self self' : t) (s d x tot c : Q) :
  calculate_totals self = (Returned tt, self') ->
  calculate_totals
    (with_change_amount c (with_total_amount tot (with_tax_amount x
       (with_discount_amount d (with_subtotal s self)))))
  = (Returned tt, self').
Proof.
  destruct self.
  unfold calculate_totals, bind, get, assign_ge0, modify, raise, ret, general_discount.
  simpl.
  repeat match goal with
         | |- context [if ?b then _ else _] => destruct b; simpl
         | |- context [match ?o with Some _ => _ | None => _ end] => destruct o; simpl
         end; intro H; try discriminate H; exact H.
Qed.

Lemma pop_last (l : list SaleItem) (item : SaleItem) :
  pop (List.length l) (l ++ [item]) = l.
Proof.
  unfold pop. induction l as [|x l IH]; simpl; [reflexivity|].
  simpl in IH. now rewrite IH.
Qed.

Ltac sale_fields :=
  cbn [items subtotal discount_amount discount_percentage tax_amount total_amount
       amount_paid change_amount status with_items with_subtotal with_discount_amount
       with_discount_percentage with_tax_amount with_total_amount with_change_amount
       with_status fst snd].

Lemma calculate_totals_empty (self : t) :
  items self = [] -> fst (calculate_totals self) = Returned tt.
Proof.
  intro Hitems. unfold calculate_totals, bind, get. rewrite Hitems.
  unfold sum at 1 2 3. simpl fold_left.
  rewrite !assign_ge0_passes by apply Qle_refl.
  unfold general_discount. sale_fields.
  assert (Hchange : forall s : t,
            fst ((if Qltb (total_amount s) (amount_paid s)
                  then assign_ge0 "change_amount" with_change_amount
                         (PyDecimal.sub (amount_paid s) (total_amount s))
                  else assign_ge0 "change_amount" with_change_amount 0) s) = Returned tt).
  { intros s. destruct (Qltb _ _) eqn:E.
    - apply Qltb_true in E.
      now rewrite assign_ge0_passes by (apply rounded_nonneg; lra).
    - now rewrite assign_ge0_passes by apply Qle_refl. }
  assert (Htotal : forall D : Q, D == 0 -> 0 <= PyDecimal.add (PyDecimal.sub 0 D) 0).
  { intros D HD. rewrite (sub_zero D HD), (add_zero 0) by reflexivity. apply Qle_refl. }
  destruct (discount_percentage self) as [p|]; [destruct (Qeq_bool p 0)|].
  - unfold ret. rewrite assign_ge0_passes by (sale_fields; now apply Htotal).
    apply Hchange.
  - assert (Hzero : PyDecimal.add 0 (PyDecimal.div (PyDecimal.mul 0 p) 100) == 0).
    { apply add_zero, no_discount. ring. }
    rewrite assign_ge0_passes by (rewrite Hzero; apply Qle_refl). sale_fields.
    rewrite assign_ge0_passes by (now apply Htotal).
    apply Hchange.
  - unfold ret. rewrite assign_ge0_passes by (sale_fields; now apply Htotal).
    apply Hchange.
Qed.

End SaleTotals.

(** X19. After [calculate_totals] returned, the five amounts are not negative
    and the change is the overpayment: the amount paid less the total, as
    the program subtracts, when more was paid than the total, zero
    otherwise. The amount paid is not touched. *)
Theorem change_is_the_overpayment :
  forall (self self' : Sale.t),
    Sale.calculate_totals self = (Returned tt, self') ->
    Sale.amounts_nonnegative self'
    /\ Sale.amount_paid self' = Sale.amount_paid self
    /\ (Sale.total_amount self' < Sale.amount_paid self ->
        Sale.change_amount self'
        == PyDecimal.sub (Sale.amount_paid self) (Sale.total_amount self'))
    /\ (Sale.amount_paid self <= Sale.total_amount self' ->
        Sale.change_amount self' == 0).
Proof.
  intros self self' H.
  destruct (calculate_totals_change self self' H) as (Hpaid & Hamounts & Hchange).
  split; [exact Hamounts|]. split; [exact Hpaid|]. rewrite Hchange. split; intro Hcmp.
  - apply Qltb_true in Hcmp. rewrite Hcmp. reflexivity.
  - destruct (Qltb _ _) eqn:E; [|reflexivity].
    apply Qltb_true in E. lra.
Qed.

Lemma change_is_the_overpayment_witness :
  let bread := mkSaleItem 1 "pao" None 2 None 5 10 1 None None (Some 2) in
  let self := Sale.mk None None None None [bread] 0 0 None 0 0 CASH 20 0 PENDING
                None None None None None None false None in
  let self' := snd (Sale.calculate_totals self) in
  Sale.amounts_nonnegative self' /\ Sale.change_amount self' == 9.
Proof.
  intros bread self self'.
  destruct (change_is_the_overpayment self self' eq_refl) as (Hnonneg & _ & Hover & _).
  split; [exact Hnonneg|].
  rewrite Hover; vm_compute; reflexivity.
Defined.

(** X20. [remove_item] can empty a sale, which [clear_items] cannot. On a sale
    of one item, [remove_item(0)] returns, whatever the item, the general
    discount and the amount paid: the list is empty, the subtotal, the
    discount, the tax and the total are zero, and the sale can no longer
    be completed; [clear_items] on the same sale raises and changes
    nothing. *)
Theorem remove_item_can_empty_sale :
  forall (self : Sale.t) (item : SaleItem),
    Sale.items self = [item] ->
    exists self',
      Sale.remove_item 0 self = (Returned tt, self')
      /\ Sale.items self' = []
      /\ Sale.subtotal self' == 0 /\ Sale.discount_amount self' == 0
      /\ Sale.tax_amount self' == 0 /\ Sale.total_amount self' == 0
      /\ Sale.can_complete self' = false
      /\ Sale.clear_items self = (Raised (ValidationError "items"), self).
Proof.
  intros self item Hitems.
  assert (Hstep : Sale.remove_item 0 self
                  = Sale.calculate_totals (Sale.with_items [] self)).
  { unfold Sale.remove_item, bind, get, modify. rewrite Hitems. reflexivity. }
  pose proof (calculate_totals_empty (Sale.with_items [] self) eq_refl) as Hret.
  destruct (Sale.calculate_totals (Sale.with_items [] self)) as [out self'] eqn:E.
  simpl in Hret. subst out. exists self'. split; [exact Hstep|].
  destruct (calculate_totals_returned _ _ E) as (Hb & (Hs & Hx & Hd) & Hi & Hp & _).
  simpl in Hi. rewrite Hi in Hs, Hx, Hd.
  assert (Hdz : Sale.discount_amount self' == 0).
  { rewrite Hd. destruct (Sale.discount_percentage self') as [p|]; unfold Sale.sum; simpl.
    - apply add_zero, no_discount. ring.
    - now apply add_zero. }
  split; [exact Hi|]. split; [exact Hs|]. split; [exact Hdz|]. split; [exact Hx|].
  split; [|split].
  - unfold Sale.totals_balance in Hb. unfold Sale.sum in Hs, Hx. simpl in Hs, Hx.
    rewrite Hb, Hs, Hdz, Hx.
    rewrite (sub_zero 0) by reflexivity. now apply add_zero.
  - unfold Sale.can_complete. now rewrite Hi.
  - reflexivity.
Qed.

Lemma remove_item_can_empty_sale_witness :
  let milk := mkSaleItem 2 "leite" None 1 None 4 4 0 None None None in
  let self := snd (Sale.add_item milk (Sale.default PIX)) in
  exists self',
    Sale.remove_item 0 self = (Returned tt, self')
    /\ Sale.items self' = [] /\ Sale.total_amount self' == 0.
Proof.
  intros milk self.
  destruct (remove_item_can_empty_sale self milk eq_refl)
    as (self' & Hremove & Hitems & _ & _ & _ & Htotal & _).
  exists self'. repeat split; assumption.
Defined.

(** X21. Adding an item and removing it again. When [add_item] returned, and
    [calculate_totals] returns on the sale as it was, [remove_item] at
    the last index returns and leaves exactly the sale that
    [calculate_totals] gives from the original: the item's amounts are
    out of every total. *)
Theorem add_then_remove_last_item :
  forall (self added recomputed : Sale.t) (item : SaleItem),
    Sale.add_item item self = (Returned tt, added) ->
    Sale.calculate_totals self = (Returned tt, recomputed) ->
    Sale.remove_item (Z.of_nat (List.length (Sale.items self))) added
    = (Returned tt, recomputed).
Proof.
  intros self added recomputed item Hadd Hself.
  assert (Hcalc : Sale.calculate_totals
                    (Sale.with_items (Sale.items self ++ [item])%list self)
                  = (Returned tt, added)).
  { unfold Sale.add_item, bind, modify in Hadd. exact Hadd. }
  pose proof (calculate_totals_shape
                (Sale.with_items (Sale.items self ++ [item])%list self)) as Hshape.
  pose proof (calculate_totals_keeps
                (Sale.with_items (Sale.items self ++ [item])%list self)) as (Hitems & _).
  rewrite Hcalc in Hshape, Hitems. simpl in Hshape, Hitems.
  unfold Sale.remove_item, bind, get, modify.
  rewrite Hitems, length_app, Nat2Z.id, pop_last.
  change (List.length [item]) with 1%nat.
  assert (Hguard : ((0 <=? Z.of_nat (List.length (Sale.items self)))%Z
                    && (Z.of_nat (List.length (Sale.items self))
                        <? Z.of_nat (List.length (Sale.items self) + 1))%Z) = true).
  { apply andb_true_iff. split; [apply Z.leb_le | apply Z.ltb_lt]; lia. }
  rewrite Hguard.
  remember (Sale.change_amount added) as c.
  remember (Sale.total_amount added) as tot.
  remember (Sale.tax_amount added) as x.
  remember (Sale.discount_amount added) as d.
  remember (Sale.subtotal added) as s.
  rewrite Hshape.
  replace (Sale.with_items (Sale.items self) _)
    with (Sale.with_change_amount c
            (Sale.with_total_amount tot
               (Sale.with_tax_amount x
                  (Sale.with_discount_amount d (Sale.with_subtotal s self)))))
    by (destruct self; reflexivity).
  now apply calculate_totals_reads.
Qed.

Lemma add_then_remove_last_item_witness :
  let bread := mkSaleItem 1 "pao" None 2 None 5 10 1 None None (Some 2) in
  let milk := mkSaleItem 2 "leite" None 1 None 4 4 0 None None None in
  let self := snd (Sale.add_item bread (Sale.default CASH)) in
  Sale.remove_item 1 (snd (Sale.add_item milk self)) = (Returned tt, self).
Proof.
  intros bread milk self.
  apply (add_then_remove_last_item self (snd (Sale.add_item milk self)) self milk).
  - vm_compute. reflexivity.
  - vm_compute. reflexivity.
Defined.

(** X23. [add_item] appends before it computes: the item is in the list, and
    counted by [item_count], whether the call returns or raises on one of
    the totals, and the status of the sale is not looked at. *)
Theorem add_item_appends_even_when_refused :
  forall (item : SaleItem) (self : Sale.t),
    let left := snd (Sale.add_item item self) in
    Sale.items left = (Sale.items self ++ [item])%list
    /\ Sale.item_count left = (Sale.item_count self + quantity item)%Z
    /\ Sale.status left = Sale.status self.
Proof.
  intros item self left.
  assert (Hleft : left = snd (Sale.calculate_totals
                                (Sale.with_items (Sale.items self ++ [item])%list self))).
  { unfold left, Sale.add_item, bind, modify.
    destruct (Sale.calculate_totals _) as [[[]|e] s]; reflexivity. }
  destruct (calculate_totals_keeps
              (Sale.with_items (Sale.items self ++ [item])%list self))
    as (Hitems & Hstatus & _).
  rewrite <- Hleft in Hitems, Hstatus. simpl in Hitems, Hstatus.
  split; [exact Hitems|]. split; [|exact Hstatus].
  unfold Sale.item_count. rewrite Hitems. now rewrite fold_left_app.
Qed.

(** X24. [complete] acts once at most and only on a pending sale that is paid:
    completing twice is completing once, a cancelled sale stays
    cancelled, and a sale that [complete] leaves Completed was Completed
    already or was Pending with at least one item, a positive total and
    an amount paid that covers it. [cancel] has no such guard: it cancels
    a completed sale. *)
Theorem complete_is_final :
  forall self : Sale.t,
    Sale.complete (Sale.complete self) = Sale.complete self
    /\ Sale.complete (Sale.cancel self) = Sale.cancel self
    /\ Sale.status (Sale.cancel (Sale.complete self)) = CANCELLED
    /\ (Sale.status (Sale.complete self) = COMPLETED ->
        Sale.status self = COMPLETED
        \/ (Sale.status self = PENDING /\ Sale.items self <> []
            /\ 0 < Sale.total_amount self
            /\ Sale.total_amount self <= Sale.amount_paid self)).
Proof.
  intro self. split; [|split; [|split]].
  - unfold Sale.complete at 2 3. destruct (Sale.can_complete self) eqn:E.
    + unfold Sale.complete, Sale.can_complete. simpl. now rewrite andb_false_r.
    + unfold Sale.complete. now rewrite E.
  - unfold Sale.complete, Sale.can_complete, Sale.cancel. simpl. now rewrite andb_false_r.
  - reflexivity.
  - unfold Sale.complete. destruct (Sale.can_complete self) eqn:E.
    + intros _. right. unfold Sale.can_complete in E.
      apply andb_true_iff in E as [E Hstatus]. apply andb_true_iff in E as [E Hpaid].
      apply andb_true_iff in E as [Hitems Htotal].
      split; [|split; [|split]].
      * destruct (Sale.status self); try discriminate Hstatus. reflexivity.
      * intro Hnil. rewrite Hnil in Hitems. discriminate Hitems.
      * now apply Qltb_true.
      * now apply Qleb_true.
    + intro H. left. exact H.
Qed.

Lemma complete_is_final_witness :
  let bread := mkSaleItem 1 "pao" None 2 None 5 10 1 None None (Some 2) in
  let self := Sale.mk None None None None [bread] 10 1 None 2 11 CASH 20 9 PENDING
                None None None None None None false None in
  Sale.status self = COMPLETED
  \/ (Sale.status self = PENDING /\ Sale.items self <> []
      /\ 0 < Sale.total_amount self
      /\ Sale.total_amount self <= Sale.amount_paid self).
Proof.
  intros bread self.
  apply (proj2 (proj2 (proj2 (complete_is_final self)))).
  reflexivity.
Defined.

(* ===================================================================== *)
(** * Further properties of the configuration files *)

Section LoadFacts.

Import ConfigStore.

Lemma has_config_set (k n : string) (v : json) (d : dict) :
  has_config (Dict.set k v d) n = true <-> n = k \/ has_config d n = true.
Proof.
  unfold has_config. destruct (String.eqb k n) eqn:E.
  - apply String.eqb_eq in E. subst n. rewrite get_set_same. tauto.
  - assert (Hne : k <> n).
    { intro Heq. subst n. rewrite String.eqb_refl in E. discriminate E. }
    rewrite (get_set_other k n v d Hne). split; [tauto|].
    intros [Heq | H]; [congruence | exact H].
Qed.

Lemma has_config_load (fs : string -> file) (filename n : string) (configs : dict) :
  has_config (_load_config fs filename configs) n = true
  <-> has_config configs n = true
      \/ (n = stem filename /\ exists data, fs filename = Content data).
Proof.
  unfold _load_config.
  destruct (fs filename) as [ | | data] eqn:Efile.
  - split; [tauto|]. intros [H | [_ [data Hdata]]]; [exact H | discriminate Hdata].
  - split; [tauto|]. intros [H | [_ [data Hdata]]]; [exact H | discriminate Hdata].
  - assert (Hbase : has_config (Dict.set (stem filename) data configs) n = true
                    <-> has_config configs n = true
                        \/ (n = stem filename /\ exists data', Content data = Content data')).
    { rewrite has_config_set. split.
      - intros [H | H]; [right; split; [exact H | now exists data] | now left].
      - intros [H | [H _]]; [now right | now left]. }
    destruct (fs ("local_" ++ filename)) as [ | | [ | | | | | | local_config]];
      try exact Hbase.
    destruct data as [ | | | | | | base]; try exact Hbase.
    rewrite has_config_set, has_config_set. split.
    + intros [H | [H | H]];
        [right; split; [exact H | eexists; reflexivity]
        | right; split; [exact H | eexists; reflexivity] | now left].
    + intros [H | [H _]]; [right; now right | now left].
Qed.

Lemma has_config_load_all (fs : string -> file) (n : string) (files : list string) :
  forall configs : dict,
    has_config (fold_left (fun acc filename => _load_config fs filename acc) files configs) n
      = true
    <-> has_config configs n = true
        \/ exists filename, In filename files /\ n = stem filename
                            /\ exists data, fs filename = Content data.
Proof.
  induction files as [|f rest IH]; intro configs; simpl.
  - split; [tauto|]. intros [H | (f & [] & _)]. exact H.
  - rewrite IH, has_config_load. split.
    + intros [[H | [Hn Hd]] | (f' & Hin & Hn & Hd)].
      * now left.
      * right. exists f. auto.
      * right. exists f'. auto.
    + intros [H | (f' & [Heq | Hin] & Hn & Hd)].
      * left. now left.
      * subst f'. left. right. auto.
      * right. exists f'. auto.
Qed.

End LoadFacts.

(** X25. The domains of a manager are the files found, and no others. After
    construction on an existing directory, a domain is present exactly
    when it is the name without extension of one of the five files of the
    list and that file was read as JSON, whatever its local file holds;
    on a missing directory no domain is present. *)
Theorem loaded_domains_are_the_files_read :
  forall (fs : string -> ConfigStore.file) (config_name : string),
    (ConfigStore.has_config (ConfigStore.init true fs) config_name = true
     <-> exists filename,
           In filename ConfigStore.config_files
           /\ config_name = ConfigStore.stem filename
           /\ exists data, fs filename = ConfigStore.Content data)
    /\ (ConfigStore.has_config (ConfigStore.init true fs) config_name = true ->
        In config_name ["api"; "database"; "equipment"; "ui"; "logging"])
    /\ ConfigStore.has_config (ConfigStore.init false fs) config_name = false.
Proof.
  intros fs name.
  assert (Hiff : ConfigStore.has_config (ConfigStore.init true fs) name = true
                 <-> exists filename,
                       In filename ConfigStore.config_files
                       /\ name = ConfigStore.stem filename
                       /\ exists data, fs filename = ConfigStore.Content data).
  { unfold ConfigStore.init, ConfigStore._load_all_configs.
    rewrite has_config_load_all. split; [|tauto].
    intros [H | H]; [discriminate H | exact H]. }
  split; [exact Hiff|]. split; [|reflexivity].
  intro H. apply Hiff in H as (f & Hin & -> & _).
  change (In (ConfigStore.stem f) (List.map ConfigStore.stem ConfigStore.config_files)).
  now apply in_map.
Qed.

Lemma loaded_domains_are_the_files_read_witness :
  let fs := fun path =>
    if String.eqb path "ui.json" then ConfigStore.Content (JArr [JInt 1])
    else if String.eqb path "local_ui.json" then ConfigStore.Unreadable
    else ConfigStore.Missing in
  ConfigStore.has_config (ConfigStore.init true fs) "ui" = true.
Proof.
  intro fs.
  apply (proj2 (proj1 (loaded_domains_are_the_files_read fs "ui"))).
  exists "ui.json". split; [|split].
  - right. right. right. left. reflexivity.
  - reflexivity.
  - eexists. reflexivity.
Defined.

(** X26. A local file overrides the main file at load. When [name.json] and
    [local_name.json] both hold dictionaries, every value that is not a
    dictionary, found along a path of the local file, is what [get]
    returns for that path after [_load_config], whatever the main file
    holds there; the domain is the merge of the two, in which a key that
    the local file lacks keeps the main file's value. *)
Theorem local_file_overrides_on_load :
  forall (fs : string -> ConfigStore.file) (filename : string) (configs base local : dict)
         (key_path : string) (leaf default : json),
    fs filename = ConfigStore.Content (JObj base) ->
    fs ("local_" ++ filename) = ConfigStore.Content (JObj local) ->
    wf_dict local = true ->
    key_path <> "" ->
    ConfigManager.is_leaf leaf = true ->
    ConfigManager.lookup_path (Py.split "." key_path) (JObj local) = Some leaf ->
    let loaded := ConfigStore._load_config fs filename configs in
    let merged := ConfigManager._deep_merge base local in
    ConfigStore.get loaded (ConfigStore.stem filename) key_path default = leaf
    /\ ConfigStore.get loaded (ConfigStore.stem filename) "" default = JObj merged
    /\ (forall key, Dict.get key local = None -> Dict.get key merged = Dict.get key base).
Proof.
  intros fs filename configs base local key_path leaf default Hmain Hlocal Hwf Hne Hleaf Hlook
         loaded merged.
  assert (Hloaded : Dict.get (ConfigStore.stem filename) loaded = Some (JObj merged)).
  { unfold loaded, ConfigStore._load_config. rewrite Hmain, Hlocal. apply get_set_same. }
  assert (Hpath : Py.nonempty key_path = true)
    by (destruct key_path; [contradiction | reflexivity]).
  split; [|split].
  - unfold ConfigStore.get. rewrite Hloaded, Hpath. unfold merged.
    rewrite (deep_merge_path _ base local leaf Hwf (split_nonempty _ _) Hleaf Hlook).
    reflexivity.
  - unfold ConfigStore.get. now rewrite Hloaded.
  - intros key Hnone.
    exact (deep_merge_get_other key local base (get_none_fresh _ _ Hnone)).
Qed.

Lemma local_file_overrides_on_load_witness :
  let fs := fun path =>
    if String.eqb path "api.json"
    then ConfigStore.Content
           (JObj [("base_url", JStr "https://api"); ("timeout", JInt 30);
                  ("retry", JObj [("max", JInt 3); ("delay", JInt 1)])])
    else if String.eqb path "local_api.json"
    then ConfigStore.Content
           (JObj [("base_url", JStr "http://localhost"); ("retry", JObj [("max", JInt 1)])])
    else ConfigStore.Missing in
  ConfigStore.get (ConfigStore._load_config fs "api.json" []) "api" "retry.max" JNull
  = JInt 1.
Proof.
  intro fs.
  refine (proj1 (local_file_overrides_on_load fs "api.json" []
           [("base_url", JStr "https://api"); ("timeout", JInt 30);
            ("retry", JObj [("max", JInt 3); ("delay", JInt 1)])]
           [("base_url", JStr "http://localhost"); ("retry", JObj [("max", JInt 1)])]
           "retry.max" (JInt 1) JNull _ _ _ _ _ _)); try reflexivity.
  discriminate.
Defined.
